(** * Bus-corridor simulator: holder, terminal, stop, passenger queue, link

    A shallow embedding of the simulation core of the transit testbed
    (package [simulator]) and the properties of its per-tick protocol.

    Conventions of the embedding.
    - Python [int] ticks are [Z]; Python [float] quantities (hold times,
      travel times, rates, reference times) are exact rationals [Q], so a
      statement about them is a statement of exact arithmetic.
    - A [dict] whose iteration order reaches a result is an insertion-ordered
      association list ([odict]); a [dict] that is only looked up is a [gmap].
    - An exception aborts the episode: an operation that can raise returns
      a [result], and nothing is observed after [Raise]. *)

From Stdlib Require Import QArith Lqa.
From stdpp Require Import base option list gmap strings pretty.

Set Default Proof Using "Type".
Open Scope Z_scope.

(** ** Exceptions *)

Inductive exn : Type :=
  | KeyError
  | AttributeError
  | IndexError
  | AssertionError (msg : string)
  | ZeroDivisionError.

Inductive result (A : Type) : Type :=
  | Ok (a : A)
  | Raise (e : exn).
Arguments Ok {A} a.
Arguments Raise {A} e.

Global Instance result_ret : MRet result := fun _ a => Ok a.
Global Instance result_bind : MBind result := fun _ _ k m =>
  match m with
  | Ok a => k a
  | Raise e => Raise e
  end.

(** [d[k]] on a plain dict: a missing key raises [KeyError]. *)
Definition getitem {A} (o : option A) : result A :=
  match o with
  | Some a => Ok a
  | None => Raise KeyError
  end.

Definition is_none {A} (o : option A) : bool :=
  match o with
  | None => true
  | Some _ => false
  end.

(** [assert c, msg] *)
Definition assert (c : bool) (msg : string) : result unit :=
  if c then Ok tt else Raise (AssertionError msg).

Definition raises {A} (r : result A) : Prop :=
  match r with
  | Ok _ => False
  | Raise _ => True
  end.

(** ** Insertion-ordered dictionaries *)

Module OD.
Section odict.
Context {K V : Type} `{EqDecision K}.

Definition odict : Type := list (K * V).

Fixpoint get (k : K) (d : odict) : option V :=
  match d with
  | [] => None
  | (k', v) :: d' => if decide (k = k') then Some v else get k d'
  end.

(** [d[k] = v]: an existing key keeps its position, a new key goes last. *)
Fixpoint set (k : K) (v : V) (d : odict) : odict :=
  match d with
  | [] => [(k, v)]
  | (k', v') :: d' =>
      if decide (k = k') then (k, v) :: d' else (k', v') :: set k v d'
  end.

(** [d.pop(k)] for a key that is present: the dict without [k]. Absent
    keys are the caller's [KeyError]. *)
Fixpoint pop (k : K) (d : odict) : odict :=
  match d with
  | [] => []
  | (k', v') :: d' => if decide (k = k') then pop k d' else (k', v') :: pop k d'
  end.

Definition keys (d : odict) : list K := d.*1.

End odict.
Global Arguments odict : clear implicits.
End OD.

(** ** Floats *)


(** ** Passengers and buses *)

(** [pax.Pax] (a dataclass: equality is field-wise) *)
Record Pax : Type := mkPax {
  pax_id : string;
  origin : string;
  destination : string;
  routes : list string;
  arrival_time : Z;
  board_rate : Q;
  alight_rate : option Q;
  board_time : option Z;
  alight_time : option Z;
  out_vehicle_delay : Z;
  in_vehicle_delay : Z
}.

Inductive BusStatus : Type :=
  | running_on_link
  | queueing_at_stop
  | dwelling_at_stop
  | holding
  | finished.

Inductive BoardStatus : Type := boarding | idle.
Inductive AlightStatus : Type := alighting | alight_idle.

Global Instance BusStatus_eq_dec : EqDecision BusStatus.
Proof. solve_decision. Defined.
Global Instance BoardStatus_eq_dec : EqDecision BoardStatus.
Proof. solve_decision. Defined.

Definition set_board_time (v : option Z) (p : Pax) : Pax :=
  let '(mkPax a b c d e f g _ i j k) := p in mkPax a b c d e f g v i j k.
Definition set_alight_time (v : option Z) (p : Pax) : Pax :=
  let '(mkPax a b c d e f g h _ j k) := p in mkPax a b c d e f g h v j k.
Definition set_out_vehicle_delay (v : Z) (p : Pax) : Pax :=
  let '(mkPax a b c d e f g h i _ k) := p in mkPax a b c d e f g h i v k.

(** [trajectory.TrajectoryPoint] *)
Record TrajectoryPoint : Type := mkTrajectoryPoint {
  spot_type : string;
  spot_id : string;
  distance_from_terminal : Q;
  status : BusStatus
}.

(** [setup.route.Route_Details] *)
Record Route_Details : Type := mkRoute {
  route_id : string;
  terminal_id : string;
  visit_seq_stops : list string;
  end_terminal_id : string;
  od_rate_table : gmap string (gmap string Q);
  schedule_headway : Q;
  schedule_headway_std : Q;
  boarding_rate : gmap string Q;
  bus_capacity : Z;
  hold_stops : list string
}.

(** [virtual_bus.VirtualBus]: the reference trajectory, route -> node -> time.
    Its three properties are read-only here. *)
Record VirtualBus : Type := mkVirtualBus {
  route_stop_arrival_time : gmap string (gmap string Q);
  route_stop_rtd_time : gmap string (gmap string Q);
  route_stop_departure_time : gmap string (gmap string Q)
}.

(** [log.BusRunningLog] *)
Record BusRunningLog : Type := mkBusLog {
  virtual_bus_stop_arrival_time : gmap string Q;
  virtual_bus_stop_rtd_time : gmap string Q;
  virtual_bus_stop_departure_time : gmap string Q;
  log_schedule_headway : Q;
  dispatch_time : option Z;
  end_time : option Z;
  link_tt_deviation : gmap string Q;
  stop_dwell_time : gmap string Z;
  visited_stops : list string;
  stop_epsilon_arrival : gmap string Q;
  stop_epsilon_rtd : gmap string Q;
  stop_epsilon_departure : gmap string Q;
  stop_arrival_time : gmap string Z;
  stop_rtd_time : gmap string Z;
  stop_departure_time : gmap string Z;
  stop_queueing_delay : gmap string Z
}.

(** Field updates of the running log, one per attribute the simulator
    writes. *)
Definition set_dispatch_time (v : option Z) (l : BusRunningLog) : BusRunningLog :=
  let '(mkBusLog a b c d _ f g h i j k m n o p q) := l in
  mkBusLog a b c d v f g h i j k m n o p q.
Definition set_link_tt_deviation (v : gmap string Q) (l : BusRunningLog) : BusRunningLog :=
  let '(mkBusLog a b c d e f _ h i j k m n o p q) := l in
  mkBusLog a b c d e f v h i j k m n o p q.
Definition set_stop_dwell_time (v : gmap string Z) (l : BusRunningLog) : BusRunningLog :=
  let '(mkBusLog a b c d e f g _ i j k m n o p q) := l in
  mkBusLog a b c d e f g v i j k m n o p q.
Definition set_visited_stops (v : list string) (l : BusRunningLog) : BusRunningLog :=
  let '(mkBusLog a b c d e f g h _ j k m n o p q) := l in
  mkBusLog a b c d e f g h v j k m n o p q.
Definition set_stop_epsilon_arrival (v : gmap string Q) (l : BusRunningLog) : BusRunningLog :=
  let '(mkBusLog a b c d e f g h i _ k m n o p q) := l in
  mkBusLog a b c d e f g h i v k m n o p q.
Definition set_stop_epsilon_rtd (v : gmap string Q) (l : BusRunningLog) : BusRunningLog :=
  let '(mkBusLog a b c d e f g h i j _ m n o p q) := l in
  mkBusLog a b c d e f g h i j v m n o p q.
Definition set_stop_epsilon_departure (v : gmap string Q) (l : BusRunningLog) : BusRunningLog :=
  let '(mkBusLog a b c d e f g h i j k _ n o p q) := l in
  mkBusLog a b c d e f g h i j k v n o p q.
Definition set_stop_arrival_time (v : gmap string Z) (l : BusRunningLog) : BusRunningLog :=
  let '(mkBusLog a b c d e f g h i j k m _ o p q) := l in
  mkBusLog a b c d e f g h i j k m v o p q.
Definition set_stop_rtd_time (v : gmap string Z) (l : BusRunningLog) : BusRunningLog :=
  let '(mkBusLog a b c d e f g h i j k m n _ p q) := l in
  mkBusLog a b c d e f g h i j k m n v p q.
Definition set_stop_departure_time (v : gmap string Z) (l : BusRunningLog) : BusRunningLog :=
  let '(mkBusLog a b c d e f g h i j k m n o _ q) := l in
  mkBusLog a b c d e f g h i j k m n o v q.
Definition set_stop_queueing_delay (v : gmap string Z) (l : BusRunningLog) : BusRunningLog :=
  let '(mkBusLog a b c d e f g h i j k m n o p _) := l in
  mkBusLog a b c d e f g h i j k m n o p v.

(** [BusRunningLog.__init__] *)
Definition BusRunningLog_init (H : Q) (va vr vd : gmap string Q) : BusRunningLog :=
  mkBusLog va vr vd H None None ∅ ∅ [] ∅ ∅ ∅ ∅ ∅ ∅ ∅.

Definition record_when_dispatch (t : Z) (l : BusRunningLog) : BusRunningLog :=
  set_dispatch_time (Some t) l.

Definition record_when_enter_link (link_id : string) (tt_deviation : Q)
    (l : BusRunningLog) : BusRunningLog :=
  set_link_tt_deviation (<[link_id := tt_deviation]> (link_tt_deviation l)) l.

(** The schedule deviation of an event observed at tick [t] when [count]
    events of the same kind were logged before it:
    [t - (virtual_time + schedule_headway * count)]. *)
Definition epsilon_of (t : Z) (virtual_time H : Q) (count : nat) : Q :=
  (inject_Z t - (virtual_time + H * inject_Z (Z.of_nat count)))%Q.

(** [record_when_arrival(stop_id, t, **kwargs)]; the keyword argument
    [last_arrival_idx_count] is [Some count] when it is passed. *)
Definition record_when_arrival (stop_id : string) (t : Z) (kw : option nat)
    (l : BusRunningLog) : result (BusRunningLog * option Q) :=
  let l1 := set_stop_arrival_time (<[stop_id := t]> (stop_arrival_time l)) l in
  match kw with
  | None => Ok (l1, None)
  | Some last_arrival_idx_count =>
      virtual_bus_arrival_time ← getitem (virtual_bus_stop_arrival_time l1 !! stop_id);
      let epsilon_arrival :=
        epsilon_of t virtual_bus_arrival_time (log_schedule_headway l1)
                   last_arrival_idx_count in
      Ok (set_stop_epsilon_arrival
            (<[stop_id := epsilon_arrival]> (stop_epsilon_arrival l1)) l1,
          Some epsilon_arrival)
  end.

Definition record_when_dwell (stop_id : string) (l : BusRunningLog) : BusRunningLog :=
  set_stop_dwell_time
    (<[stop_id := default 0 (stop_dwell_time l !! stop_id) + 1]> (stop_dwell_time l)) l.

Definition record_when_rtd (stop_id : string) (t : Z) (kw : option nat)
    (l : BusRunningLog) : result (BusRunningLog * option Q) :=
  let l1 := set_stop_rtd_time (<[stop_id := t]> (stop_rtd_time l)) l in
  let l2 := set_visited_stops (visited_stops l1 ++ [stop_id]) l1 in
  match kw with
  | None => Ok (l2, None)
  | Some last_rtd_idx_count =>
      virtual_bus_rtd_time ← getitem (virtual_bus_stop_rtd_time l2 !! stop_id);
      let epsilon_rtd :=
        epsilon_of t virtual_bus_rtd_time (log_schedule_headway l2)
                   last_rtd_idx_count in
      Ok (set_stop_epsilon_rtd
            (<[stop_id := epsilon_rtd]> (stop_epsilon_rtd l2)) l2,
          Some epsilon_rtd)
  end.

Definition record_when_departure (stop_id : string) (t : Z) (kw : option nat)
    (l : BusRunningLog) : result (BusRunningLog * option Q) :=
  let l1 := set_stop_departure_time (<[stop_id := t]> (stop_departure_time l)) l in
  match kw with
  | None => Ok (l1, None)
  | Some last_departure_idx_count =>
      virtual_bus_departure_time ←
        getitem (virtual_bus_stop_departure_time l1 !! stop_id);
      let epsilon_departure :=
        epsilon_of t virtual_bus_departure_time (log_schedule_headway l1)
                   last_departure_idx_count in
      Ok (set_stop_epsilon_departure
            (<[stop_id := epsilon_departure]> (stop_epsilon_departure l1)) l1,
          Some epsilon_departure)
  end.

Definition record_when_queue (stop_id : string) (l : BusRunningLog) : BusRunningLog :=
  set_stop_queueing_delay
    (<[stop_id := default 0 (stop_queueing_delay l !! stop_id) + 1]>
       (stop_queueing_delay l)) l.

(** [bus.Bus] *)
Record Bus : Type := mkBus {
  _bus_id : string;
  _route_id : string;
  _capacity : Z;
  _node_distance : gmap string Q;
  _status : BusStatus;
  _board_status : BoardStatus;
  _alight_status : AlightStatus;
  _paxs : list Pax;
  _board_fraction : Q;
  _pax_board_rate : option Q;
  _alight_fraction : Q;
  _pax_alight_rate : option Q;
  _trajectory : gmap Z TrajectoryPoint;
  _is_need_to_hold : bool;
  _hold_stops : list string;
  bus_log : BusRunningLog;
  speed : Q;
  loc_relative_to_terminal : Q
}.

Definition set_status (v : BusStatus) (b : Bus) : Bus :=
  let '(mkBus a0 a1 a2 a3 _ a5 a6 a7 a8 a9 a10 a11 a12 a13 a14 a15 a16 a17) := b in
  mkBus a0 a1 a2 a3 v a5 a6 a7 a8 a9 a10 a11 a12 a13 a14 a15 a16 a17.
Definition set_board_status (v : BoardStatus) (b : Bus) : Bus :=
  let '(mkBus a0 a1 a2 a3 a4 _ a6 a7 a8 a9 a10 a11 a12 a13 a14 a15 a16 a17) := b in
  mkBus a0 a1 a2 a3 a4 v a6 a7 a8 a9 a10 a11 a12 a13 a14 a15 a16 a17.
Definition set_paxs (v : list Pax) (b : Bus) : Bus :=
  let '(mkBus a0 a1 a2 a3 a4 a5 a6 _ a8 a9 a10 a11 a12 a13 a14 a15 a16 a17) := b in
  mkBus a0 a1 a2 a3 a4 a5 a6 v a8 a9 a10 a11 a12 a13 a14 a15 a16 a17.
Definition set_board_fraction (v : Q) (b : Bus) : Bus :=
  let '(mkBus a0 a1 a2 a3 a4 a5 a6 a7 _ a9 a10 a11 a12 a13 a14 a15 a16 a17) := b in
  mkBus a0 a1 a2 a3 a4 a5 a6 a7 v a9 a10 a11 a12 a13 a14 a15 a16 a17.
Definition set_pax_board_rate (v : option Q) (b : Bus) : Bus :=
  let '(mkBus a0 a1 a2 a3 a4 a5 a6 a7 a8 _ a10 a11 a12 a13 a14 a15 a16 a17) := b in
  mkBus a0 a1 a2 a3 a4 a5 a6 a7 a8 v a10 a11 a12 a13 a14 a15 a16 a17.
Definition set_alight_status (v : AlightStatus) (b : Bus) : Bus :=
  let '(mkBus a0 a1 a2 a3 a4 a5 _ a7 a8 a9 a10 a11 a12 a13 a14 a15 a16 a17) := b in
  mkBus a0 a1 a2 a3 a4 a5 v a7 a8 a9 a10 a11 a12 a13 a14 a15 a16 a17.
Definition set_alight_fraction (v : Q) (b : Bus) : Bus :=
  let '(mkBus a0 a1 a2 a3 a4 a5 a6 a7 a8 a9 _ a11 a12 a13 a14 a15 a16 a17) := b in
  mkBus a0 a1 a2 a3 a4 a5 a6 a7 a8 a9 v a11 a12 a13 a14 a15 a16 a17.
Definition set_pax_alight_rate (v : option Q) (b : Bus) : Bus :=
  let '(mkBus a0 a1 a2 a3 a4 a5 a6 a7 a8 a9 a10 _ a12 a13 a14 a15 a16 a17) := b in
  mkBus a0 a1 a2 a3 a4 a5 a6 a7 a8 a9 a10 v a12 a13 a14 a15 a16 a17.
Definition set_trajectory (v : gmap Z TrajectoryPoint) (b : Bus) : Bus :=
  let '(mkBus a0 a1 a2 a3 a4 a5 a6 a7 a8 a9 a10 a11 _ a13 a14 a15 a16 a17) := b in
  mkBus a0 a1 a2 a3 a4 a5 a6 a7 a8 a9 a10 a11 v a13 a14 a15 a16 a17.
Definition set_bus_log (v : BusRunningLog) (b : Bus) : Bus :=
  let '(mkBus a0 a1 a2 a3 a4 a5 a6 a7 a8 a9 a10 a11 a12 a13 a14 _ a16 a17) := b in
  mkBus a0 a1 a2 a3 a4 a5 a6 a7 a8 a9 a10 a11 a12 a13 a14 v a16 a17.
Definition set_speed (v : Q) (b : Bus) : Bus :=
  let '(mkBus a0 a1 a2 a3 a4 a5 a6 a7 a8 a9 a10 a11 a12 a13 a14 a15 _ a17) := b in
  mkBus a0 a1 a2 a3 a4 a5 a6 a7 a8 a9 a10 a11 a12 a13 a14 a15 v a17.
Definition set_loc_relative_to_terminal (v : Q) (b : Bus) : Bus :=
  let '(mkBus a0 a1 a2 a3 a4 a5 a6 a7 a8 a9 a10 a11 a12 a13 a14 a15 a16 _) := b in
  mkBus a0 a1 a2 a3 a4 a5 a6 a7 a8 a9 a10 a11 a12 a13 a14 a15 a16 v.

(** [Bus.__init__]: the reference times of the bus's route are looked up in
    plain dicts, so an unknown route raises [KeyError]. *)
Definition Bus_init (bus_id : string) (route : Route_Details)
    (node_distance : gmap string Q) (virtual_bus : VirtualBus)
    (is_need_to_hold : bool) : result Bus :=
  va ← getitem (route_stop_arrival_time virtual_bus !! route_id route);
  vr ← getitem (route_stop_rtd_time virtual_bus !! route_id route);
  vd ← getitem (route_stop_departure_time virtual_bus !! route_id route);
  Ok (mkBus bus_id (route_id route) (bus_capacity route) node_distance
        running_on_link idle alight_idle [] 0%Q None 0%Q None ∅
        is_need_to_hold (hold_stops route)
        (BusRunningLog_init (schedule_headway route) va vr vd) 0%Q 0%Q).

(** [Bus.update_location] *)
Definition update_location (t : Z) (spot_type spot_id node_id : string)
    (offset : Q) (status : BusStatus) (b : Bus) : result Bus :=
  d ← getitem (_node_distance b !! node_id);
  let loc := (d + offset)%Q in
  let b1 := set_loc_relative_to_terminal loc b in
  Ok (set_trajectory
        (<[t := mkTrajectoryPoint spot_type spot_id loc status]> (_trajectory b1)) b1).

(** [Bus.board]: the passenger object is stamped with its boarding time and
    joins the manifest. *)
Definition Bus_board (pax : Pax) (t : Z) (b : Bus) : Bus :=
  set_paxs (_paxs b ++ [set_board_time (Some t) pax])
    (set_pax_board_rate (Some (board_rate pax)) (set_board_status boarding b)).

(** [Bus.accumate_board_fraction] *)
Definition accumate_board_fraction (b : Bus) : result Bus :=
  _ ← assert (bool_decide (_board_status b = boarding))
        "bus is not boarding, cannot accumate board fraction";
  match _pax_board_rate b with
  | None => Raise (AssertionError "pax board rate is None")
  | Some r =>
      let b1 := set_board_fraction (_board_fraction b + r)%Q b in
      if Qle_bool 1 (_board_fraction b1)
      then Ok (set_pax_board_rate None
                 (set_board_status idle
                    (set_board_fraction (_board_fraction b1 - 1)%Q b1)))
      else Ok b1
  end.

(** ** Holder *)

(** Nested [defaultdict]s of lists, route -> stop -> sequence: an absent
    entry reads as the empty list. *)
Definition seq_get {V} (m : gmap string (gmap string (list V)))
    (route_id stop_id : string) : list V :=
  default [] (default ∅ (m !! route_id) !! stop_id).

Definition seq_append {V} (m : gmap string (gmap string (list V)))
    (route_id stop_id : string) (x : V) : gmap string (gmap string (list V)) :=
  <[route_id := <[stop_id := seq_get m route_id stop_id ++ [x]]>
                  (default ∅ (m !! route_id))]> m.

(** [log.HolderLog]; the epsilon table only exists when the log was built
    with [has_schedule]. *)
Record HolderLog : Type := mkHolderLog {
  route_stop_departure_time_seq : gmap string (gmap string (list Q));
  route_stop_departure_bus_id_seq : gmap string (gmap string (list string));
  route_stop_bus_epsilon_departure :
    option (gmap string (gmap string (gmap string Q)))
}.

(** [HolderLog.__init__] *)
Definition HolderLog_init (virtual_bus : VirtualBus) (has_schedule : bool) : HolderLog :=
  let vd := route_stop_departure_time virtual_bus in
  mkHolderLog
    ((fun by_stop : gmap string Q =>
        (fun departure_time => [departure_time]) <$> by_stop) <$> vd)
    ((fun by_stop : gmap string Q =>
        (fun _ => ["0"%string]) <$> by_stop) <$> vd)
    (if has_schedule
     then Some ((fun by_stop : gmap string Q =>
                   (fun _ => ({["0"%string := 0%Q]} : gmap string Q)) <$> by_stop) <$> vd)
     else None).

(** [HolderLog.record_when_bus_departure(stop_id, route_id, bus_id, t, **kwargs)] *)
Definition record_when_bus_departure (stop_id route_id bus_id : string) (t : Z)
    (kw : option Q) (l : HolderLog) : result HolderLog :=
  let ts := seq_append (route_stop_departure_time_seq l) route_id stop_id (inject_Z t) in
  let ids := seq_append (route_stop_departure_bus_id_seq l) route_id stop_id bus_id in
  match kw with
  | None => Ok (mkHolderLog ts ids (route_stop_bus_epsilon_departure l))
  | Some epsilon_departure =>
      match route_stop_bus_epsilon_departure l with
      | None => Raise AttributeError
      | Some e =>
          let by_stop := default ∅ (e !! route_id) in
          let by_bus := default ∅ (by_stop !! stop_id) in
          Ok (mkHolderLog ts ids
                (Some (<[route_id :=
                          <[stop_id := <[bus_id := epsilon_departure]> by_bus]> by_stop]> e)))
      end
  end.

Module Holder.

(** (stop_id, route_id, bus_id) *)
Definition key : Type := string * string * string.

Record t : Type := mk {
  _identifier_bus : OD.odict key Bus;
  _identifier_time : OD.odict key (option Q);
  holder_log : HolderLog;
  _has_schedule : bool
}.

(** [Holder.__init__] *)
Definition init (virtual_bus : VirtualBus) (has_schedule : bool) : t :=
  mk [] [] (HolderLog_init virtual_bus has_schedule) has_schedule.

(** [Holder.add_bus] *)
Definition add_bus (stop_id : string) (bus : Bus) (t0 : Z) (h : t) : result t :=
  let k := (stop_id, _route_id bus, _bus_id bus) in
  bus' ← update_location t0 "holder" stop_id stop_id 0%Q holding
           (set_status holding bus);
  Ok (mk (OD.set k bus' (_identifier_bus h))
         (OD.set k None (_identifier_time h))
         (holder_log h) (_has_schedule h)).

(** [Holder.set_hold_action]: the loop over the items of the action map. *)
Fixpoint set_hold_action (stop_bus_hold_action : list (key * Q)) (h : t) : result t :=
  match stop_bus_hold_action with
  | [] => Ok h
  | (k, hold_time) :: rest =>
      current ← getitem (OD.get k (_identifier_time h));
      _ ← assert (is_none current) "bus is already holding";
      set_hold_action rest
        (mk (_identifier_bus h)
            (OD.set k (Some hold_time) (_identifier_time h))
            (holder_log h) (_has_schedule h))
  end.

(** The bookkeeping of a finished hold (the body of [if hold_time <= 0]
    between the append to [stop_held_buses] and [remove_buses.append]). *)
Definition record_release (has_schedule : bool) (k : key) (t0 : Z)
    (held_bus : Bus) (hl : HolderLog) : result (Bus * HolderLog) :=
  let '(stop_id, route_id, bus_id) := k in
  if has_schedule then
    let bus_id_seq := seq_get (route_stop_departure_bus_id_seq hl) route_id stop_id in
    let departure_idx_count := length bus_id_seq in
    '(bl, epsilon_departure) ←
      record_when_departure stop_id t0 (Some departure_idx_count) (bus_log held_bus);
    hl' ← record_when_bus_departure stop_id route_id bus_id t0 epsilon_departure hl;
    Ok (set_bus_log bl held_bus, hl')
  else
    '(bl, epsilon_departure) ← record_when_departure stop_id t0 None (bus_log held_bus);
    _ ← assert (is_none epsilon_departure) "epsilon_departure should be None";
    hl' ← record_when_bus_departure stop_id route_id bus_id t0 None hl;
    Ok (set_bus_log bl held_bus, hl').

(** The state threaded through the loop of [Holder.operation]: the holder,
    [stop_held_buses] and [remove_buses]. *)
Definition loop_state : Type := t * OD.odict string (list Bus) * list key.

(** One iteration of the loop over [self._identifier_time.items()]. *)
Definition operation_step (t0 : Z) (st : loop_state) (item : key * option Q)
    : result loop_state :=
  let '(h, stop_held_buses, remove_buses) := st in
  let '(k, hold_time) := item in
  match hold_time with
  | None => Ok st
  | Some hold_time =>
      let hold_time := (hold_time - 1)%Q in
      let times := OD.set k (Some hold_time) (_identifier_time h) in
      held_bus ← getitem (OD.get k (_identifier_bus h));
      if Qle_bool hold_time 0 then
        '(bus1, hl) ← record_release (_has_schedule h) k t0 held_bus (holder_log h);
        bus2 ← update_location t0 "holder" k.1.1 k.1.1 0%Q holding bus1;
        Ok (mk (OD.set k bus2 (_identifier_bus h)) times hl (_has_schedule h),
            OD.set k.1.1 (default [] (OD.get k.1.1 stop_held_buses) ++ [bus2])
              stop_held_buses,
            remove_buses ++ [k])
      else
        bus2 ← update_location t0 "holder" k.1.1 k.1.1 0%Q holding held_bus;
        Ok (mk (OD.set k bus2 (_identifier_bus h)) times (holder_log h)
              (_has_schedule h),
            stop_held_buses, remove_buses)
  end.

Fixpoint operation_loop (t0 : Z) (items : list (key * option Q)) (st : loop_state)
    : result loop_state :=
  match items with
  | [] => Ok st
  | item :: rest => st' ← operation_step t0 st item; operation_loop t0 rest st'
  end.

(** [for remove_bus in remove_buses: ...pop(remove_bus)] *)
Fixpoint remove_loop (remove_buses : list key) (h : t) : result t :=
  match remove_buses with
  | [] => Ok h
  | k :: rest =>
      _ ← getitem (OD.get k (_identifier_bus h));
      _ ← getitem (OD.get k (_identifier_time h));
      remove_loop rest
        (mk (OD.pop k (_identifier_bus h)) (OD.pop k (_identifier_time h))
            (holder_log h) (_has_schedule h))
  end.

(** [Holder.operation(t)]: returns the holder after the tick and the buses
    released at each stop. *)
Definition operation (t0 : Z) (h : t) : result (t * OD.odict string (list Bus)) :=
  '(h1, stop_held_buses, remove_buses) ←
    operation_loop t0 (_identifier_time h) (h, [], []);
  h2 ← remove_loop remove_buses h1;
  Ok (h2, stop_held_buses).

(** The calls the simulator makes on the holder: a bus handed over by a stop
    ([Mediator.transfer]), the decision map of a tick, and the tick itself
    ([Simulator.step], phase 4). *)
Inductive event : Type :=
  | EvAddBus (stop_id : string) (bus : Bus) (t0 : Z)
  | EvSetHoldAction (stop_bus_hold_action : list (key * Q))
  | EvOperation (t0 : Z).

Definition apply_event (e : event) (h : t) : result t :=
  match e with
  | EvAddBus stop_id bus t0 => add_bus stop_id bus t0 h
  | EvSetHoldAction a => set_hold_action a h
  | EvOperation t0 => '(h', _) ← operation t0 h; Ok h'
  end.

Fixpoint run (evs : list event) (h : t) : result t :=
  match evs with
  | [] => Ok h
  | e :: rest => h' ← apply_event e h; run rest h'
  end.

(** No event of [evs] registers the key [k] anew. *)
Definition no_registration (k : key) (evs : list event) : Prop :=
  ∀ stop_id bus t0,
    EvAddBus stop_id bus t0 ∈ evs → (stop_id, _route_id bus, _bus_id bus) ≠ k.

(** The keys whose hold ends at this tick, in iteration order. *)
Definition expired (items : list (key * option Q)) : list key :=
  omap (fun item : key * option Q =>
          match item.2 with
          | Some hold_time =>
              if Qle_bool (hold_time - 1) 0 then Some item.1 else None
          | None => None
          end) items.

(** The number of buses handed back by the tick. *)
Definition released_count (held : OD.odict string (list Bus)) : nat :=
  length (concat held.*2).

(** What the loop leaves for an entry it visits. *)
Definition entry_outcome (t0 : Z) (k : key) (v : option Q) (st st' : loop_state) : Prop :=
  match v with
  | None =>
      OD.get k (_identifier_time st'.1.1) = OD.get k (_identifier_time st.1.1) ∧
      OD.get k (_identifier_bus st'.1.1) = OD.get k (_identifier_bus st.1.1)
  | Some ht =>
      OD.get k (_identifier_time st'.1.1) = Some (Some (ht - 1)%Q) ∧
      ∃ b0 b2,
        OD.get k (_identifier_bus st.1.1) = Some b0 ∧
        OD.get k (_identifier_bus st'.1.1) = Some b2 ∧
        _bus_id b2 = _bus_id b0 ∧ _route_id b2 = _route_id b0 ∧
        if Qle_bool (ht - 1) 0 then
          b2 ∈ default [] (OD.get k.1.1 st'.1.2) ∧
          stop_departure_time (bus_log b2) !! k.1.1 = Some t0 ∧
          k.2 ∈ seq_get (route_stop_departure_bus_id_seq (holder_log st'.1.1))
                  k.1.2 k.1.1 ∧
          inject_Z t0 ∈ seq_get (route_stop_departure_time_seq (holder_log st'.1.1))
                          k.1.2 k.1.1
        else bus_log b2 = bus_log b0
  end.

(** The entries the loop of [operation] visits before it reaches the key
    [k]. *)
Fixpoint visited_before (k : key) (items : list (key * option Q))
    : list (key * option Q) :=
  match items with
  | [] => []
  | item :: rest =>
      if decide (item.1 = k) then [] else item :: visited_before k rest
  end.

(** The buses of the stop and route of [k] among the keys [ks]. *)
Definition same_stop_route (k : key) (ks : list key) : list key :=
  filter (fun k' : key => k'.1 = k.1) ks.

(** The value of [len(bus_id_seq)] that [operation] reads when the hold of
    [k] ends in the tick that starts from [h]: the departures of its route
    on record at its stop before the tick, and one more for every bus of
    that route and stop released earlier in the same tick. *)
Definition departure_idx_count (h : t) (k : key) : nat :=
  (length (seq_get (route_stop_departure_bus_id_seq (holder_log h)) k.1.2 k.1.1) +
   length (same_stop_route k (expired (visited_before k (_identifier_time h)))))%nat.

(** [route_stop_bus_epsilon_departure[route_id][stop_id][bus_id]], when the
    table exists and has the entry. *)
Definition epsilon_departure_of (hl : HolderLog) (k : key) : option Q :=
  e ← route_stop_bus_epsilon_departure hl;
  by_stop ← e !! k.1.2;
  by_bus ← by_stop !! k.1.1;
  by_bus !! k.2.

(** The departure-deviation bookkeeping of a release at tick [t0] that
    read [count] as [len(bus_id_seq)]; [b0] is the bus before the tick, [b]
    the bus handed back, [hl] and [hl'] the holder's log before and after.
    With a schedule the epsilon [t0 - (reference departure + H * count)] is
    in the bus's running log and in the holder's table; without one neither
    the bus's epsilons nor the table are written. *)
Definition departure_recorded (has_schedule : bool) (t0 : Z) (k : key)
    (count : nat) (b0 b : Bus) (hl hl' : HolderLog) : Prop :=
  if has_schedule then
    ∃ vd,
      virtual_bus_stop_departure_time (bus_log b0) !! k.1.1 = Some vd ∧
      let epsilon_departure :=
        epsilon_of t0 vd (log_schedule_headway (bus_log b0)) count in
      stop_epsilon_departure (bus_log b) !! k.1.1 = Some epsilon_departure ∧
      epsilon_departure_of hl' k = Some epsilon_departure
  else
    stop_epsilon_departure (bus_log b) = stop_epsilon_departure (bus_log b0) ∧
    route_stop_bus_epsilon_departure hl' = route_stop_bus_epsilon_departure hl.

(** The loop of [Holder._find_unheld_buses] over the items of
    [_identifier_bus]; the hold time of each key is read from
    [_identifier_time]. *)
Fixpoint find_unheld_loop (items : list (key * Bus))
    (times : OD.odict key (option Q)) (unheld_buses : list key) : result (list key) :=
  match items with
  | [] => Ok unheld_buses
  | (k, _) :: rest =>
      hold_time ← getitem (OD.get k times);
      find_unheld_loop rest times
        (if is_none hold_time then unheld_buses ++ [k] else unheld_buses)
  end.

(** [Holder._find_unheld_buses]: the [action_buses] of a holder snapshot. *)
Definition _find_unheld_buses (h : t) : result (list key) :=
  find_unheld_loop (_identifier_bus h) (_identifier_time h) [].

(** The two dicts of the holder go together: the same keys in the same
    order, no key twice, and every bus filed under its own route and bus
    id, with status [holding]. *)
Definition filed (h : t) : Prop :=
  OD.keys (_identifier_bus h) = OD.keys (_identifier_time h) ∧
  NoDup (OD.keys (_identifier_time h)) ∧
  ∀ k b, OD.get k (_identifier_bus h) = Some b →
         k.1.2 = _route_id b ∧ k.2 = _bus_id b ∧ _status b = holding.

(** The ticks [t0, t0 + 1, ..., t0 + n - 1] of the holder, with no other
    call in between. *)
Definition ticks (t0 : Z) (n : nat) : list event := EvOperation <$> seqZ t0 (Z.of_nat n).

(** Whether the entry of [k] is registered and still waits for a decision. *)
Definition undecided (times : OD.odict key (option Q)) (k : key) : bool :=
  match OD.get k times with
  | Some None => true
  | _ => false
  end.

End Holder.

(** ** Terminal *)

(** [int(x)] of a float: truncation toward zero. *)
Definition py_int (x : Q) : Z := Z.quot (Qnum x) (Z.pos (Qden x)).

(** [a < b] on floats *)
Definition Qlt_bool (a b : Q) : bool := negb (Qle_bool b a).

Module Terminal.

Record t : Type := mk {
  _terminal_id : string;
  (** [_blueprint.route_node_distance], the only part of the blueprint that
      dispatching reads *)
  _route_node_distance : gmap string (gmap string Q);
  _routes : list Route_Details;
  _route_round_count : gmap string Z;
  _virtual_bus : VirtualBus;
  _hold_start_time : Q;
  _hold_end_time : Q
}.

(** [Terminal.__init__] *)
Definition init (terminal_id : string) (routes : list Route_Details)
    (route_node_distance : gmap string (gmap string Q)) (virtual_bus : VirtualBus)
    (hold_period : Q * Q) : t :=
  mk terminal_id route_node_distance routes
     (list_to_map ((fun route => (route_id route, 1)) <$> routes))
     virtual_bus hold_period.1 hold_period.2.

Definition set_route_round_count (v : gmap string Z) (term : t) : t :=
  mk (_terminal_id term) (_route_node_distance term) (_routes term) v
     (_virtual_bus term) (_hold_start_time term) (_hold_end_time term).

(** The dispatching condition of a route at tick [t0]:
    [t % int(route.schedule_headway) == 0 and t > 0]. *)
Definition due (route : Route_Details) (t0 : Z) : result bool :=
  let headway := py_int (schedule_headway route) in
  if decide (headway = 0) then Raise ZeroDivisionError
  else Ok (bool_decide (t0 `mod` headway = 0) && bool_decide (t0 > 0)).

(** The body of the loop of [Terminal.dispatch] for one route. *)
Definition dispatch_route (t0 : Z) (route : Route_Details)
    (st : t * list Bus) : result (t * list Bus) :=
  let '(term, dispatching_buses) := st in
  is_due ← due route t0;
  if is_due : bool then
    count ← getitem (_route_round_count term !! route_id route);
    let bus_id : string := pretty count in
    node_distance ← getitem (_route_node_distance term !! route_id route);
    let is_need_to_hold :=
      Qlt_bool (_hold_start_time term) (inject_Z t0) &&
      Qlt_bool (inject_Z t0) (_hold_end_time term) in
    bus ← Bus_init bus_id route node_distance (_virtual_bus term) is_need_to_hold;
    let bus := set_bus_log (record_when_dispatch t0 (bus_log bus)) bus in
    Ok (set_route_round_count
          (<[route_id route := count + 1]> (_route_round_count term)) term,
        dispatching_buses ++ [bus])
  else Ok st.

Fixpoint dispatch_loop (t0 : Z) (routes : list Route_Details)
    (st : t * list Bus) : result (t * list Bus) :=
  match routes with
  | [] => Ok st
  | route :: rest => st' ← dispatch_route t0 route st; dispatch_loop t0 rest st'
  end.

(** [Terminal.dispatch(t)] *)
Definition dispatch (t0 : Z) (term : t) : result (t * list Bus) :=
  dispatch_loop t0 (_routes term) (term, []).

(** The ticks [start, start + 1, ..., start + n - 1] of an episode
    ([for t in range(episode_duration)] starts at 0), with the buses each
    tick dispatched, in order. *)
Fixpoint episode (n : nat) (start : Z) (term : t) : result (t * list Bus) :=
  match n with
  | O => Ok (term, [])
  | S n' =>
      '(term1, now) ← dispatch start term;
      '(term2, later) ← episode n' (start + 1) term1;
      Ok (term2, now ++ later)
  end.

(** What identifies a dispatch: bus id and dispatch tick. *)
Definition dispatch_record (b : Bus) : string * option Z :=
  (_bus_id b, dispatch_time (bus_log b)).

(** The buses of one route among those dispatched. *)
Definition of_route (r : string) (buses : list Bus) : list Bus :=
  filter (fun b => _route_id b = r) buses.

(** The parts of a terminal that dispatching never writes. *)
Definition same_setup (term term' : t) : Prop :=
  _routes term' = _routes term ∧
  _route_node_distance term' = _route_node_distance term ∧
  _virtual_bus term' = _virtual_bus term ∧
  _hold_start_time term' = _hold_start_time term ∧
  _hold_end_time term' = _hold_end_time term.

(** The dispatching condition as the specification words it, on the
    headway as configured: [t mod scheduleHeadway == 0], that is, [t] is an
    integer multiple of the (possibly fractional) headway. *)
Definition multiple_of_headway (t0 : Z) (headway : Q) : Prop :=
  ∃ k : Z, (inject_Z t0 == inject_Z k * headway)%Q.

(** Everything [dispatch] looks up for the routes of the terminal is there:
    a nonzero truncated headway, the counter, the node distances and the
    three reference trajectories. *)
Definition known (route : Route_Details) (term : t) : Prop :=
  py_int (schedule_headway route) ≠ 0 ∧
  is_Some (_route_round_count term !! route_id route) ∧
  is_Some (_route_node_distance term !! route_id route) ∧
  is_Some (route_stop_arrival_time (_virtual_bus term) !! route_id route) ∧
  is_Some (route_stop_rtd_time (_virtual_bus term) !! route_id route) ∧
  is_Some (route_stop_departure_time (_virtual_bus term) !! route_id route).

Definition ready (term : t) : Prop :=
  ∀ route, route ∈ _routes term → known route term.

End Terminal.

(** ** Passenger queue *)

(** [StopNodeOperation.board_truncation : Literal['arrival', 'rtd']] *)
Inductive BoardTruncation : Type := arrival | rtd.

(** Equality of two optional floats, as [==] compares them. *)
Definition option_Qeq_bool (a b : option Q) : bool :=
  match a, b with
  | Some x, Some y => Qeq_bool x y
  | None, None => true
  | _, _ => false
  end.

(** [Pax.__eq__], generated by [@dataclass]: all fields, in order. *)
Definition pax_eqb (p q : Pax) : bool :=
  bool_decide (pax_id p = pax_id q) &&
  bool_decide (origin p = origin q) &&
  bool_decide (destination p = destination q) &&
  bool_decide (routes p = routes q) &&
  bool_decide (arrival_time p = arrival_time q) &&
  Qeq_bool (board_rate p) (board_rate q) &&
  option_Qeq_bool (alight_rate p) (alight_rate q) &&
  bool_decide (board_time p = board_time q) &&
  bool_decide (alight_time p = alight_time q) &&
  bool_decide (out_vehicle_delay p = out_vehicle_delay q) &&
  bool_decide (in_vehicle_delay p = in_vehicle_delay q).

(** [list.remove(x)]: drops the first element equal to [x]. ([ValueError]
    for an absent [x] does not arise where the simulator calls it.) *)
Fixpoint list_remove {A} (eqb : A → A → bool) (x : A) (l : list A) : list A :=
  match l with
  | [] => []
  | y :: l' => if eqb y x then l' else y :: list_remove eqb x l'
  end.

Module PaxQueue.

Record t : Type := mk {
  _route_group_paxs : OD.odict (list string) (list Pax);
  _stop_id : string;
  _board_truncation : BoardTruncation
}.

(** [PaxQueue.__init__] *)
Definition init (stop_id : string) (board_truncation : BoardTruncation) : t :=
  mk [] stop_id board_truncation.

Definition group (g : list string) (q : t) : list Pax :=
  default [] (OD.get g (_route_group_paxs q)).

(** [PaxQueue.add_pax] *)
Definition add_pax (pax : Pax) (q : t) : t :=
  let routes := routes pax in
  mk (OD.set routes (group routes q ++ [pax]) (_route_group_paxs q))
     (_stop_id q) (_board_truncation q).

(** [PaxQueue._get_served_groups] *)
Definition _get_served_groups (bus_route_id : string) (q : t) : list (list string) :=
  filter (fun route_group => bus_route_id ∈ route_group) (OD.keys (_route_group_paxs q)).

(** [PaxQueue._filter_pax_arrival_after_bus_arrival]. The passengers keep
    their position in [paxs]: a passenger of the result is the very object
    of the queue, which [board] mutates and removes. The bus's arrival tick
    is looked up once per passenger, so an empty queue never raises. *)
Definition _filter_pax_arrival_after_bus_arrival (q : t) (bus : Bus)
    (paxs : list (nat * Pax)) : result (list (nat * Pax)) :=
  match paxs with
  | [] => Ok []
  | _ =>
      bus_arrival ← getitem (stop_arrival_time (bus_log bus) !! _stop_id q);
      Ok (filter (fun ip : nat * Pax => arrival_time ip.2 < bus_arrival) paxs)
  end.

(** The passengers of a group a bus may take: [board_paxs]. *)
Definition board_paxs (q : t) (bus : Bus) (paxs : list Pax)
    : result (list (nat * Pax)) :=
  match _board_truncation q with
  | arrival => _filter_pax_arrival_after_bus_arrival q bus (imap pair paxs)
  | rtd => Ok (imap pair paxs)
  end.

(** [PaxQueue.board] *)
Definition board (bus : Bus) (t0 : Z) (q : t) : result (t * Bus) :=
  match _board_status bus with
  | boarding => bus' ← accumate_board_fraction bus; Ok (q, bus')
  | idle =>
      match _get_served_groups (_route_id bus) q with
      | [] => Ok (q, bus)
      | exclusive_group :: _ =>
          _ ← assert (bool_decide (length exclusive_group = 1%nat))
                "Only one exclusive group for now";
          let paxs := group exclusive_group q in
          candidates ← board_paxs q bus paxs;
          match candidates with
          | [] => Ok (q, bus)
          | (i, head_pax) :: _ =>
              let bus1 := Bus_board head_pax t0 bus in
              let head_pax' := set_board_time (Some t0) head_pax in
              let paxs' := list_remove pax_eqb head_pax' (<[i := head_pax']> paxs) in
              bus2 ← accumate_board_fraction bus1;
              Ok (mk (OD.set exclusive_group paxs' (_route_group_paxs q))
                     (_stop_id q) (_board_truncation q),
                  bus2)
          end
      end
  end.

(** [PaxQueue.accumulate_out_vehicle_delay] *)
Definition accumulate_out_vehicle_delay (q : t) : t :=
  mk ((fun gp : list string * list Pax =>
         (gp.1, (fun pax => set_out_vehicle_delay (out_vehicle_delay pax + 1) pax)
                  <$> gp.2)) <$> _route_group_paxs q)
     (_stop_id q) (_board_truncation q).

(** [PaxQueue.get_total_pax_num] *)
Definition get_total_pax_num (q : t) : nat :=
  sum_list ((fun g => length (group g q)) <$> OD.keys (_route_group_paxs q)).

Fixpoint remaining_loop (q : t) (bus : Bus) (served_groups : list (list string))
    (remaining_pax_num : nat) : result nat :=
  match served_groups with
  | [] => Ok remaining_pax_num
  | g :: rest =>
      candidates ← board_paxs q bus (group g q);
      remaining_loop q bus rest (remaining_pax_num + length candidates)%nat
  end.

(** [PaxQueue.check_remaining_pax_num] *)
Definition check_remaining_pax_num (bus : Bus) (q : t) : result nat :=
  remaining_loop q bus (_get_served_groups (_route_id bus) q) 0%nat.

(** Whether the truncation rule lets a bus take a passenger: under
    [arrival] the passenger came strictly before the bus's recorded arrival
    at this stop, under [rtd] always. *)
Definition eligible (q : t) (bus : Bus) (pax : Pax) : Prop :=
  match _board_truncation q with
  | arrival =>
      match stop_arrival_time (bus_log bus) !! _stop_id q with
      | Some bus_arrival => arrival_time pax < bus_arrival
      | None => False
      end
  | rtd => True
  end.

Global Instance eligible_dec q bus pax : Decision (eligible q bus pax).
Proof.
  unfold eligible. destruct (_board_truncation q); [|apply _].
  destruct (stop_arrival_time (bus_log bus) !! _stop_id q); apply _.
Defined.


End PaxQueue.

(** ** Stops *)

(** [Bus.alight] *)
Definition Bus_alight (stop_id : string) (b : Bus) : result (Bus * option Pax) :=
  match _alight_status b with
  | alighting =>
      match _pax_alight_rate b with
      | None => Raise (AssertionError "pax alight rate is None")
      | Some r =>
          let b1 := set_alight_fraction (_alight_fraction b + r)%Q b in
          if Qle_bool 1 (_alight_fraction b1)
          then Ok (set_pax_alight_rate None
                     (set_alight_status alight_idle
                        (set_alight_fraction (_alight_fraction b1 - 1)%Q b1)),
                   None)
          else Ok (b1, None)
      end
  | alight_idle =>
      match list_find (fun pax => destination pax = stop_id) (_paxs b) with
      | Some (_, pax) =>
          Ok (set_alight_status alighting
                (set_pax_alight_rate (alight_rate pax)
                   (set_paxs (list_remove pax_eqb pax (_paxs b)) b)),
              Some pax)
      | None => Ok (b, None)
      end
  end.

(** [Bus.check_remaining_pax_num] *)
Definition Bus_check_remaining_pax_num (stop_id : string) (b : Bus) : nat :=
  length (filter (fun pax => destination pax = stop_id) (_paxs b)).

(** [StopNodeOperation.queue_rule : Literal['FO', 'FIFO']]; berth indices
    grow downstream. *)
Inductive QueueRule : Type := FO | FIFO.

Global Instance QueueRule_eq_dec : EqDecision QueueRule.
Proof. solve_decision. Defined.

(** The two concrete stop classes. *)
Inductive StopClass : Type := Stop_Board | Stop_Board_Alight.

(** [log.StopLog]; the two epsilon tables only exist when the log was built
    with [has_schedule]. *)
Record StopLog : Type := mkStopLog {
  route_arrival_time_seq : gmap string (list Q);
  route_arrival_bus_id_seq : gmap string (list string);
  route_rtd_time_seq : gmap string (list Q);
  route_rtd_bus_id_seq : gmap string (list string);
  route_bus_epsilon_arrival : option (gmap string (gmap string Q));
  route_bus_epsilon_rtd : option (gmap string (gmap string Q))
}.

(** The seeding loops of [StopLog.__init__]: one entry per route whose
    reference trajectory visits the stop. *)
Definition seed {A} (stop_id : string) (f : Q → A)
    (reference : gmap string (gmap string Q)) : gmap string A :=
  omap (fun by_stop : gmap string Q => f <$> by_stop !! stop_id) reference.

(** [StopLog.__init__] *)
Definition StopLog_init (stop_id : string) (virtual_bus : VirtualBus)
    (has_schedule : bool) : StopLog :=
  let va := route_stop_arrival_time virtual_bus in
  let vr := route_stop_rtd_time virtual_bus in
  mkStopLog
    (seed stop_id (fun arrival_time_this_stop => [arrival_time_this_stop]) va)
    (seed stop_id (fun _ => ["0"%string]) va)
    (seed stop_id (fun rtd_time_this_stop => [rtd_time_this_stop]) vr)
    (seed stop_id (fun _ => ["0"%string]) vr)
    (if has_schedule
     then Some (seed stop_id (fun _ => ({["0"%string := 0%Q]} : gmap string Q)) va)
     else None)
    (if has_schedule
     then Some (seed stop_id (fun _ => ({["0"%string := 0%Q]} : gmap string Q)) vr)
     else None).

(** [table[route_id][bus_id] = epsilon] on a [defaultdict(dict)] *)
Definition epsilon_insert (route_id bus_id : string) (epsilon : Q)
    (table : gmap string (gmap string Q)) : gmap string (gmap string Q) :=
  <[route_id := <[bus_id := epsilon]> (default ∅ (table !! route_id))]> table.

(** [StopLog.record_when_bus_arrival(route_id, bus_id, t, **kwargs)] *)
Definition record_when_bus_arrival (route_id bus_id : string) (t0 : Z)
    (kw : option Q) (l : StopLog) : result StopLog :=
  ts ← getitem (route_arrival_time_seq l !! route_id);
  ids ← getitem (route_arrival_bus_id_seq l !! route_id);
  let times := <[route_id := ts ++ [inject_Z t0]]> (route_arrival_time_seq l) in
  let buses := <[route_id := ids ++ [bus_id]]> (route_arrival_bus_id_seq l) in
  match kw with
  | None =>
      Ok (mkStopLog times buses (route_rtd_time_seq l) (route_rtd_bus_id_seq l)
            (route_bus_epsilon_arrival l) (route_bus_epsilon_rtd l))
  | Some epsilon_arrival =>
      match route_bus_epsilon_arrival l with
      | None => Raise AttributeError
      | Some e =>
          Ok (mkStopLog times buses (route_rtd_time_seq l) (route_rtd_bus_id_seq l)
                (Some (epsilon_insert route_id bus_id epsilon_arrival e))
                (route_bus_epsilon_rtd l))
      end
  end.

(** [StopLog.record_when_bus_rtd(route_id, bus_id, t, **kwargs)] *)
Definition record_when_bus_rtd (route_id bus_id : string) (t0 : Z)
    (kw : option Q) (l : StopLog) : result StopLog :=
  ts ← getitem (route_rtd_time_seq l !! route_id);
  ids ← getitem (route_rtd_bus_id_seq l !! route_id);
  let times := <[route_id := ts ++ [inject_Z t0]]> (route_rtd_time_seq l) in
  let buses := <[route_id := ids ++ [bus_id]]> (route_rtd_bus_id_seq l) in
  match kw with
  | None =>
      Ok (mkStopLog (route_arrival_time_seq l) (route_arrival_bus_id_seq l)
            times buses (route_bus_epsilon_arrival l) (route_bus_epsilon_rtd l))
  | Some epsilon_rtd =>
      match route_bus_epsilon_rtd l with
      | None => Raise AttributeError
      | Some e =>
          Ok (mkStopLog (route_arrival_time_seq l) (route_arrival_bus_id_seq l)
                times buses (route_bus_epsilon_arrival l)
                (Some (epsilon_insert route_id bus_id epsilon_rtd e)))
      end
  end.

Module Stop.

Record t : Type := mk {
  class : StopClass;
  _stop_id : string;
  _berth_num : Z;
  _has_schedule : bool;
  _queue_rule : QueueRule;
  _entry_queue : list Bus;
  _buses_in_berth : list (option Bus);
  _leave_queue : list Bus;
  stop_log : StopLog;
  _pax_queue : PaxQueue.t
}.

(** [Stop.__init__] with [Stop_Board.__init__]; [berth_num] and the rules
    come from the stop's geometry and operation records. *)
Definition init (cls : StopClass) (stop_id : string) (berth_num : Z)
    (queue_rule : QueueRule) (board_truncation : BoardTruncation)
    (virtual_bus : VirtualBus) (has_schedule : bool) : t :=
  mk cls stop_id berth_num has_schedule queue_rule []
     (replicate (Z.to_nat berth_num) None) []
     (StopLog_init stop_id virtual_bus has_schedule)
     (PaxQueue.init stop_id board_truncation).

Definition set_entry_queue (v : list Bus) (s : t) : t :=
  let '(mk a b c d e _ g h i j) := s in mk a b c d e v g h i j.
Definition set_buses_in_berth (v : list (option Bus)) (s : t) : t :=
  let '(mk a b c d e f _ h i j) := s in mk a b c d e f v h i j.
Definition set_leave_queue (v : list Bus) (s : t) : t :=
  let '(mk a b c d e f g _ i j) := s in mk a b c d e f g v i j.
Definition set_stop_log (v : StopLog) (s : t) : t :=
  let '(mk a b c d e f g h _ j) := s in mk a b c d e f g h v j.
Definition set_pax_queue (v : PaxQueue.t) (s : t) : t :=
  let '(mk a b c d e f g h i _) := s in mk a b c d e f g h i v.

(** [Stop.pax_arrive] *)
Definition pax_arrive (paxs : list Pax) (s : t) : t :=
  set_pax_queue (foldl (fun q pax => PaxQueue.add_pax pax q) (_pax_queue s) paxs) s.

(** [Stop.enter_stop] *)
Definition enter_stop (bus : Bus) (t0 : Z) (s : t) : result t :=
  '(bus', log') ←
    (if _has_schedule s then
       ts ← getitem (route_arrival_time_seq (stop_log s) !! _route_id bus);
       let arrival_idx_count := length ts in
       '(bl, epsilon_arrival) ←
         record_when_arrival (_stop_id s) t0 (Some arrival_idx_count) (bus_log bus);
       log' ← record_when_bus_arrival (_route_id bus) (_bus_id bus) t0
                epsilon_arrival (stop_log s);
       Ok (set_bus_log bl bus, log')
     else
       '(bl, epsilon_arrival) ← record_when_arrival (_stop_id s) t0 None (bus_log bus);
       _ ← assert (is_none epsilon_arrival) "epsilon_arrival should be None";
       log' ← record_when_bus_arrival (_route_id bus) (_bus_id bus) t0 None
                (stop_log s);
       Ok (set_bus_log bl bus, log'));
  Ok (set_entry_queue (_entry_queue s ++ [set_status queueing_at_stop bus'])
        (set_stop_log log' s)).

(** The scanning loop of [_queue_rule_check_in] over the berth indices
    [range_]: a free berth becomes the target, an occupied one ends the
    scan. *)
Fixpoint check_in_loop (berths : list (option Bus)) (range_ : list nat)
    (target_berth : option nat) : option nat :=
  match range_ with
  | [] => target_berth
  | b :: rest =>
      match berths !! b with
      | Some None => check_in_loop berths rest (Some b)
      | _ => target_berth
      end
  end.

(** [Stop._queue_rule_check_in] *)
Definition _queue_rule_check_in (s : t) : option nat :=
  let berths := _buses_in_berth s in
  match _queue_rule s with
  | FO => check_in_loop berths (reverse (seq 0 (length berths))) None
  | FIFO => check_in_loop berths (seq 0 (length berths)) None
  end.

(** The loop of the [FIFO] branch of [_queue_rule_check_out] over
    [range(berth_idx + 1, berth_num)]. *)
Fixpoint check_out_loop (berths : list (option Bus)) (berth_num : Z)
    (range_ : list nat) (can_go : bool) : result bool :=
  match range_ with
  | [] => Ok can_go
  | b :: rest =>
      match berths !! b with
      | None => Raise IndexError
      | Some (Some _) => Ok can_go
      | Some None =>
          check_out_loop berths berth_num rest
            (if decide (Z.of_nat b = berth_num - 1) then true else can_go)
      end
  end.

(** [Stop._queue_rule_check_out] *)
Definition _queue_rule_check_out (berth_idx : nat) (s : t) : result bool :=
  match _queue_rule s with
  | FO => Ok true
  | FIFO =>
      if decide (Z.of_nat berth_idx = _berth_num s - 1) then Ok true
      else check_out_loop (_buses_in_berth s) (_berth_num s)
             (seq (S berth_idx) (Z.to_nat (_berth_num s - Z.of_nat (S berth_idx))))
             false
  end.

(** The closing loop of [_enter_berth] over the buses still queueing. *)
Fixpoint queueing_loop (stop_id : string) (t0 : Z) (queue : list Bus)
    : result (list Bus) :=
  match queue with
  | [] => Ok []
  | bus :: rest =>
      bus' ← update_location t0 "stop" stop_id stop_id 0%Q queueing_at_stop
               (set_bus_log (record_when_queue stop_id (bus_log bus)) bus);
      rest' ← queueing_loop stop_id t0 rest;
      Ok (bus' :: rest')
  end.

(** [Stop_Board._enter_berth] *)
Definition _enter_berth (t0 : Z) (s : t) : result t :=
  match _entry_queue s with
  | [] => Ok s
  | head_bus :: waiting =>
      let s1 :=
        match _queue_rule_check_in s with
        | Some target_berth =>
            set_entry_queue waiting
              (set_buses_in_berth
                 (<[target_berth := Some (set_status dwelling_at_stop head_bus)]>
                    (_buses_in_berth s)) s)
        | None => s
        end in
      queue' ← queueing_loop (_stop_id s1) t0 (_entry_queue s1);
      Ok (set_entry_queue queue' s1)
  end.

(** [Stop_Board._board]: the loop over the berths, by index. *)
Fixpoint board_loop (t0 : Z) (range_ : list nat) (s : t) : result t :=
  match range_ with
  | [] => Ok s
  | b :: rest =>
      match _buses_in_berth s !! b with
      | Some (Some bus_in_berth) =>
          '(q, bus1) ← PaxQueue.board bus_in_berth t0 (_pax_queue s);
          bus2 ← update_location t0 "stop" (_stop_id s) (_stop_id s) 0%Q
                   dwelling_at_stop
                   (set_bus_log (record_when_dwell (_stop_id s) (bus_log bus1)) bus1);
          board_loop t0 rest
            (set_pax_queue q
               (set_buses_in_berth (<[b := Some bus2]> (_buses_in_berth s)) s))
      | _ => board_loop t0 rest s
      end
  end.

Definition _board (t0 : Z) (s : t) : result t :=
  board_loop t0 (seq 0 (length (_buses_in_berth s))) s.

(** [Stop_Board_Alight._alight]: the loop over the berths. *)
Fixpoint alight_loop (t0 : Z) (range_ : list nat) (st : t * list Pax)
    : result (t * list Pax) :=
  match range_ with
  | [] => Ok st
  | b :: rest =>
      let '(s, leaving_paxs) := st in
      match _buses_in_berth s !! b with
      | Some (Some bus_in_berth) =>
          '(bus1, leaving_pax) ← Bus_alight (_stop_id s) bus_in_berth;
          bus2 ← update_location t0 "stop" (_stop_id s) (_stop_id s) 0%Q
                   dwelling_at_stop bus1;
          alight_loop t0 rest
            (set_buses_in_berth (<[b := Some bus2]> (_buses_in_berth s)) s,
             match leaving_pax with
             | Some pax => leaving_paxs ++ [set_alight_time (Some t0) pax]
             | None => leaving_paxs
             end)
      | _ => alight_loop t0 rest st
      end
  end.

(** [_alight]: nothing at a boarding-only stop. *)
Definition _alight (t0 : Z) (s : t) : result (t * list Pax) :=
  match class s with
  | Stop_Board => Ok (s, [])
  | Stop_Board_Alight => alight_loop t0 (seq 0 (length (_buses_in_berth s))) (s, [])
  end.

(** Whether a dwelling bus has nothing left to do at the stop. *)
Definition served (bus_in_berth : Bus) (s : t) : result bool :=
  remaining_pax_num_at_stop ← PaxQueue.check_remaining_pax_num bus_in_berth (_pax_queue s);
  match class s with
  | Stop_Board => Ok (bool_decide (remaining_pax_num_at_stop = 0%nat))
  | Stop_Board_Alight =>
      let remaining_pax_num_at_bus :=
        Bus_check_remaining_pax_num (_stop_id s) bus_in_berth in
      Ok (bool_decide (remaining_pax_num_at_stop = 0%nat) &&
          bool_decide (remaining_pax_num_at_bus = 0%nat))
  end.

(** [_check_leave]: the loop over [enumerate(self._buses_in_berth)]. *)
Fixpoint check_leave_loop (range_ : list nat) (s : t) : result t :=
  match range_ with
  | [] => Ok s
  | berth_idx :: rest =>
      match _buses_in_berth s !! berth_idx with
      | Some (Some bus_in_berth) =>
          done ← served bus_in_berth s;
          if done : bool then
            can_go ← _queue_rule_check_out berth_idx s;
            if can_go : bool then
              check_leave_loop rest
                (set_leave_queue (_leave_queue s ++ [bus_in_berth])
                   (set_buses_in_berth (<[berth_idx := None]> (_buses_in_berth s)) s))
            else check_leave_loop rest s
          else check_leave_loop rest s
      | _ => check_leave_loop rest s
      end
  end.

Definition _check_leave (t0 : Z) (s : t) : result t :=
  check_leave_loop (seq 0 (length (_buses_in_berth s))) s.

(** The body of the loop of [_leave] for one bus: the ready-to-depart
    bookkeeping. *)
Definition record_rtd (t0 : Z) (bus : Bus) (s : t) : result (Bus * StopLog) :=
  if _has_schedule s then
    ids ← getitem (route_rtd_bus_id_seq (stop_log s) !! _route_id bus);
    let rtd_idx_count := length ids in
    '(bl, epsilon_rtd) ←
      record_when_rtd (_stop_id s) t0 (Some rtd_idx_count) (bus_log bus);
    log' ← record_when_bus_rtd (_route_id bus) (_bus_id bus) t0 epsilon_rtd (stop_log s);
    Ok (set_bus_log bl bus, log')
  else
    '(bl, epsilon_rtd) ← record_when_rtd (_stop_id s) t0 None (bus_log bus);
    _ ← assert (is_none epsilon_rtd) "epsilon_rtd should be None";
    log' ← record_when_bus_rtd (_route_id bus) (_bus_id bus) t0 None (stop_log s);
    Ok (set_bus_log bl bus, log').

(** [_leave]: [for bus in self._leave_queue] advances an index into the
    list while the body removes the bus it has just handled, so the index
    then points past the next bus. [fuel] bounds the number of turns; the
    length of the queue is enough. *)
Fixpoint leave_loop (fuel : nat) (t0 : Z) (i : nat) (st : t * list Bus)
    : result (t * list Bus) :=
  match fuel with
  | O => Ok st
  | S fuel' =>
      let '(s, leaving_buses) := st in
      match _leave_queue s !! i with
      | None => Ok st
      | Some bus =>
          '(bus', log') ← record_rtd t0 bus s;
          leave_loop fuel' t0 (S i)
            (set_leave_queue (delete i (_leave_queue s)) (set_stop_log log' s),
             leaving_buses ++ [bus'])
      end
  end.

Definition _leave (t0 : Z) (s : t) : result (t * list Bus) :=
  leave_loop (length (_leave_queue s)) t0 0 (s, []).

(** [Stop.operation] *)
Definition operation (t0 : Z) (s : t) : result (t * list Bus * list Pax) :=
  s1 ← _enter_berth t0 s;
  s2 ← _board t0 s1;
  '(s3, leaving_paxs) ← _alight t0 s2;
  s4 ← _check_leave t0 s3;
  '(s5, leaving_buses) ← _leave t0 s4;
  Ok (set_pax_queue (PaxQueue.accumulate_out_vehicle_delay (_pax_queue s5)) s5,
      leaving_buses, leaving_paxs).

(** A berth index that holds no bus. *)
Definition free (berths : list (option Bus)) (i : nat) : Prop :=
  berths !! i = Some None.

(** The admission targets as the specification words them: the
    most-downstream free berth (the free berth of largest index) and the
    most-upstream free berth (the free berth of smallest index). *)
Definition free_berths (berths : list (option Bus)) : list nat :=
  (filter (fun ib : nat * option Bus => ib.2 = None) (imap pair berths)).*1.
Definition most_downstream_free (berths : list (option Bus)) : option nat :=
  last (free_berths berths).
Definition most_upstream_free (berths : list (option Bus)) : option nat :=
  head (free_berths berths).

(** What [_check_leave] never writes. *)
Definition check_leave_keeps (s s' : t) : Prop :=
  class s' = class s ∧ _stop_id s' = _stop_id s ∧ _berth_num s' = _berth_num s ∧
  _has_schedule s' = _has_schedule s ∧ _queue_rule s' = _queue_rule s ∧
  _entry_queue s' = _entry_queue s ∧ stop_log s' = stop_log s ∧
  _pax_queue s' = _pax_queue s ∧
  length (_buses_in_berth s') = length (_buses_in_berth s).

(** A bus that is still the same bus, in the same state of service. *)
Definition same_bus (b b' : Bus) : Prop :=
  _bus_id b' = _bus_id b ∧ _route_id b' = _route_id b ∧ _status b' = _status b.

(** [Stop.get_total_buses]: the buses queueing and the buses in a berth. *)
Definition get_total_buses (s : t) : list Bus :=
  _entry_queue s ++ omap id (_buses_in_berth s).

(** What identifies a bus in the system: route id and bus id. *)
Definition ident (b : Bus) : string * string := (_route_id b, _bus_id b).

(** Every bus present at the stop: those [get_total_buses] reports and
    those waiting in the leave queue. *)
Definition census (s : t) : list (string * string) :=
  ident <$> (get_total_buses s ++ _leave_queue s).

(** The elements at positions 0, 2, 4, ... of a list. *)
Fixpoint every_other {A} (l : list A) : list A :=
  match l with
  | [] => []
  | x :: rest =>
      x :: match rest with
           | [] => []
           | _ :: rest' => every_other rest'
           end
  end.

(** A bus that has left the stop's berth at tick [t0]: the same bus, with
    [t0] as its ready-to-depart time at the stop. *)
Definition ready_to_depart (stop_id : string) (t0 : Z) (b b' : Bus) : Prop :=
  ident b' = ident b ∧ stop_rtd_time (bus_log b') !! stop_id = Some t0.

(** At most the berth [target] holds a bus. *)
Definition lone (berths : list (option Bus)) (target : nat) : Prop :=
  ∀ i b, berths !! i = Some (Some b) → i = target.

(** A bus that has spent one more tick in the entry queue of the stop. *)
Definition queued_one_tick (stop_id : string) (b b' : Bus) : Prop :=
  ident b' = ident b ∧ _status b' = _status b ∧
  stop_queueing_delay (bus_log b') !! stop_id =
    Some (default 0 (stop_queueing_delay (bus_log b) !! stop_id) + 1).

(** The buses of the entry queue that a tick does not admit. *)
Definition kept_waiting (s : t) : list Bus :=
  match _entry_queue s, _queue_rule_check_in s with
  | _ :: waiting, Some _ => waiting
  | queue, _ => queue
  end.

(** The buses of route [r] among [buses]. *)
Definition of_route (r : string) (buses : list Bus) : list Bus :=
  filter (fun b => _route_id b = r) buses.

(** [stop_log.route_bus_epsilon_rtd[route_id][bus_id]] for the ids of
    [b], when the table exists and has the entry. *)
Definition epsilon_rtd_of (sl : StopLog) (b : Bus) : option Q :=
  e ← route_bus_epsilon_rtd sl;
  by_bus ← e !! _route_id b;
  by_bus !! _bus_id b.

(** The ready-to-depart bookkeeping of the [j]-th bus that a call of
    [_leave] at tick [t0] handles, [handled] being the buses it handles in
    order, [s] and [s'] the stop before and after, [b'] the bus returned.
    [count] is what [len(route_rtd_bus_id_seq[route_id])] reads when the
    bus is handled: the sequence before the call and one more for every
    bus of the route handled earlier in the call. The stop's epsilon table
    keeps the value unless a later bus of the call has the same ids. *)
Definition rtd_recorded (t0 : Z) (s s' : t) (handled : list Bus) (j : nat)
    (b' : Bus) : Prop :=
  ∃ b ids vr,
    handled !! j = Some b ∧ ident b' = ident b ∧
    route_rtd_bus_id_seq (stop_log s) !! _route_id b = Some ids ∧
    virtual_bus_stop_rtd_time (bus_log b) !! _stop_id s = Some vr ∧
    let count := (length ids + length (of_route (_route_id b) (take j handled)))%nat in
    let epsilon_rtd := epsilon_of t0 vr (log_schedule_headway (bus_log b)) count in
    stop_epsilon_rtd (bus_log b') !! _stop_id s = Some epsilon_rtd ∧
    (∃ ids', route_rtd_bus_id_seq (stop_log s') !! _route_id b = Some ids' ∧
             ids' !! count = Some (_bus_id b)) ∧
    ((∀ j' x, (j < j')%nat → handled !! j' = Some x → ident x ≠ ident b) →
     epsilon_rtd_of (stop_log s') b = Some epsilon_rtd).

(** The bus a tick admits to a berth, if any: the head of the entry queue
    when the queue rule finds a target berth. *)
Definition admitted (s : t) : list Bus :=
  match _entry_queue s, _queue_rule_check_in s with
  | head_bus :: _, Some _ => [head_bus]
  | _, _ => []
  end.

(** The buses of the stop that are past the entry queue: in a berth or in
    the leave queue. *)
Definition past_queue (s : t) : list Bus :=
  omap id (_buses_in_berth s) ++ _leave_queue s.

(** A bus with the queueing delays on its running log. *)
Definition charge (b : Bus) : string * string * gmap string Z :=
  (ident b, stop_queueing_delay (bus_log b)).

End Stop.

(** ** Links *)

(** [max(a, b)] on floats: [b] when it is larger, else [a]. *)
Definition py_max (a b : Q) : Q := if Qlt_bool a b then b else a.

(** [a / b] on floats *)
Definition py_div (a b : Q) : result Q :=
  if Qeq_bool b 0 then Raise ZeroDivisionError else Ok (a / b)%Q.

Module Link.

(** [link.DistributionLink]. The frozen normal distribution
    [_tt_distribution] only exists for [tt_type == "normal"]; a draw from
    it is an input of [enter_bus]. *)
Record t : Type := mk {
  _link_id : string;
  _head_node : string;
  _tail_node : string;
  _length : Q;
  _buses : list Bus;
  _bus_link_loc : gmap (string * string) Q;
  _tt_mean : Q;
  _tt_cv : Q;
  _tt_type : string
}.

(** [DistributionLink.__init__] *)
Definition init (link_id head_node tail_node : string) (length : Q)
    (tt_mean tt_cv : Q) (tt_type : string) : t :=
  mk link_id head_node tail_node length [] ∅ tt_mean tt_cv tt_type.

(** The travel time the link works with: [max(10, sampled_tt)]. *)
Definition effective_travel_time (sampled_tt : Q) : Q := py_max 10 sampled_tt.

(** [DistributionLink.enter_bus], for the draw [sampled_tt]. *)
Definition enter_bus (sampled_tt : Q) (bus : Bus) (t0 : Z) (l : t) : result t :=
  if decide (_tt_type l = "normal"%string) then
    let sampled_tt := effective_travel_time sampled_tt in
    let bus1 :=
      set_bus_log (record_when_enter_link (_link_id l) (sampled_tt - _tt_mean l)%Q
                     (bus_log bus)) bus in
    bus_speed ← py_div (_length l) sampled_tt;
    let bus2 := set_speed bus_speed bus1 in
    bus3 ← update_location t0 "link" (_link_id l) (_head_node l) 0%Q
             running_on_link bus2;
    Ok (mk (_link_id l) (_head_node l) (_tail_node l) (_length l)
           (_buses l ++ [set_status running_on_link bus3])
           (<[(_route_id bus, _bus_id bus) := 0%Q]> (_bus_link_loc l))
           (_tt_mean l) (_tt_cv l) (_tt_type l))
  else Raise AttributeError.

Definition set_buses (v : list Bus) (locs : gmap (string * string) Q) (l : t) : t :=
  mk (_link_id l) (_head_node l) (_tail_node l) (_length l) v locs
     (_tt_mean l) (_tt_cv l) (_tt_type l).

(** The loop of [DistributionLink.forward]. [for bus in self._buses]
    advances an index into the list while the body removes a bus that has
    reached the end of the link, so the index then points past the next
    bus. A bus that stays is the same object, moved one step. [fuel] bounds
    the number of turns; the length of the list is enough. *)
Fixpoint forward_loop (fuel : nat) (t0 : Z) (i : nat) (st : t * list Bus)
    : result (t * list Bus) :=
  match fuel with
  | O => Ok st
  | S fuel' =>
      let '(l, finished_buses) := st in
      match _buses l !! i with
      | None => Ok st
      | Some bus =>
          let k := (_route_id bus, _bus_id bus) in
          loc ← getitem (_bus_link_loc l !! k);
          let offset := (loc + speed bus * 1)%Q in
          let locs := <[k := offset]> (_bus_link_loc l) in
          bus1 ← update_location t0 "link" (_link_id l) (_head_node l) offset
                   running_on_link bus;
          let bus2 := set_status running_on_link bus1 in
          if Qle_bool (_length l) offset then
            forward_loop fuel' t0 (S i)
              (set_buses (delete i (_buses l)) (delete k locs) l,
               finished_buses ++ [bus2])
          else
            forward_loop fuel' t0 (S i)
              (set_buses (<[i := bus2]> (_buses l)) locs l, finished_buses)
      end
  end.

(** [DistributionLink.forward] *)
Definition forward (t0 : Z) (l : t) : result (t * list Bus) :=
  forward_loop (length (_buses l)) t0 0 (l, []).


(** What identifies a bus on the link: the key of [_bus_link_loc]. *)
Definition ident (b : Bus) : string * string := (_route_id b, _bus_id b).

(** A bus [forward] has returned: the bus [b] of the link, running, at or
    beyond the end of the link. *)
Definition arrived_from (l : t) (b b' : Bus) : Prop :=
  ident b' = ident b ∧ _status b' = running_on_link ∧
  ∃ d, _node_distance b' !! _head_node l = Some d ∧
       (d + _length l <= loc_relative_to_terminal b')%Q.

End Link.

(** ** The reference trajectory *)

(** The parts of [setup.blueprint.Blueprint] the reference trajectory
    reads: the routes ([route_schema.route_details_by_id], in the order of
    its items), the map [_route_node_to_link] behind [get_next_link_id], and
    the mean travel time of each link
    ([network.link_distribution[link_id].tt_mean]). *)
Record Blueprint : Type := mkBlueprint {
  route_details_by_id : list (string * Route_Details);
  _route_node_to_link : gmap string (gmap string string);
  link_tt_mean : gmap string Q
}.

(** [zip(l[:-1], l[1:])] *)
Definition py_pairs {A} (l : list A) : list (A * A) :=
  zip (take (length l - 1) l) (drop 1 l).

Module Trajectory.

(** [Blueprint.get_next_link_id] *)
Definition get_next_link_id (bp : Blueprint) (route_id curr_node_id : string)
    : result string :=
  by_node ← getitem (_route_node_to_link bp !! route_id);
  getitem (by_node !! curr_node_id).

(** [table[route_id][node_id] = t] on a [defaultdict(dict)] *)
Definition record (route_id node_id : string) (t : Q)
    (table : gmap string (gmap string Q)) : gmap string (gmap string Q) :=
  <[route_id := <[node_id := t]> (default ∅ (table !! route_id))]> table.

(** [table[route_id][node_id]] on a plain dict of plain dicts *)
Definition lookup2 (table : gmap string (gmap string Q))
    (route_id node_id : string) : result Q :=
  by_node ← getitem (table !! route_id);
  getitem (by_node !! node_id).

Definition set_arrival (route_id node_id : string) (t : Q) (vb : VirtualBus)
    : VirtualBus :=
  mkVirtualBus (record route_id node_id t (route_stop_arrival_time vb))
    (route_stop_rtd_time vb) (route_stop_departure_time vb).
Definition set_rtd (route_id node_id : string) (t : Q) (vb : VirtualBus)
    : VirtualBus :=
  mkVirtualBus (route_stop_arrival_time vb)
    (record route_id node_id t (route_stop_rtd_time vb))
    (route_stop_departure_time vb).
Definition set_departure (route_id node_id : string) (t : Q) (vb : VirtualBus)
    : VirtualBus :=
  mkVirtualBus (route_stop_arrival_time vb) (route_stop_rtd_time vb)
    (record route_id node_id t (route_stop_departure_time vb)).

(** The inner loop of [VirtualBus.update_trajectory] over the consecutive
    nodes of a route; the state is the clock [t] and the three tables.
    [arrival_rate] is the attribute [_route_stop_arrival_rate], which only
    exists once [initialize_with_perfect_schedule] has run. *)
Fixpoint node_loop (bp : Blueprint) (route_id : string) (route : Route_Details)
    (arrival_rate : option (gmap string (gmap string Q)))
    (route_stop_average_hold_time : gmap string (gmap string Q))
    (pairs : list (string * string)) (st : Q * VirtualBus)
    : result (Q * VirtualBus) :=
  match pairs with
  | [] => Ok st
  | (head_node, tail_node) :: rest =>
      let '(t, vb) := st in
      link_id ← get_next_link_id bp route_id head_node;
      link_time ← getitem (link_tt_mean bp !! link_id);
      let t := (t + link_time)%Q in
      let vb := set_arrival route_id tail_node t vb in
      rates ← match arrival_rate with
              | Some rates => Ok rates
              | None => Raise AttributeError
              end;
      arrival_rate_here ← lookup2 rates route_id tail_node;
      board_rate ← getitem (boarding_rate route !! tail_node);
      ratio ← py_div arrival_rate_here board_rate;
      let boarding_time := (ratio * schedule_headway route)%Q in
      let t := (t + boarding_time)%Q in
      let vb := set_rtd route_id tail_node t vb in
      hold_time ← lookup2 route_stop_average_hold_time route_id tail_node;
      let t := (t + hold_time)%Q in
      let vb := set_departure route_id tail_node t vb in
      node_loop bp route_id route arrival_rate route_stop_average_hold_time
        rest (t, vb)
  end.

(** The body of the outer loop of [update_trajectory] for one route. *)
Definition update_route (bp : Blueprint)
    (arrival_rate : option (gmap string (gmap string Q)))
    (route_stop_average_hold_time : gmap string (gmap string Q))
    (item : string * Route_Details) (vb : VirtualBus) : result VirtualBus :=
  let '(route_id, route) := item in
  let visit_seq_nodes := terminal_id route :: visit_seq_stops route in
  let vb :=
    set_departure route_id (terminal_id route) 0%Q
      (set_rtd route_id (terminal_id route) 0%Q
         (set_arrival route_id (terminal_id route) 0%Q vb)) in
  '(_, vb') ← node_loop bp route_id route arrival_rate
                route_stop_average_hold_time (py_pairs visit_seq_nodes) (0%Q, vb);
  Ok vb'.

Fixpoint route_loop (bp : Blueprint)
    (arrival_rate : option (gmap string (gmap string Q)))
    (route_stop_average_hold_time : gmap string (gmap string Q))
    (items : list (string * Route_Details)) (vb : VirtualBus) : result VirtualBus :=
  match items with
  | [] => Ok vb
  | item :: rest =>
      vb' ← update_route bp arrival_rate route_stop_average_hold_time item vb;
      route_loop bp arrival_rate route_stop_average_hold_time rest vb'
  end.

(** [VirtualBus.update_trajectory], on the tables as [__init__] makes them
    ([defaultdict(dict)]). *)
Definition update_trajectory (bp : Blueprint)
    (arrival_rate : option (gmap string (gmap string Q)))
    (route_stop_average_hold_time : gmap string (gmap string Q))
    (vb : VirtualBus) : result VirtualBus :=
  route_loop bp arrival_rate route_stop_average_hold_time
    (route_details_by_id bp) vb.

(** [VirtualBus._initialize_average_hold_time] *)
Definition _initialize_average_hold_time (bp : Blueprint) (slack : Q)
    : gmap string (gmap string Q) :=
  foldl (fun table (item : string * Route_Details) =>
           foldl (fun table stop_id => record item.1 stop_id slack table)
                 table (visit_seq_stops item.2))
        ∅ (route_details_by_id bp).

(** [VirtualBus.initialize_with_perfect_schedule], from the tables of
    [__init__]. *)
Definition initialize_with_perfect_schedule (bp : Blueprint)
    (route_stop_arrival_rate : gmap string (gmap string Q)) (slack : Q)
    : result VirtualBus :=
  update_trajectory bp (Some route_stop_arrival_rate)
    (_initialize_average_hold_time bp slack) (mkVirtualBus ∅ ∅ ∅).

(** The reference times of one node of a route. *)
Definition times_at (vb : VirtualBus) (route_id node_id : string)
    : option Q * option Q * option Q :=
  (default ∅ (route_stop_arrival_time vb !! route_id) !! node_id,
   default ∅ (route_stop_rtd_time vb !! route_id) !! node_id,
   default ∅ (route_stop_departure_time vb !! route_id) !! node_id).

(** What [update_trajectory] leaves in the tables of route [route_id] for
    two consecutive nodes [a], [b]: the bus reaches [b] one mean link travel
    time after it departed from [a], is ready to depart after the boarding
    time [arrival_rate / board_rate * H], and departs after the hold time. *)
Definition follows (bp : Blueprint) (route_id : string) (route : Route_Details)
    (rates hold : gmap string (gmap string Q)) (vb : VirtualBus) (a b : string)
    : Prop :=
  ∃ departed link_id link_time rate board_rate hold_time,
    (times_at vb route_id a).2 = Some departed ∧
    get_next_link_id bp route_id a = Ok link_id ∧
    link_tt_mean bp !! link_id = Some link_time ∧
    lookup2 rates route_id b = Ok rate ∧
    boarding_rate route !! b = Some board_rate ∧ ¬ (board_rate == 0)%Q ∧
    lookup2 hold route_id b = Ok hold_time ∧
    let arrival := (departed + link_time)%Q in
    let rtd := (arrival + rate / board_rate * schedule_headway route)%Q in
    times_at vb route_id b = (Some arrival, Some rtd, Some (rtd + hold_time)%Q).

End Trajectory.

(** ** Mediator *)

Definition set_end_time (v : option Z) (l : BusRunningLog) : BusRunningLog :=
  let '(mkBusLog a b c d e _ g h i j k m n o p q) := l in
  mkBusLog a b c d e v g h i j k m n o p q.

(** [BusRunningLog.record_when_finish] *)
Definition record_when_finish (t : Z) (l : BusRunningLog) : BusRunningLog :=
  set_end_time (Some t) l.

Module Mediator.

(** [mediator.Mediator]: the components it moves buses between. Of the
    blueprint, [transfer] reads the map behind [get_next_link_id], the map
    [_route_link_to_node] behind [get_next_node_id] and
    [route_schema.end_terminal]. *)
Record t : Type := mk {
  _blueprint : Blueprint;
  _route_link_to_node : gmap string (gmap string string);
  end_terminal : gmap string string;
  _terminals : gmap string Terminal.t;
  _links : gmap string Link.t;
  _stops : gmap string Stop.t;
  _holder : Holder.t
}.

Definition set_links (v : gmap string Link.t) (m : t) : t :=
  mk (_blueprint m) (_route_link_to_node m) (end_terminal m) (_terminals m) v
     (_stops m) (_holder m).
Definition set_stops (v : gmap string Stop.t) (m : t) : t :=
  mk (_blueprint m) (_route_link_to_node m) (end_terminal m) (_terminals m)
     (_links m) v (_holder m).
Definition set_holder (v : Holder.t) (m : t) : t :=
  mk (_blueprint m) (_route_link_to_node m) (end_terminal m) (_terminals m)
     (_links m) (_stops m) v.

(** [Blueprint.get_next_node_id] *)
Definition get_next_node_id (m : t) (route_id curr_link_id : string)
    : result (string * bool) :=
  by_link ← getitem (_route_link_to_node m !! route_id);
  next_node_id ← getitem (by_link !! curr_link_id);
  end_id ← getitem (end_terminal m !! route_id);
  Ok (next_node_id, bool_decide (next_node_id = end_id)).

(** [next_link_id = self._blueprint.get_next_link_id(bus.route_id, spot_id)]
    followed by [self._links[next_link_id].enter_bus(bus, t)], for the draw
    [sampled_tt] of the link's travel time. *)
Definition enter_next_link (sampled_tt : Q) (bus : Bus) (spot_id : string)
    (t0 : Z) (m : t) : result t :=
  next_link_id ← Trajectory.get_next_link_id (_blueprint m) (_route_id bus) spot_id;
  link ← getitem (_links m !! next_link_id);
  link' ← Link.enter_bus sampled_tt bus t0 link;
  Ok (set_links (<[next_link_id := link']> (_links m)) m).

(** [Terminal.recycle] followed by [bus.bus_log.record_when_finish(t)] *)
Definition recycle (t0 : Z) (bus : Bus) : Bus :=
  let bus1 := set_status finished bus in
  set_bus_log (record_when_finish t0 (bus_log bus1)) bus1.

(** The body of the loop of [Mediator.transfer] for one bus. The state is
    the mediator's components and the buses handed to an ending terminal,
    as [recycle] and [record_when_finish] leave them: no component keeps
    them. A departure from a terminal is logged in the holder's log with
    the constant [epsilon_departure=0]. *)
Definition transfer_bus (sampled_tt : Q) (spot_type spot_id : string) (t0 : Z)
    (bus : Bus) (st : t * list Bus) : result (t * list Bus) :=
  let '(m, recycled) := st in
  if decide (spot_type = "terminal"%string) then
    m1 ← enter_next_link sampled_tt bus spot_id t0 m;
    let h := _holder m1 in
    hl ← record_when_bus_departure spot_id (_route_id bus) (_bus_id bus) t0
           (if Holder._has_schedule h then Some 0%Q else None)
           (Holder.holder_log h);
    Ok (set_holder
          (Holder.mk (Holder._identifier_bus h) (Holder._identifier_time h) hl
             (Holder._has_schedule h)) m1,
        recycled)
  else if decide (spot_type = "link"%string) then
    '(next_node_id, is_ending_terminal) ←
      get_next_node_id m (_route_id bus) spot_id;
    if is_ending_terminal : bool then
      _ ← getitem (_terminals m !! next_node_id);
      Ok (m, recycled ++ [recycle t0 bus])
    else
      stop ← getitem (_stops m !! next_node_id);
      stop' ← Stop.enter_stop bus t0 stop;
      Ok (set_stops (<[next_node_id := stop']> (_stops m)) m, recycled)
  else if decide (spot_type = "stop"%string) then
    if bool_decide (spot_id ∈ _hold_stops bus) then
      h' ← Holder.add_bus spot_id bus t0 (_holder m);
      Ok (set_holder h' m, recycled)
    else
      m1 ← enter_next_link sampled_tt bus spot_id t0 m;
      Ok (m1, recycled)
  else if decide (spot_type = "holder"%string) then
    m1 ← enter_next_link sampled_tt bus spot_id t0 m;
    Ok (m1, recycled)
  else Ok st.

(** The loop of [transfer]; [sampled_tt i] is the travel time drawn for the
    [i]-th bus of the list, should it enter a link. *)
Fixpoint transfer_loop (sampled_tt : nat → Q) (spot_type spot_id : string)
    (t0 : Z) (i : nat) (buses : list Bus) (st : t * list Bus)
    : result (t * list Bus) :=
  match buses with
  | [] => Ok st
  | bus :: rest =>
      st' ← transfer_bus (sampled_tt i) spot_type spot_id t0 bus st;
      transfer_loop sampled_tt spot_type spot_id t0 (S i) rest st'
  end.

(** [Mediator.transfer] *)
Definition transfer (sampled_tt : nat → Q) (buses : list Bus)
    (spot_type spot_id : string) (t0 : Z) (m : t) : result (t * list Bus) :=
  transfer_loop sampled_tt spot_type spot_id t0 0 buses (m, []).

End Mediator.

(** ** Passenger generation *)

(** [min(a, b)] on floats: [b] when it is smaller, else [a]. *)
Definition py_min (a b : Q) : Q := if Qlt_bool b a then b else a.


Module PaxGenerator.






(** [PaxGenerator._get_board_rate]: [pax_board_time_type] and
    [pax_board_time_mean] are the generator's configuration, [sample] is
    the draw from [_board_time_distribution], which only exists for the
    type ["normal"]. *)
Definition _get_board_rate (pax_board_time_type : string)
    (pax_board_time_mean : Q) (sample : Q) : result Q :=
  if decide (pax_board_time_type = "deterministic"%string) then
    py_div 1 pax_board_time_mean
  else if decide (pax_board_time_type = "normal"%string) then
    let sampled_time := py_max (1 # 10) sample in
    let sampled_time := py_min 10 sampled_time in
    py_div 1 sampled_time
  else Raise AttributeError.

End PaxGenerator.

(** ** A small corridor used to run the definitions

    One route ["r"] from terminal ["T"] over stop ["s1"] to ["E"], headway
    300 s, reference times 0 / 60 / 60 / 65 at the stop. *)

Definition ok_or {A} (d : A) (r : result A) : A :=
  match r with
  | Ok a => a
  | Raise _ => d
  end.

Module Demo.

Definition times (at_stop : Q) : gmap string (gmap string Q) :=
  {[ "r"%string := {[ "T"%string := 0%Q; "s1"%string := at_stop ]} ]}.

Definition vb : VirtualBus := mkVirtualBus (times 60) (times 60) (times 65).

Definition route : Route_Details :=
  mkRoute "r" "T" ["s1"%string] "E" ∅ 300%Q 0%Q ∅ 50 ["s1"%string].

Definition node_distance : gmap string Q :=
  {[ "T"%string := 0%Q; "s1"%string := 500%Q; "E"%string := 1000%Q ]}.

Definition new_bus (bus_id : string) : Bus :=
  mkBus bus_id "r" 50 node_distance running_on_link idle alight_idle [] 0%Q
        None 0%Q None ∅ true ["s1"%string]
        (BusRunningLog_init 300%Q {[ "T"%string := 0%Q; "s1"%string := 60%Q ]}
           {[ "T"%string := 0%Q; "s1"%string := 60%Q ]}
           {[ "T"%string := 0%Q; "s1"%string := 65%Q ]}) 0%Q 0%Q.

Definition k1 : Holder.key := ("s1"%string, "r"%string, "1"%string).
Definition k2 : Holder.key := ("s1"%string, "r"%string, "2"%string).
Definition k3 : Holder.key := ("s1"%string, "r"%string, "3"%string).

(** An empty holder, then bus 1 handed over at tick 370. *)
Definition holder0 : Holder.t := Holder.init vb true.
Definition holder1 : Holder.t :=
  ok_or holder0 (Holder.add_bus "s1" (new_bus "1") 370 holder0).

(** The tick of the hand-over, then a hold of 2 s for bus 1. *)
Definition evs0 : list Holder.event := [Holder.EvOperation 370].
Definition holder2 : Holder.t := ok_or holder0 (Holder.run evs0 holder1).
Definition action1 : list (Holder.key * Q) := [(k1, 2%Q)].
Definition holder3 : Holder.t :=
  ok_or holder0 (Holder.set_hold_action action1 holder2).

(** Bus 2 and bus 3 arrive while bus 1 is held; bus 2 gets 5/2 s. *)
Definition evs1 : list Holder.event :=
  [Holder.EvOperation 371; Holder.EvAddBus "s1" (new_bus "2") 371;
   Holder.EvAddBus "s1" (new_bus "3") 371;
   Holder.EvSetHoldAction [(k2, 5 # 2)]].
Definition holder4 : Holder.t := ok_or holder0 (Holder.run evs1 holder3).
Definition action2 : list (Holder.key * Q) := [(k3, 0%Q); (k1, 5%Q)].

(** The next tick releases bus 1. *)
Definition tick : Holder.t * OD.odict string (list Bus) :=
  ok_or (holder0, []) (Holder.operation 372 holder4).

(** The terminal of the corridor, and one whose route has the fractional
    headway 218.2 s of route B21 of the Guangzhou data. *)
Definition terminal : Terminal.t :=
  Terminal.init "T" [route] {[ "r"%string := node_distance ]} vb (0%Q, 100000%Q).
Definition route_b21 : Route_Details :=
  mkRoute "r" "T" ["s1"%string] "E" ∅ (1091 # 5) 0%Q ∅ 50 ["s1"%string].
Definition terminal_b21 : Terminal.t :=
  Terminal.init "T" [route_b21] {[ "r"%string := node_distance ]} vb (0%Q, 100000%Q).

(** Two stops of two berths, both empty, one per queue rule. *)
Definition stop_fo : Stop.t := Stop.init Stop_Board "s1" 2 FO rtd vb true.
Definition stop_fifo : Stop.t := Stop.init Stop_Board "s1" 2 FIFO rtd vb true.

(** The FIFO stop with bus 1 and bus 2 arrived one tick apart, and its
    next tick. *)
Definition stop_queued : Stop.t :=
  ok_or stop_fifo
    (Stop.enter_stop (new_bus "1") 380 stop_fifo ≫= Stop.enter_stop (new_bus "2") 381).
Definition stop_tick : Stop.t * list Bus * list Pax :=
  ok_or (stop_fifo, [], []) (Stop.operation 381 stop_queued).

(** The FIFO stop with bus 1 dwelling in the upstream berth. *)
Definition stop_dwelling : Stop.t :=
  Stop.set_buses_in_berth [Some (new_bus "1"); None] stop_fifo.

(** A queue under the [arrival] rule with a passenger who came at tick 100
    ahead of one who came at tick 50, and a bus that arrived at tick 80. *)
Definition pax (id : string) (arrived : Z) : Pax :=
  mkPax id "s1" "E" ["r"%string] arrived (1 # 4) None None None 0 0.
Definition queue_arrival : PaxQueue.t :=
  PaxQueue.add_pax (pax "b" 50)
    (PaxQueue.add_pax (pax "a" 100) (PaxQueue.init "s1" arrival)).
Definition bus_arrived : Bus :=
  set_bus_log (set_stop_arrival_time {[ "s1"%string := 80 ]} (bus_log (new_bus "1")))
    (new_bus "1").
Definition boarded : PaxQueue.t * Bus :=
  ok_or (queue_arrival, bus_arrived) (PaxQueue.board bus_arrived 400 queue_arrival).

(** The first link of the corridor, 500 m, mean travel time 60 s. *)
Definition link : Link.t := Link.init "0" "T" "s1" 500%Q 60%Q (1 # 10) "normal".

(** The calls that lead from the empty holder to [holder4]. *)
Definition history : list Holder.event :=
  Holder.EvAddBus "s1" (new_bus "1") 370 ::
    evs0 ++ Holder.EvSetHoldAction action1 :: evs1.

(** Bus 1 alone in the holder with its hold of 2 s: one tick, then the
    tick that releases it. *)
Definition held_once : Holder.t :=
  ok_or holder0 (Holder.run (Holder.ticks 371 1) holder3).
Definition release : Holder.t * OD.odict string (list Bus) :=
  ok_or (holder0, []) (Holder.operation 372 held_once).

(** The FO stop with bus 1 and bus 2 both in the leave queue, and what
    [_leave] makes of it. *)
Definition stop_leaving : Stop.t :=
  Stop.set_leave_queue [new_bus "1"; new_bus "2"] stop_fo.
Definition left : Stop.t * list Bus :=
  ok_or (stop_fo, []) (Stop._leave 400 stop_leaving).

(** The bus that took a passenger, letting passengers off at ["E"]. *)
Definition alighted : Bus * option Pax :=
  ok_or (boarded.2, None) (Bus_alight "E" boarded.2).

(** A terminal whose route has a headway of half a second. *)
Definition route_fast : Route_Details :=
  mkRoute "f" "T" ["s1"%string] "E" ∅ (1 # 2) 0%Q ∅ 50 ["s1"%string].
Definition terminal_fast : Terminal.t :=
  Terminal.init "T" [route; route_fast] {[ "r"%string := node_distance ]} vb
    (0%Q, 100000%Q).


(** Bus 1 ten metres before the end of the link at 50 m/s with bus 2
    listed behind it at the head of the link, and the call of [forward]
    that follows. *)
Definition bus_near_end : Bus := set_speed 50%Q (new_bus "1").
Definition bus_behind : Bus := set_speed 40%Q (new_bus "2").
Definition link_two : Link.t :=
  Link.set_buses [bus_near_end; bus_behind]
    {[ Link.ident bus_near_end := 490%Q; Link.ident bus_behind := 0%Q ]} link.
Definition link_two_done : Link.t * list Bus :=
  ok_or (link, []) (Link.forward 11 link_two).

(** Bus 1 entering the empty FIFO stop at tick 380, and the tick of the
    stop at that tick. *)
Definition stop_entered : Stop.t :=
  ok_or stop_fifo (Stop.enter_stop (new_bus "1") 380 stop_fifo).
Definition stop_visit : Stop.t * list Bus * list Pax :=
  ok_or (stop_fifo, [], []) (Stop.operation 380 stop_entered).

(** A bus of a route ["x"] that the reference trajectory does not know. *)
Definition stray_bus : Bus :=
  mkBus "9" "x" 50 node_distance running_on_link idle alight_idle [] 0%Q
        None 0%Q None ∅ true [] (BusRunningLog_init 300%Q ∅ ∅ ∅) 0%Q 0%Q.

(** A route over two stops with its links and demand, and the reference
    trajectory of the perfect schedule with a slack of 5 s. *)
Definition route_sched : Route_Details :=
  mkRoute "r" "T" ["s1"%string; "s2"%string] "E" ∅ 300%Q 0%Q
    {[ "s1"%string := (1 # 2)%Q; "s2"%string := (1 # 2)%Q ]} 50 ["s1"%string].
Definition blueprint : Blueprint :=
  mkBlueprint [("r"%string, route_sched)]
    {[ "r"%string := {[ "T"%string := "0"%string; "s1"%string := "1"%string;
                        "s2"%string := "2"%string ]} ]}
    {[ "0"%string := 60%Q; "1"%string := 90%Q; "2"%string := 60%Q ]}.
Definition arrival_rates : gmap string (gmap string Q) :=
  {[ "r"%string := {[ "s1"%string := (1 # 100)%Q; "s2"%string := 0%Q ]} ]}.
Definition reference : VirtualBus :=
  ok_or (mkVirtualBus ∅ ∅ ∅)
    (Trajectory.initialize_with_perfect_schedule blueprint arrival_rates 5).

(** The same network with nobody able to board at ["s2"]. *)
Definition route_stuck : Route_Details :=
  mkRoute "r" "T" ["s1"%string; "s2"%string] "E" ∅ 300%Q 0%Q
    {[ "s1"%string := (1 # 2)%Q; "s2"%string := 0%Q ]} 50 ["s1"%string].
Definition blueprint_stuck : Blueprint :=
  mkBlueprint [("r"%string, route_stuck)] (_route_node_to_link blueprint)
    (link_tt_mean blueprint).


(** The mediator of the corridor with the terminal of route B21, the first
    link, the FIFO stop and the empty holder; the bus that terminal
    dispatches at tick 218, and its transfer to the first link with a
    drawn travel time of 60 s. *)
Definition mediator_b21 : Mediator.t :=
  Mediator.mk blueprint {[ "r"%string := {[ "0"%string := "s1"%string ]} ]}
    {[ "r"%string := "E"%string ]} {[ "T"%string := terminal_b21 ]}
    {[ "0"%string := link ]} {[ "s1"%string := stop_fifo ]} holder0.
Definition dispatched_b21 : list Bus :=
  (ok_or (terminal_b21, []) (Terminal.dispatch 218 terminal_b21)).2.
Definition bus_b21 : Bus := default (new_bus "1") (head dispatched_b21).
Definition transferred_b21 : Mediator.t * list Bus :=
  ok_or (mediator_b21, [])
    (Mediator.transfer (fun _ => 60%Q) dispatched_b21 "terminal" "T" 218
       mediator_b21).

End Demo.

(** * Properties *)

(** ** Insertion-ordered dictionaries *)

Section odict_facts.
Context {K V : Type} `{EqDecision K}.
Implicit Types (k : K) (v : V) (d : OD.odict K V).
Import OD.

Lemma od_get_set_eq k v d : get k (set k v d) = Some v.
Proof.
  induction d as [|[k' v'] d IH]; simpl.
  - by rewrite decide_True.
  - destruct (decide (k = k')) as [->|Hne]; simpl.
    + by rewrite decide_True.
    + by rewrite decide_False.
Qed.

Lemma od_get_set_ne k k' v d : k ≠ k' → get k' (set k v d) = get k' d.
Proof.
  intros Hne. induction d as [|[k0 v0] d IH]; simpl.
  - by rewrite decide_False.
  - destruct (decide (k = k0)) as [->|Hne0]; simpl.
    + by rewrite !decide_False.
    + by rewrite IH.
Qed.

Lemma od_get_set k k' v d :
  get k' (set k v d) = if decide (k = k') then Some v else get k' d.
Proof.
  case_decide as Hk; [subst; apply od_get_set_eq | by apply od_get_set_ne].
Qed.

Lemma od_get_None_keys k d : get k d = None ↔ k ∉ keys d.
Proof.
  unfold keys. induction d as [|[k' v'] d IH]; simpl.
  - split; [intros _; apply not_elem_of_nil | done].
  - rewrite not_elem_of_cons. case_decide as Hk.
    + split; [done | by intros [? _]].
    + rewrite IH. split; [done | by intros [_ ?]].
Qed.

Lemma od_get_Some_keys k d : is_Some (get k d) ↔ k ∈ keys d.
Proof.
  rewrite <- not_eq_None_Some, od_get_None_keys.
  split; [apply dec_stable | auto].
Qed.

Lemma od_keys_set_present k v d : k ∈ keys d → keys (set k v d) = keys d.
Proof.
  unfold keys. induction d as [|[k' v'] d IH]; simpl.
  - by intros ?%elem_of_nil.
  - intros Hin. case_decide as Hk; simpl; [by subst|].
    f_equal. apply IH. apply elem_of_cons in Hin as [?|?]; done.
Qed.

Lemma od_keys_set_absent k v d : k ∉ keys d → keys (set k v d) = keys d ++ [k].
Proof.
  unfold keys. induction d as [|[k' v'] d IH]; simpl; [done|].
  intros [Hne Hnin]%not_elem_of_cons.
  rewrite decide_False by done. simpl. f_equal. by apply IH.
Qed.

Lemma od_get_pop_eq k d : get k (pop k d) = None.
Proof.
  induction d as [|[k' v'] d IH]; simpl; [done|].
  case_decide as Hk; simpl; [done|]. by rewrite decide_False.
Qed.

Lemma od_get_pop_ne k k' d : k ≠ k' → get k' (pop k d) = get k' d.
Proof.
  intros Hne. induction d as [|[k0 v0] d IH]; simpl; [done|].
  destruct (decide (k = k0)) as [->|Hne0]; simpl.
  - by rewrite decide_False.
  - by rewrite IH.
Qed.

Lemma od_get_pop k k' d :
  get k' (pop k d) = if decide (k = k') then None else get k' d.
Proof.
  case_decide as Hk; [subst; apply od_get_pop_eq | by apply od_get_pop_ne].
Qed.

Lemma od_keys_pop_subseteq k d : keys (pop k d) ⊆ keys d.
Proof.
  unfold keys. induction d as [|[k' v'] d IH]; simpl; [done|].
  case_decide; simpl.
  - intros x Hx. right. by apply IH.
  - intros x [->|Hx]%elem_of_cons; [left | right; by apply IH].
Qed.

Lemma od_NoDup_keys_pop k d : NoDup (keys d) → NoDup (keys (pop k d)).
Proof.
  unfold keys. induction d as [|[k' v'] d IH]; simpl; [done|].
  intros [Hnin Hnd]%NoDup_cons. case_decide; simpl; [by apply IH|].
  apply NoDup_cons. split; [|by apply IH].
  intros Hin. apply Hnin. by apply (od_keys_pop_subseteq k d).
Qed.

Lemma od_NoDup_keys_set k v d : NoDup (keys d) → NoDup (keys (set k v d)).
Proof.
  intros Hnd. destruct (decide (k ∈ keys d)) as [Hin|Hnin].
  - by rewrite od_keys_set_present.
  - rewrite od_keys_set_absent by done. apply NoDup_app. split_and!; [done| |].
    + intros x Hx ->%list_elem_of_singleton. done.
    + apply NoDup_singleton.
Qed.
End odict_facts.

(** ** The error monad *)

Lemma bind_Ok {A B} (m : result A) (f : A → result B) (b : B) :
  m ≫= f = Ok b → ∃ a, m = Ok a ∧ f a = Ok b.
Proof. destruct m as [a|e]; simpl; [eauto | discriminate]. Qed.

Lemma getitem_Ok {A} (o : option A) (a : A) : getitem o = Ok a → o = Some a.
Proof. destruct o; simpl; congruence. Qed.

Lemma assert_Ok (c : bool) (msg : string) (u : unit) : assert c msg = Ok u → c = true.
Proof. destruct c; simpl; [done | discriminate]. Qed.

Lemma is_none_true {A} (o : option A) : is_none o = true → o = None.
Proof. destruct o; simpl; [discriminate | done]. Qed.

(** ** Holder: hold decisions *)

Section holder_decisions.
Import Holder.
Implicit Types (h : Holder.t) (k : key) (a : list (key * Q)).

Lemma set_hold_action_cons_Ok k v a h h' :
  set_hold_action ((k, v) :: a) h = Ok h' →
  OD.get k (_identifier_time h) = Some None ∧
  set_hold_action a
    (mk (_identifier_bus h) (OD.set k (Some v) (_identifier_time h))
        (holder_log h) (_has_schedule h)) = Ok h'.
Proof.
  simpl. intros H.
  apply bind_Ok in H as (cur & Hcur%getitem_Ok & H).
  apply bind_Ok in H as (u & Hnone%assert_Ok%is_none_true & H).
  by subst cur.
Qed.

(** A successful call only touches keys that were registered and undecided. *)
Lemma set_hold_action_requires a h h' k :
  set_hold_action a h = Ok h' → k ∈ a.*1 →
  OD.get k (_identifier_time h) = Some None.
Proof.
  revert h. induction a as [|[k0 v0] a IH]; intros h Hok Hin.
  - by apply elem_of_nil in Hin.
  - apply set_hold_action_cons_Ok in Hok as [Hk0 Hok].
    destruct (decide (k0 = k)) as [->|Hne]; [done|].
    simpl in Hin. apply elem_of_cons in Hin as [->|Hin]; [done|].
    specialize (IH _ Hok Hin). simpl in IH.
    by rewrite od_get_set_ne in IH.
Qed.

(** After a successful call every key of the map carries a decision, and
    decisions made before are kept. *)
Lemma set_hold_action_assigns a h h' k :
  set_hold_action a h = Ok h' →
  k ∈ a.*1 ∨ (∃ v, OD.get k (_identifier_time h) = Some (Some v)) →
  ∃ v, OD.get k (_identifier_time h') = Some (Some v).
Proof.
  revert h. induction a as [|[k0 v0] a IH]; intros h Hok Hin.
  - simpl in Hok. injection Hok as <-.
    destruct Hin as [Hin|Hin]; [by apply elem_of_nil in Hin | done].
  - apply set_hold_action_cons_Ok in Hok as [Hk0 Hok].
    apply (IH _ Hok). simpl.
    destruct (decide (k0 = k)) as [->|Hne].
    + right. exists v0. apply od_get_set_eq.
    + rewrite od_get_set_ne by done.
      destruct Hin as [Hin|Hin]; [|by right].
      simpl in Hin. apply elem_of_cons in Hin as [->|Hin]; [done | by left].
Qed.

(** The call never registers or unregisters a bus. *)
Lemma set_hold_action_keys a h h' :
  set_hold_action a h = Ok h' →
  OD.keys (_identifier_time h') = OD.keys (_identifier_time h) ∧
  _identifier_bus h' = _identifier_bus h ∧
  holder_log h' = holder_log h.
Proof.
  revert h. induction a as [|[k0 v0] a IH]; intros h Hok.
  - simpl in Hok. by injection Hok as <-.
  - apply set_hold_action_cons_Ok in Hok as [Hk0 Hok].
    destruct (IH _ Hok) as (Hkeys & Hbus & Hlog). simpl in *.
    split_and!; [|done|done].
    rewrite Hkeys. apply od_keys_set_present, od_get_Some_keys. by rewrite Hk0.
Qed.

(** A key of the map that is not registered-and-undecided makes the call
    raise. *)
Lemma set_hold_action_raises a h k :
  k ∈ a.*1 → OD.get k (_identifier_time h) ≠ Some None →
  raises (set_hold_action a h).
Proof.
  intros Hin Hk. destruct (set_hold_action a h) as [h'|e] eqn:Hok; [|done].
  by apply (set_hold_action_requires _ _ _ k) in Hok.
Qed.

End holder_decisions.

(** ** Buses and their running log *)

Lemma update_location_Ok t0 spot_type spot_id node_id offset st (b b' : Bus) :
  update_location t0 spot_type spot_id node_id offset st b = Ok b' →
  _bus_id b' = _bus_id b ∧ _route_id b' = _route_id b ∧
  bus_log b' = bus_log b ∧ _status b' = _status b ∧
  _board_status b' = _board_status b ∧ _paxs b' = _paxs b ∧ speed b' = speed b.
Proof.
  unfold update_location. intros H.
  apply bind_Ok in H as (d & _ & H). injection H as <-. by destruct b.
Qed.

Lemma record_when_departure_Ok stop_id t0 kw (l l' : BusRunningLog) eps :
  record_when_departure stop_id t0 kw l = Ok (l', eps) →
  stop_departure_time l' !! stop_id = Some t0 ∧
  log_schedule_headway l' = log_schedule_headway l ∧
  virtual_bus_stop_departure_time l' = virtual_bus_stop_departure_time l ∧
  match kw with
  | None => eps = None
  | Some count =>
      ∃ vd, virtual_bus_stop_departure_time l !! stop_id = Some vd ∧
            eps = Some (epsilon_of t0 vd (log_schedule_headway l) count) ∧
            stop_epsilon_departure l' !! stop_id = eps
  end.
Proof.
  unfold record_when_departure. destruct kw as [count|]; intros H.
  - apply bind_Ok in H as (vd & Hvd%getitem_Ok & H). injection H as <- <-.
    destruct l; simpl in *. rewrite !lookup_insert_eq. eauto 10.
  - injection H as <- <-. destruct l; simpl. by rewrite lookup_insert_eq.
Qed.

(** ** Holder: the departure log *)

Lemma seq_get_append_eq {V} (m : gmap string (gmap string (list V))) r s (x : V) :
  seq_get (seq_append m r s x) r s = seq_get m r s ++ [x].
Proof.
  unfold seq_get, seq_append. rewrite lookup_insert_eq. simpl.
  by rewrite lookup_insert_eq.
Qed.

Lemma seq_get_append_mono {V} (m : gmap string (gmap string (list V)))
    r s r' s' (x y : V) :
  y ∈ seq_get m r s → y ∈ seq_get (seq_append m r' s' x) r s.
Proof.
  intros Hy. destruct (decide (r' = r)) as [->|Hr].
  - destruct (decide (s' = s)) as [->|Hs].
    + rewrite seq_get_append_eq. apply elem_of_app. by left.
    + unfold seq_get, seq_append. rewrite lookup_insert_eq. simpl.
      by rewrite lookup_insert_ne.
  - unfold seq_get, seq_append. by rewrite lookup_insert_ne.
Qed.

Lemma record_when_bus_departure_Ok stop_id route_id bus_id t0 kw (l l' : HolderLog) :
  record_when_bus_departure stop_id route_id bus_id t0 kw l = Ok l' →
  route_stop_departure_time_seq l' =
    seq_append (route_stop_departure_time_seq l) route_id stop_id (inject_Z t0) ∧
  route_stop_departure_bus_id_seq l' =
    seq_append (route_stop_departure_bus_id_seq l) route_id stop_id bus_id ∧
  match kw with
  | None => route_stop_bus_epsilon_departure l' = route_stop_bus_epsilon_departure l
  | Some eps =>
      ∃ e by_stop by_bus,
        route_stop_bus_epsilon_departure l' = Some e ∧
        e !! route_id = Some by_stop ∧ by_stop !! stop_id = Some by_bus ∧
        by_bus !! bus_id = Some eps
  end.
Proof.
  unfold record_when_bus_departure. destruct kw as [eps|]; intros H.
  - destruct (route_stop_bus_epsilon_departure l) as [e|]; [|discriminate].
    injection H as <-. simpl. split_and!; [done..|].
    eexists _, _, _. split_and!; [done|..]; by rewrite lookup_insert_eq.
  - by injection H as <-.
Qed.

Section holder_release.
Import Holder.

(** What the bookkeeping of a finished hold leaves behind. *)
Lemma record_release_Ok hs s r i t0 (b0 b1 : Bus) (hl hl' : HolderLog) :
  record_release hs (s, r, i) t0 b0 hl = Ok (b1, hl') →
  _bus_id b1 = _bus_id b0 ∧ _route_id b1 = _route_id b0 ∧
  stop_departure_time (bus_log b1) !! s = Some t0 ∧
  route_stop_departure_time_seq hl' =
    seq_append (route_stop_departure_time_seq hl) r s (inject_Z t0) ∧
  route_stop_departure_bus_id_seq hl' =
    seq_append (route_stop_departure_bus_id_seq hl) r s i ∧
  (hs = true →
   ∃ vd eps e by_stop by_bus,
     virtual_bus_stop_departure_time (bus_log b0) !! s = Some vd ∧
     eps = epsilon_of t0 vd (log_schedule_headway (bus_log b0))
             (length (seq_get (route_stop_departure_bus_id_seq hl) r s)) ∧
     stop_epsilon_departure (bus_log b1) !! s = Some eps ∧
     route_stop_bus_epsilon_departure hl' = Some e ∧
     e !! r = Some by_stop ∧ by_stop !! s = Some by_bus ∧
     by_bus !! i = Some eps).
Proof.
  unfold record_release. destruct hs; intros H.
  - apply bind_Ok in H as ([bl eps] & Hdep & H).
    apply bind_Ok in H as (hl1 & Hlog & H). injection H as <- <-.
    apply record_when_departure_Ok in Hdep as (Ht & _ & _ & vd & Hvd & -> & Heps).
    apply record_when_bus_departure_Ok in Hlog as (Hts & Hids & e & bs & bb & He).
    split_and!; [by destruct b0..|done|done|]. intros _.
    eexists vd, _, e, bs, bb. split_and!; [done|reflexivity| |tauto..].
    by destruct b0.
  - apply bind_Ok in H as ([bl eps] & Hdep & H).
    apply bind_Ok in H as (u & _ & H).
    apply bind_Ok in H as (hl1 & Hlog & H). injection H as <- <-.
    apply record_when_departure_Ok in Hdep as (Ht & _).
    apply record_when_bus_departure_Ok in Hlog as (Hts & Hids & _).
    split_and!; [by destruct b0..|done|done|discriminate].
Qed.

End holder_release.

(** ** Holder: one tick *)

Section holder_operation.
Import Holder.
Implicit Types (h : Holder.t) (k : key) (st : loop_state)
  (items : list (key * option Q)).

Lemma operation_step_None t0 st k : operation_step t0 st (k, None) = Ok st.
Proof. by destruct st as [[h held] rem]. Qed.

Lemma operation_step_Some t0 h held rem k ht st' :
  operation_step t0 (h, held, rem) (k, Some ht) = Ok st' →
  ∃ b0 b2 hl' held' rem',
    st' = (mk (OD.set k b2 (_identifier_bus h))
              (OD.set k (Some (ht - 1)%Q) (_identifier_time h))
              hl' (_has_schedule h), held', rem') ∧
    OD.get k (_identifier_bus h) = Some b0 ∧
    if Qle_bool (ht - 1) 0 then
      (∃ b1, record_release (_has_schedule h) k t0 b0 (holder_log h) = Ok (b1, hl') ∧
             update_location t0 "holder" k.1.1 k.1.1 0%Q holding b1 = Ok b2) ∧
      held' = OD.set k.1.1 (default [] (OD.get k.1.1 held) ++ [b2]) held ∧
      rem' = rem ++ [k]
    else
      hl' = holder_log h ∧
      update_location t0 "holder" k.1.1 k.1.1 0%Q holding b0 = Ok b2 ∧
      held' = held ∧ rem' = rem.
Proof.
  unfold operation_step. intros H.
  apply bind_Ok in H as (b0 & Hb0%getitem_Ok & H).
  destruct (Qle_bool (ht - 1) 0).
  - apply bind_Ok in H as ([b1 hl'] & Hrel & H).
    apply bind_Ok in H as (b2 & Hloc & H). injection H as <-.
    eexists b0, b2, hl', _, _. split_and!; eauto.
  - apply bind_Ok in H as (b2 & Hloc & H). injection H as <-.
    eexists b0, b2, _, _, _. split_and!; eauto.
Qed.

Lemma operation_loop_cons_Ok t0 item items st st' :
  operation_loop t0 (item :: items) st = Ok st' →
  ∃ st1, operation_step t0 st item = Ok st1 ∧ operation_loop t0 items st1 = Ok st'.
Proof. simpl. apply bind_Ok. Qed.

(** A tick never turns a decided or absent entry into an undecided one. *)
Lemma operation_loop_not_undecided t0 items st st' k :
  operation_loop t0 items st = Ok st' →
  OD.get k (_identifier_time st.1.1) ≠ Some None →
  OD.get k (_identifier_time st'.1.1) ≠ Some None.
Proof.
  revert st. induction items as [|[k0 [ht|]] items IH]; intros st Hloop Hk.
  - simpl in Hloop. by injection Hloop as <-.
  - apply operation_loop_cons_Ok in Hloop as (st1 & Hstep & Hloop).
    apply (IH _ Hloop). destruct st as [[h held] rem].
    apply operation_step_Some in Hstep as (b0 & b2 & hl' & held' & rem' & -> & _).
    simpl in *. rewrite od_get_set. by case_decide.
  - apply operation_loop_cons_Ok in Hloop as (st1 & Hstep & Hloop).
    rewrite operation_step_None in Hstep. injection Hstep as <-. by apply (IH _ Hloop).
Qed.

Lemma remove_loop_Ok rem h h' :
  remove_loop rem h = Ok h' →
  holder_log h' = holder_log h ∧ _has_schedule h' = _has_schedule h ∧
  ∀ k,
    OD.get k (_identifier_time h') =
      (if decide (k ∈ rem) then None else OD.get k (_identifier_time h)) ∧
    OD.get k (_identifier_bus h') =
      (if decide (k ∈ rem) then None else OD.get k (_identifier_bus h)).
Proof.
  revert h. induction rem as [|k0 rem IH]; intros h H; simpl in H.
  - injection H as <-. split_and!; [done..|]. intros k.
    rewrite !decide_False by apply not_elem_of_nil. done.
  - apply bind_Ok in H as (? & _ & H). apply bind_Ok in H as (? & _ & H).
    destruct (IH _ H) as (Hlog & Hs & Hget). simpl in *.
    split_and!; [done..|]. intros k. destruct (Hget k) as [-> ->].
    rewrite !od_get_pop.
    split; repeat case_decide; subst; try done; exfalso;
      match goal with
      | Hn : _ ∉ _ :: _ |- _ => apply Hn; first [by left | by right]
      | Hi : _ ∈ _ :: _ |- _ => apply elem_of_cons in Hi as [?|?]; done
      end.
Qed.

Lemma operation_not_undecided t0 h h' released k :
  operation t0 h = Ok (h', released) →
  OD.get k (_identifier_time h) ≠ Some None →
  OD.get k (_identifier_time h') ≠ Some None.
Proof.
  unfold operation. intros H Hk.
  apply bind_Ok in H as ([[h1 held] rem] & Hloop & H).
  apply bind_Ok in H as (h2 & Hrem & H). injection H as <- <-.
  apply (operation_loop_not_undecided _ _ _ _ k) in Hloop; [|done].
  apply remove_loop_Ok in Hrem as (_ & _ & Hget).
  destruct (Hget k) as [-> _]. by case_decide.
Qed.

Lemma add_bus_Ok stop_id bus t0 h h' :
  add_bus stop_id bus t0 h = Ok h' →
  ∃ bus',
    _identifier_time h' =
      OD.set (stop_id, _route_id bus, _bus_id bus) None (_identifier_time h) ∧
    _identifier_bus h' =
      OD.set (stop_id, _route_id bus, _bus_id bus) bus' (_identifier_bus h) ∧
    _status bus' = holding ∧ _bus_id bus' = _bus_id bus ∧
    _route_id bus' = _route_id bus.
Proof.
  unfold add_bus. intros H. apply bind_Ok in H as (bus' & Hloc & H).
  injection H as <-. exists bus'. simpl.
  apply update_location_Ok in Hloc as (-> & -> & _ & -> & _).
  by destruct bus.
Qed.

Lemma run_not_undecided evs h h' k :
  no_registration k evs → run evs h = Ok h' →
  OD.get k (_identifier_time h) ≠ Some None →
  OD.get k (_identifier_time h') ≠ Some None.
Proof.
  revert h. induction evs as [|e evs IH]; intros h Hno Hrun Hk; simpl in Hrun.
  - by injection Hrun as <-.
  - apply bind_Ok in Hrun as (h1 & He & Hrun).
    apply (IH h1); [|done|].
    { intros s b t1 Hin. apply (Hno s b t1). by right. }
    destruct e as [s b t1|a|t1]; simpl in He.
    + apply add_bus_Ok in He as (b' & -> & _).
      rewrite od_get_set_ne; [done|]. apply (Hno s b t1). left.
    + intros Hund. apply Hk.
      destruct (OD.get k (_identifier_time h)) as [[v|]|] eqn:Hget; [|done|].
      * destruct (set_hold_action_assigns a h h1 k He) as [v' Hv']; [eauto|].
        congruence.
      * apply set_hold_action_keys in He as (Hkeys & _).
        apply od_get_None_keys in Hget. rewrite <- Hkeys in Hget.
        apply od_get_None_keys in Hget. congruence.
    + apply bind_Ok in He as ([h2 rel] & Hop & He). injection He as <-.
      by apply (operation_not_undecided _ _ _ _ k) in Hop.
Qed.

End holder_operation.

(** C1. A bus is registered by [add_bus] with an undecided hold time, and
    between two registrations of a key at most one hold time can be assigned
    to it: once [set_hold_action] has succeeded on a map that contains the
    key, every later call on a map containing it raises, whatever ticks,
    other decisions and other registrations happen in between. *)
Theorem holder_second_hold_action_fails
    (stop_id : string) (bus : Bus) (t0 : Z) (g h h0 h1 h2 : Holder.t)
    (evs0 evs1 : list Holder.event) (a1 a2 : list (Holder.key * Q)) :
  let k := (stop_id, _route_id bus, _bus_id bus) in
  Holder.add_bus stop_id bus t0 g = Ok h →
  Holder.no_registration k (evs0 ++ evs1) →
  Holder.run evs0 h = Ok h0 →
  k ∈ a1.*1 → Holder.set_hold_action a1 h0 = Ok h1 →
  Holder.run evs1 h1 = Ok h2 →
  k ∈ a2.*1 →
  OD.get k (Holder._identifier_time h) = Some None ∧
  raises (Holder.set_hold_action a2 h2).
Proof.
  intros k Hadd Hno Hrun0 Hin1 Hset1 Hrun1 Hin2. split.
  - apply add_bus_Ok in Hadd as (b' & -> & _). apply od_get_set_eq.
  - apply (set_hold_action_raises a2 h2 k Hin2).
    apply (run_not_undecided evs1 h1 h2 k); [|done|].
    { intros s b t1 Hin. apply (Hno s b t1), elem_of_app. by right. }
    destruct (set_hold_action_assigns a1 h0 h1 k Hset1) as [v Hv]; [by left|].
    congruence.
Qed.

Section holder_unregistered.
Import Holder.

Lemma set_hold_action_app (pre post : list (key * Q)) (h : Holder.t) :
  set_hold_action (pre ++ post) h = set_hold_action pre h ≫= set_hold_action post.
Proof.
  revert h. induction pre as [|[k0 v0] pre IH]; intros h; simpl; [done|].
  destruct (getitem (OD.get k0 (_identifier_time h))) as [cur|e]; simpl; [|done].
  destruct (assert (is_none cur) "bus is already holding") as [u|e]; simpl; [|done].
  apply IH.
Qed.

End holder_unregistered.

(** C9. A hold time for a key that is not registered (never added, or
    already released) is refused: the call raises, with [KeyError] at that
    key when the entries before it were accepted; a call that succeeds
    leaves the set of registered buses as it was. *)
Theorem holder_hold_action_unregistered_raises
    (a : list (Holder.key * Q)) (h : Holder.t) (k : Holder.key) :
  k ∈ a.*1 →
  OD.get k (Holder._identifier_time h) = None →
  raises (Holder.set_hold_action a h) ∧
  (∀ pre v post h1,
     a = pre ++ (k, v) :: post → Holder.set_hold_action pre h = Ok h1 →
     Holder.set_hold_action a h = Raise KeyError) ∧
  (∀ a' g g',
     Holder.set_hold_action a' g = Ok g' →
     OD.keys (Holder._identifier_time g') = OD.keys (Holder._identifier_time g) ∧
     Holder._identifier_bus g' = Holder._identifier_bus g).
Proof.
  intros Hin Hk. split_and!.
  - apply (set_hold_action_raises a h k Hin). congruence.
  - intros pre v post h1 -> Hpre. rewrite set_hold_action_app, Hpre. simpl.
    apply set_hold_action_keys in Hpre as (Hkeys & _).
    apply od_get_None_keys in Hk. rewrite <- Hkeys in Hk.
    apply od_get_None_keys in Hk. by rewrite Hk.
  - intros a' g g' Hok. by apply set_hold_action_keys in Hok as (? & ? & _).
Qed.

(** ** Holder: what a tick does to every entry *)

Section holder_tick.
Import Holder.
Implicit Types (h : Holder.t) (k : key) (st : loop_state)
  (items : list (key * option Q)).

Lemma od_get_Some_elem {K V} `{EqDecision K} (d : OD.odict K V) (k : K) (v : V) :
  NoDup (OD.keys d) → (k, v) ∈ d → OD.get k d = Some v.
Proof.
  unfold OD.keys. induction d as [|[k' v'] d IH]; simpl.
  - by intros _ ?%elem_of_nil.
  - intros [Hnin Hnd]%NoDup_cons [Heq|Hin]%elem_of_cons.
    + injection Heq as -> ->. by rewrite decide_True.
    + rewrite decide_False; [by apply IH|].
      intros ->. apply Hnin. apply list_elem_of_fmap. by exists (k', v).
Qed.

Lemma od_get_elem {K V} `{EqDecision K} (d : OD.odict K V) (k : K) (v : V) :
  OD.get k d = Some v → (k, v) ∈ d.
Proof.
  induction d as [|[k' v'] d IH]; simpl; [done|].
  case_decide as Hk.
  - intros [= ->]. subst. by left.
  - intros Hget. right. by apply IH.
Qed.

Lemma expired_cons k v items :
  expired ((k, v) :: items) =
    match v with
    | Some ht => if Qle_bool (ht - 1) 0 then k :: expired items else expired items
    | None => expired items
    end.
Proof. unfold expired. simpl. destruct v as [ht|]; [|done]. by destruct (Qle_bool _ _). Qed.

Lemma elem_of_expired k items :
  k ∈ expired items ↔
  ∃ ht, (k, Some ht) ∈ items ∧ Qle_bool (ht - 1) 0 = true.
Proof.
  unfold expired. rewrite list_elem_of_omap. split.
  - intros ([k' [ht|]] & Hin & Hsome); simpl in Hsome; [|done].
    destruct (Qle_bool (ht - 1) 0) eqn:Hle; [|done].
    injection Hsome as ->. eauto.
  - intros (ht & Hin & Hle). exists (k, Some ht). simpl. by rewrite Hle.
Qed.

(** The entries the loop has not visited are as they were. *)
Lemma operation_step_frame t0 st st' k0 v0 k :
  operation_step t0 st (k0, v0) = Ok st' → k ≠ k0 →
  OD.get k (_identifier_time st'.1.1) = OD.get k (_identifier_time st.1.1) ∧
  OD.get k (_identifier_bus st'.1.1) = OD.get k (_identifier_bus st.1.1).
Proof.
  intros Hstep Hne. destruct v0 as [ht|].
  - destruct st as [[h held] rem].
    apply operation_step_Some in Hstep as (b0 & b2 & hl' & held' & rem' & -> & _).
    simpl. by rewrite !od_get_set_ne.
  - rewrite operation_step_None in Hstep. by injection Hstep as <-.
Qed.

Lemma operation_loop_frame t0 items st st' k :
  operation_loop t0 items st = Ok st' → k ∉ items.*1 →
  OD.get k (_identifier_time st'.1.1) = OD.get k (_identifier_time st.1.1) ∧
  OD.get k (_identifier_bus st'.1.1) = OD.get k (_identifier_bus st.1.1).
Proof.
  revert st. induction items as [|[k0 v0] items IH]; intros st Hloop Hnin.
  - simpl in Hloop. by injection Hloop as <-.
  - apply operation_loop_cons_Ok in Hloop as (st1 & Hstep & Hloop).
    simpl in Hnin. apply not_elem_of_cons in Hnin as [Hne Hnin].
    destruct (IH _ Hloop Hnin) as [-> ->].
    by apply (operation_step_frame t0 st st1 k0 v0).
Qed.

(** [remove_buses] collects exactly the keys whose hold ends. *)
Lemma operation_loop_remove t0 items st st' :
  operation_loop t0 items st = Ok st' → st'.2 = st.2 ++ expired items.
Proof.
  revert st. induction items as [|[k0 v0] items IH]; intros st Hloop.
  - simpl in Hloop. injection Hloop as <-. by rewrite app_nil_r.
  - apply operation_loop_cons_Ok in Hloop as (st1 & Hstep & Hloop).
    rewrite (IH _ Hloop), expired_cons. destruct v0 as [ht|].
    + destruct st as [[h held] rem].
      apply operation_step_Some in Hstep
        as (b0 & b2 & hl' & held' & rem' & -> & _ & Hcase). simpl.
      destruct (Qle_bool (ht - 1) 0).
      * destruct Hcase as (_ & _ & ->). by rewrite <- app_assoc.
      * by destruct Hcase as (_ & _ & _ & ->).
    + rewrite operation_step_None in Hstep. by injection Hstep as <-.
Qed.

(** The released lists and the departure log only grow. *)
Lemma operation_step_mono t0 st st' item :
  operation_step t0 st item = Ok st' →
  _has_schedule st'.1.1 = _has_schedule st.1.1 ∧
  (∀ s b, b ∈ default [] (OD.get s st.1.2) → b ∈ default [] (OD.get s st'.1.2)) ∧
  (∀ r s i, i ∈ seq_get (route_stop_departure_bus_id_seq (holder_log st.1.1)) r s →
            i ∈ seq_get (route_stop_departure_bus_id_seq (holder_log st'.1.1)) r s) ∧
  (∀ r s x, x ∈ seq_get (route_stop_departure_time_seq (holder_log st.1.1)) r s →
            x ∈ seq_get (route_stop_departure_time_seq (holder_log st'.1.1)) r s).
Proof.
  destruct item as [k0 [ht|]]; intros Hstep.
  - destruct st as [[h held] rem].
    apply operation_step_Some in Hstep
      as (b0 & b2 & hl' & held' & rem' & -> & _ & Hcase). simpl.
    destruct (Qle_bool (ht - 1) 0).
    + destruct Hcase as ((b1 & Hrel & _) & -> & _).
      destruct k0 as [[s0 r0] i0].
      apply record_release_Ok in Hrel as (_ & _ & _ & -> & -> & _).
      split_and!; [done| |intros r s x Hx; by apply seq_get_append_mono..].
      intros s b Hb. rewrite od_get_set. case_decide as Hs; simpl; [|done].
      subst. apply elem_of_app. by left.
    + by destruct Hcase as (-> & _ & -> & _).
  - rewrite operation_step_None in Hstep. by injection Hstep as <-.
Qed.

Lemma operation_loop_mono t0 items st st' :
  operation_loop t0 items st = Ok st' →
  _has_schedule st'.1.1 = _has_schedule st.1.1 ∧
  (∀ s b, b ∈ default [] (OD.get s st.1.2) → b ∈ default [] (OD.get s st'.1.2)) ∧
  (∀ r s i, i ∈ seq_get (route_stop_departure_bus_id_seq (holder_log st.1.1)) r s →
            i ∈ seq_get (route_stop_departure_bus_id_seq (holder_log st'.1.1)) r s) ∧
  (∀ r s x, x ∈ seq_get (route_stop_departure_time_seq (holder_log st.1.1)) r s →
            x ∈ seq_get (route_stop_departure_time_seq (holder_log st'.1.1)) r s).
Proof.
  revert st. induction items as [|item items IH]; intros st Hloop.
  - simpl in Hloop. by injection Hloop as <-.
  - apply operation_loop_cons_Ok in Hloop as (st1 & Hstep & Hloop).
    destruct (IH _ Hloop) as (-> & Hheld & Hids & Hts).
    destruct (operation_step_mono _ _ _ _ Hstep) as (-> & Hheld1 & Hids1 & Hts1).
    split_and!; [done|..]; eauto.
Qed.

End holder_tick.

Section holder_tick_entries.
Import Holder.
Implicit Types (h : Holder.t) (k : key) (st : loop_state)
  (items : list (key * option Q)).

Lemma operation_step_entry t0 st st' k v :
  operation_step t0 st (k, v) = Ok st' → entry_outcome t0 k v st st'.
Proof.
  destruct v as [ht|]; intros Hstep; simpl.
  - destruct st as [[h held] rem].
    apply operation_step_Some in Hstep
      as (b0 & b2 & hl' & held' & rem' & -> & Hb0 & Hcase). simpl.
    rewrite !od_get_set_eq. split; [done|]. exists b0, b2.
    destruct (Qle_bool (ht - 1) 0).
    + destruct Hcase as ((b1 & Hrel & Hloc) & -> & _).
      destruct k as [[s r] i]. simpl in *.
      apply record_release_Ok in Hrel as (Hid & Hroute & Hdep & Hts & Hids & _).
      apply update_location_Ok in Hloc as (Hid2 & Hroute2 & Hlog2 & _).
      rewrite od_get_set_eq, Hlog2, Hts, Hids, !seq_get_append_eq. simpl.
      split_and!; try done; try congruence;
        apply elem_of_app; right; by apply list_elem_of_singleton.
    + destruct Hcase as (_ & Hloc & _).
      apply update_location_Ok in Hloc as (Hid2 & Hroute2 & Hlog2 & _). done.
  - rewrite operation_step_None in Hstep. by injection Hstep as <-.
Qed.

Lemma operation_loop_entry t0 items st st' k v :
  NoDup items.*1 → (k, v) ∈ items →
  operation_loop t0 items st = Ok st' → entry_outcome t0 k v st st'.
Proof.
  revert st. induction items as [|[k0 v0] items IH]; intros st Hnd Hin Hloop.
  - by apply elem_of_nil in Hin.
  - apply operation_loop_cons_Ok in Hloop as (st1 & Hstep & Hloop).
    simpl in Hnd. apply NoDup_cons in Hnd as [Hnin Hnd].
    apply elem_of_cons in Hin as [Heq|Hin].
    + injection Heq as <- <-.
      apply operation_step_entry in Hstep.
      destruct (operation_loop_frame _ _ _ _ k Hloop Hnin) as [Ht Hb].
      destruct (operation_loop_mono _ _ _ _ Hloop) as (_ & Hheld & Hids & Hts).
      unfold entry_outcome in *. destruct v as [ht|].
      * destruct Hstep as (Htime & b0 & b2 & Hb0 & Hb2 & Hid & Hroute & Hcase).
        rewrite Ht, Hb. split; [done|]. exists b0, b2. split_and!; [done..|].
        destruct (Qle_bool (ht - 1) 0); [|done].
        destruct Hcase as (? & ? & ? & ?). split_and!; eauto.
      * destruct Hstep as [Htime Hbus]. by rewrite Ht, Hb.
    + assert (k ≠ k0) as Hne.
      { intros ->. apply Hnin. apply list_elem_of_fmap. by exists (k0, v). }
      specialize (IH _ Hnd Hin Hloop).
      destruct (operation_step_frame _ _ _ _ _ k Hstep Hne) as [Ht Hb].
      unfold entry_outcome in *. destruct v as [ht|].
      * by rewrite <- Hb.
      * by rewrite <- Ht, <- Hb.
Qed.

Lemma released_count_append (held : OD.odict string (list Bus)) s b :
  released_count (OD.set s (default [] (OD.get s held) ++ [b]) held) =
  S (released_count held).
Proof.
  unfold released_count. induction held as [|[s' bs] held IH]; simpl; [done|].
  case_decide as Hs; simpl.
  - rewrite !length_app. simpl. lia.
  - rewrite !length_app. unfold fmap in IH. rewrite IH. lia.
Qed.

Lemma operation_loop_count t0 items st st' :
  operation_loop t0 items st = Ok st' →
  released_count st'.1.2 = (released_count st.1.2 + length (expired items))%nat.
Proof.
  revert st. induction items as [|[k0 v0] items IH]; intros st Hloop.
  - simpl in Hloop. injection Hloop as <-. simpl. lia.
  - apply operation_loop_cons_Ok in Hloop as (st1 & Hstep & Hloop).
    rewrite (IH _ Hloop), expired_cons. destruct v0 as [ht|].
    + destruct st as [[h held] rem].
      apply operation_step_Some in Hstep
        as (b0 & b2 & hl' & held' & rem' & -> & _ & Hcase). simpl.
      destruct (Qle_bool (ht - 1) 0).
      * destruct Hcase as (_ & -> & _). rewrite released_count_append. simpl. lia.
      * by destruct Hcase as (_ & _ & -> & _).
    + rewrite operation_step_None in Hstep. by injection Hstep as <-.
Qed.

End holder_tick_entries.

Lemma seq_get_append {V} (m : gmap string (gmap string (list V))) r s r' s' (x : V) :
  seq_get (seq_append m r' s' x) r s =
  seq_get m r s ++ (if decide ((s', r') = (s, r)) then [x] else []).
Proof.
  case_decide as Heq.
  - injection Heq as -> ->. apply seq_get_append_eq.
  - rewrite app_nil_r. unfold seq_get, seq_append.
    destruct (decide (r' = r)) as [->|Hr].
    + rewrite lookup_insert_eq. simpl. rewrite lookup_insert_ne; [done|]. congruence.
    + by rewrite lookup_insert_ne.
Qed.

Lemma record_when_departure_plain stop_id t0 (l l' : BusRunningLog) eps :
  record_when_departure stop_id t0 None l = Ok (l', eps) →
  stop_epsilon_departure l' = stop_epsilon_departure l.
Proof. intros H. injection H as <- <-. by destruct l. Qed.

Section holder_epsilon.
Import Holder.
Implicit Types (h : Holder.t) (k : key) (st : loop_state)
  (items : list (key * option Q)).

Lemma visited_before_split k v items :
  OD.get k items = Some v → ∃ post, items = visited_before k items ++ (k, v) :: post.
Proof.
  induction items as [|[k' v'] items IH]; simpl; [done|].
  case_decide as Hk.
  - intros [= ->]. subst. rewrite decide_True by done. by exists items.
  - intros Hget. rewrite decide_False by congruence.
    destruct (IH Hget) as [post Hpost]. exists post. simpl. by f_equal.
Qed.

Lemma visited_before_notin k items : k ∉ (visited_before k items).*1.
Proof.
  induction items as [|[k' v'] items IH]; simpl; [apply not_elem_of_nil|].
  case_decide as Hk; simpl; [apply not_elem_of_nil|].
  apply not_elem_of_cons. split; [congruence|done].
Qed.

Lemma operation_loop_app t0 pre post st :
  operation_loop t0 (pre ++ post) st =
  operation_loop t0 pre st ≫= operation_loop t0 post.
Proof.
  revert st. induction pre as [|item pre IH]; intros st; simpl; [done|].
  destruct (operation_step t0 st item) as [st1|e]; simpl; [apply IH|done].
Qed.

Lemma same_stop_route_app k (ks1 ks2 : list key) :
  same_stop_route k (ks1 ++ ks2) = same_stop_route k ks1 ++ same_stop_route k ks2.
Proof. apply filter_app. Qed.

Lemma expired_app items1 items2 :
  expired (items1 ++ items2) = expired items1 ++ expired items2.
Proof. apply omap_app. Qed.

(** The departure sequences after the loop: one entry is appended for
    every hold that ends, in the order of the loop. *)
Lemma operation_step_seqs t0 st st' k0 v0 k :
  operation_step t0 st (k0, v0) = Ok st' →
  seq_get (route_stop_departure_bus_id_seq (holder_log st'.1.1)) k.1.2 k.1.1 =
    seq_get (route_stop_departure_bus_id_seq (holder_log st.1.1)) k.1.2 k.1.1 ++
    (snd <$> same_stop_route k (expired [(k0, v0)])) ∧
  seq_get (route_stop_departure_time_seq (holder_log st'.1.1)) k.1.2 k.1.1 =
    seq_get (route_stop_departure_time_seq (holder_log st.1.1)) k.1.2 k.1.1 ++
    ((fun _ => inject_Z t0) <$> same_stop_route k (expired [(k0, v0)])).
Proof.
  intros Hstep. rewrite expired_cons. destruct v0 as [ht|].
  - destruct st as [[h held] rem].
    apply operation_step_Some in Hstep
      as (b0 & b2 & hl' & held' & rem' & -> & _ & Hcase). simpl.
    destruct (Qle_bool (ht - 1) 0).
    + destruct Hcase as ((b1 & Hrel & _) & _). destruct k0 as [[s0 r0] i0].
      apply record_release_Ok in Hrel as (_ & _ & _ & -> & -> & _).
      rewrite !seq_get_append. unfold same_stop_route.
      rewrite filter_cons, filter_nil. simpl.
      destruct k as [[s r] i]. simpl.
      by destruct (decide ((s0, r0) = (s, r))).
    + destruct Hcase as (-> & _). by rewrite !app_nil_r.
  - rewrite operation_step_None in Hstep. injection Hstep as <-.
    by rewrite !app_nil_r.
Qed.

Lemma operation_loop_seqs t0 items st st' k :
  operation_loop t0 items st = Ok st' →
  seq_get (route_stop_departure_bus_id_seq (holder_log st'.1.1)) k.1.2 k.1.1 =
    seq_get (route_stop_departure_bus_id_seq (holder_log st.1.1)) k.1.2 k.1.1 ++
    (snd <$> same_stop_route k (expired items)) ∧
  seq_get (route_stop_departure_time_seq (holder_log st'.1.1)) k.1.2 k.1.1 =
    seq_get (route_stop_departure_time_seq (holder_log st.1.1)) k.1.2 k.1.1 ++
    ((fun _ => inject_Z t0) <$> same_stop_route k (expired items)).
Proof.
  revert st. induction items as [|[k0 v0] items IH]; intros st Hloop.
  - simpl in Hloop. injection Hloop as <-. by rewrite !app_nil_r.
  - apply operation_loop_cons_Ok in Hloop as (st1 & Hstep & Hloop).
    destruct (IH _ Hloop) as [-> ->].
    destruct (operation_step_seqs _ _ _ _ _ k Hstep) as [-> ->].
    change ((k0, v0) :: items) with ([(k0, v0)] ++ items).
    by rewrite expired_app, same_stop_route_app, !fmap_app, !app_assoc.
Qed.

End holder_epsilon.

Section holder_epsilon_table.
Import Holder.
Implicit Types (h : Holder.t) (k : key) (st : loop_state)
  (items : list (key * option Q)).

Lemma record_when_bus_departure_table stop_id route_id bus_id t0 kw
    (l l' : HolderLog) k :
  record_when_bus_departure stop_id route_id bus_id t0 kw l = Ok l' →
  epsilon_departure_of l' k =
    match kw with
    | Some eps =>
        if decide (k = (stop_id, route_id, bus_id)) then Some eps
        else epsilon_departure_of l k
    | None => epsilon_departure_of l k
    end.
Proof.
  unfold record_when_bus_departure. destruct kw as [eps|]; intros H.
  - destruct (route_stop_bus_epsilon_departure l) as [e|] eqn:He; [|discriminate].
    injection H as <-. unfold epsilon_departure_of. simpl. rewrite He. simpl.
    destruct k as [[s r] i]. simpl.
    destruct (decide (r = route_id)) as [->|Hr].
    + rewrite lookup_insert_eq. simpl.
      destruct (decide (s = stop_id)) as [->|Hs].
      * rewrite lookup_insert_eq. simpl.
        destruct (decide (i = bus_id)) as [->|Hi].
        -- rewrite lookup_insert_eq. by rewrite decide_True.
        -- rewrite lookup_insert_ne by done. rewrite decide_False by congruence.
           destruct (e !! route_id) as [by_stop|]; simpl; [|done].
           by destruct (by_stop !! stop_id).
      * rewrite lookup_insert_ne by done. rewrite decide_False by congruence.
        by destruct (e !! route_id).
    + rewrite lookup_insert_ne by done. by rewrite decide_False by congruence.
  - by injection H as <-.
Qed.

Lemma record_release_plain k0 t0 (b0 b1 : Bus) (hl hl' : HolderLog) :
  record_release false k0 t0 b0 hl = Ok (b1, hl') →
  stop_epsilon_departure (bus_log b1) = stop_epsilon_departure (bus_log b0) ∧
  route_stop_bus_epsilon_departure hl' = route_stop_bus_epsilon_departure hl.
Proof.
  destruct k0 as [[s r] i]. unfold record_release. intros H.
  apply bind_Ok in H as ([bl eps] & Hdep & H).
  apply bind_Ok in H as (u & _ & H).
  apply bind_Ok in H as (hl1 & Hlog & H). injection H as <- <-.
  apply record_when_departure_plain in Hdep.
  apply record_when_bus_departure_Ok in Hlog as (_ & _ & Htab).
  split; [by destruct b0|done].
Qed.

Lemma record_release_table hs k0 t0 (b0 b1 : Bus) (hl hl' : HolderLog) k :
  record_release hs k0 t0 b0 hl = Ok (b1, hl') → k ≠ k0 →
  epsilon_departure_of hl' k = epsilon_departure_of hl k.
Proof.
  destruct k0 as [[s r] i]. unfold record_release. intros H Hne. destruct hs.
  - apply bind_Ok in H as ([bl eps] & Hdep & H).
    apply bind_Ok in H as (hl1 & Hlog & H). injection H as <- <-.
    rewrite (record_when_bus_departure_table _ _ _ _ _ _ _ k Hlog).
    destruct eps; [by rewrite decide_False|done].
  - apply bind_Ok in H as ([bl eps] & Hdep & H).
    apply bind_Ok in H as (u & _ & H).
    apply bind_Ok in H as (hl1 & Hlog & H). injection H as <- <-.
    by rewrite (record_when_bus_departure_table _ _ _ _ _ _ _ k Hlog).
Qed.

(** The bookkeeping of one release. *)
Lemma record_release_recorded hs k0 t0 (b0 b1 : Bus) (hl hl' : HolderLog) :
  record_release hs k0 t0 b0 hl = Ok (b1, hl') →
  departure_recorded hs t0 k0
    (length (seq_get (route_stop_departure_bus_id_seq hl) k0.1.2 k0.1.1))
    b0 b1 hl hl'.
Proof.
  intros H. destruct hs; simpl.
  - destruct k0 as [[s r] i].
    apply record_release_Ok in H as (_ & _ & _ & _ & _ & Hs).
    destruct (Hs eq_refl) as (vd & eps & e & by_stop & by_bus & Hvd & -> & Heps & He & Hr & Hst & Hi).
    exists vd. simpl. split_and!; [done..|].
    unfold epsilon_departure_of. simpl. rewrite He. simpl. rewrite Hr. simpl.
    by rewrite Hst.
  - by apply record_release_plain in H.
Qed.

Lemma operation_step_table t0 st st' k0 v0 k :
  operation_step t0 st (k0, v0) = Ok st' → k ≠ k0 →
  epsilon_departure_of (holder_log st'.1.1) k =
  epsilon_departure_of (holder_log st.1.1) k.
Proof.
  intros Hstep Hne. destruct v0 as [ht|].
  - destruct st as [[h held] rem].
    apply operation_step_Some in Hstep
      as (b0 & b2 & hl' & held' & rem' & -> & _ & Hcase). simpl.
    destruct (Qle_bool (ht - 1) 0).
    + destruct Hcase as ((b1 & Hrel & _) & _).
      by apply (record_release_table _ _ _ _ _ _ _ k) in Hrel.
    + by destruct Hcase as (-> & _).
  - rewrite operation_step_None in Hstep. by injection Hstep as <-.
Qed.

Lemma operation_loop_table t0 items st st' k :
  operation_loop t0 items st = Ok st' → k ∉ items.*1 →
  epsilon_departure_of (holder_log st'.1.1) k =
  epsilon_departure_of (holder_log st.1.1) k.
Proof.
  revert st. induction items as [|[k0 v0] items IH]; intros st Hloop Hnin.
  - simpl in Hloop. by injection Hloop as <-.
  - apply operation_loop_cons_Ok in Hloop as (st1 & Hstep & Hloop).
    simpl in Hnin. apply not_elem_of_cons in Hnin as [Hne Hnin].
    rewrite (IH _ Hloop Hnin). by apply (operation_step_table t0 st st1 k0 v0).
Qed.

Lemma operation_step_plain t0 st st' item :
  operation_step t0 st item = Ok st' → _has_schedule st.1.1 = false →
  route_stop_bus_epsilon_departure (holder_log st'.1.1) =
  route_stop_bus_epsilon_departure (holder_log st.1.1).
Proof.
  destruct item as [k0 [ht|]]; intros Hstep Hs.
  - destruct st as [[h held] rem].
    apply operation_step_Some in Hstep
      as (b0 & b2 & hl' & held' & rem' & -> & _ & Hcase). simpl in *.
    destruct (Qle_bool (ht - 1) 0).
    + destruct Hcase as ((b1 & Hrel & _) & _). rewrite Hs in Hrel.
      by apply record_release_plain in Hrel as [_ ?].
    + by destruct Hcase as (-> & _).
  - rewrite operation_step_None in Hstep. by injection Hstep as <-.
Qed.

Lemma operation_loop_plain t0 items st st' :
  operation_loop t0 items st = Ok st' → _has_schedule st.1.1 = false →
  route_stop_bus_epsilon_departure (holder_log st'.1.1) =
  route_stop_bus_epsilon_departure (holder_log st.1.1).
Proof.
  revert st. induction items as [|item items IH]; intros st Hloop Hs.
  - simpl in Hloop. by injection Hloop as <-.
  - apply operation_loop_cons_Ok in Hloop as (st1 & Hstep & Hloop).
    destruct (operation_step_mono _ _ _ _ Hstep) as (Hs1 & _).
    rewrite (IH _ Hloop) by congruence. by apply (operation_step_plain t0 st st1 item).
Qed.

(** The release of [k] in the loop over [items]. *)
Lemma operation_loop_release t0 items st st' k ht :
  NoDup items.*1 → OD.get k items = Some (Some ht) →
  Qle_bool (ht - 1) 0 = true →
  operation_loop t0 items st = Ok st' →
  ∃ b0 b2,
    OD.get k (_identifier_bus st.1.1) = Some b0 ∧
    OD.get k (_identifier_bus st'.1.1) = Some b2 ∧
    departure_recorded (_has_schedule st.1.1) t0 k
      (length (seq_get (route_stop_departure_bus_id_seq (holder_log st.1.1))
                 k.1.2 k.1.1) +
       length (same_stop_route k (expired (visited_before k items))))%nat
      b0 b2 (holder_log st.1.1) (holder_log st'.1.1).
Proof.
  intros Hnd Hget Hle Hloop.
  destruct (visited_before_split _ _ _ Hget) as [post Hsplit].
  pose proof (visited_before_notin k items) as Hpre.
  set (pre := visited_before k items) in *.
  assert (k ∉ post.*1) as Hpost.
  { rewrite Hsplit, fmap_app in Hnd. apply NoDup_app in Hnd as (_ & _ & Hnd).
    simpl in Hnd. by apply NoDup_cons in Hnd as [? _]. }
  rewrite Hsplit, operation_loop_app in Hloop.
  apply bind_Ok in Hloop as (st1 & Hloop1 & Hloop).
  apply operation_loop_cons_Ok in Hloop as (st2 & Hstep & Hloop2).
  destruct (operation_loop_frame _ _ _ _ k Hloop1 Hpre) as [_ Hb1].
  destruct (operation_loop_seqs _ _ _ _ k Hloop1) as [Hids1 _].
  destruct (operation_loop_mono _ _ _ _ Hloop1) as (Hs1 & _).
  destruct (operation_loop_frame _ _ _ _ k Hloop2 Hpost) as [_ Hb2].
  pose proof (operation_loop_table _ _ _ _ k Hloop2 Hpost) as Htab2.
  destruct st1 as [[h1 held1] rem1].
  apply operation_step_Some in Hstep
    as (b0 & b2 & hl' & held' & rem' & -> & Hb0 & Hcase).
  rewrite Hle in Hcase. destruct Hcase as ((b1 & Hrel & Hloc) & _).
  simpl in *. exists b0, b2. rewrite <- Hb1. split; [done|].
  rewrite Hb2, od_get_set_eq. split; [done|].
  apply update_location_Ok in Hloc as (_ & _ & Hlog & _).
  apply record_release_recorded in Hrel.
  rewrite Hids1, length_app, length_fmap in Hrel. rewrite <- Hs1.
  unfold departure_recorded in *. destruct (_has_schedule h1) eqn:Hs.
  - destruct Hrel as (vd & Hvd & Heps & Htab). exists vd.
    rewrite Hlog, Htab2. done.
  - destruct Hrel as [Heps Htab]. rewrite Hlog. split; [done|].
    pose proof (operation_loop_plain _ _ _ _ Hloop2 eq_refl) as Hp2.
    pose proof (operation_loop_plain _ _ _ _ Hloop1) as Hp1.
    simpl in Hp1, Hp2. rewrite Hp2, Htab. apply Hp1. congruence.
Qed.

End holder_epsilon_table.

Section holder_epsilon_position.
Import Holder.
Implicit Types (h : Holder.t) (k : key) (st : loop_state)
  (items : list (key * option Q)).

(** Where the release of [k] stands in the sequence of departed buses. *)
Lemma operation_loop_position t0 items st st' k ht :
  OD.get k items = Some (Some ht) → Qle_bool (ht - 1) 0 = true →
  operation_loop t0 items st = Ok st' →
  seq_get (route_stop_departure_bus_id_seq (holder_log st'.1.1)) k.1.2 k.1.1
    !! (length (seq_get (route_stop_departure_bus_id_seq (holder_log st.1.1))
                  k.1.2 k.1.1) +
        length (same_stop_route k (expired (visited_before k items))))%nat
  = Some k.2.
Proof.
  intros Hget Hle Hloop.
  destruct (visited_before_split _ _ _ Hget) as [post Hsplit].
  destruct (operation_loop_seqs _ _ _ _ k Hloop) as [-> _].
  remember (visited_before k items) as pre eqn:Hpre. clear Hpre.
  rewrite Hsplit.
  rewrite expired_app, expired_cons, Hle, same_stop_route_app.
  replace (same_stop_route k (k :: expired post))
    with (k :: same_stop_route k (expired post))
    by (unfold same_stop_route; by rewrite filter_cons, decide_True).
  rewrite fmap_app, fmap_cons, app_assoc.
  rewrite <- (length_fmap snd (same_stop_route k _)), <- length_app.
  by rewrite list_lookup_middle.
Qed.

End holder_epsilon_position.

(** C2. One tick of the holder on an entry [k]: an assigned hold time is
    decremented by one; if the result is zero or below the bus leaves both
    maps, is in the list of buses released at its stop, and its departure is
    on record: the departure tick in its running log, tick and bus id in the
    holder's departure sequences, the bus id at the position [count] that
    [len(bus_id_seq)] had when the hold ended, and, with a schedule, the
    departure deviation [t - (reference departure + headway * count)] in
    the bus's running log and in the holder's epsilon table (without a
    schedule neither is written). Otherwise the bus stays with the
    decremented time. An undecided entry keeps its [None] and its bus
    untouched, and nothing is released besides the expired entries. *)
Theorem holder_operation_tick
    (t0 : Z) (h h' : Holder.t) (released : OD.odict string (list Bus))
    (k : Holder.key) :
  NoDup (OD.keys (Holder._identifier_time h)) →
  Holder.operation t0 h = Ok (h', released) →
  match OD.get k (Holder._identifier_time h) with
  | Some (Some hold_time) =>
      ∃ b0 b,
        OD.get k (Holder._identifier_bus h) = Some b0 ∧
        _bus_id b = _bus_id b0 ∧ _route_id b = _route_id b0 ∧
        if Qle_bool (hold_time - 1) 0 then
          OD.get k (Holder._identifier_time h') = None ∧
          OD.get k (Holder._identifier_bus h') = None ∧
          b ∈ default [] (OD.get k.1.1 released) ∧
          stop_departure_time (bus_log b) !! k.1.1 = Some t0 ∧
          k.2 ∈ seq_get (route_stop_departure_bus_id_seq (Holder.holder_log h'))
                  k.1.2 k.1.1 ∧
          inject_Z t0 ∈ seq_get (route_stop_departure_time_seq (Holder.holder_log h'))
                          k.1.2 k.1.1 ∧
          let count := Holder.departure_idx_count h k in
          seq_get (route_stop_departure_bus_id_seq (Holder.holder_log h'))
            k.1.2 k.1.1 !! count = Some k.2 ∧
          if Holder._has_schedule h then
            ∃ vd,
              virtual_bus_stop_departure_time (bus_log b0) !! k.1.1 = Some vd ∧
              let epsilon_departure :=
                epsilon_of t0 vd (log_schedule_headway (bus_log b0)) count in
              stop_epsilon_departure (bus_log b) !! k.1.1 = Some epsilon_departure ∧
              Holder.epsilon_departure_of (Holder.holder_log h') k =
                Some epsilon_departure
          else
            stop_epsilon_departure (bus_log b) = stop_epsilon_departure (bus_log b0) ∧
            route_stop_bus_epsilon_departure (Holder.holder_log h') =
              route_stop_bus_epsilon_departure (Holder.holder_log h)
        else
          OD.get k (Holder._identifier_time h') = Some (Some (hold_time - 1)%Q) ∧
          OD.get k (Holder._identifier_bus h') = Some b ∧
          bus_log b = bus_log b0
  | Some None =>
      OD.get k (Holder._identifier_time h') = Some None ∧
      OD.get k (Holder._identifier_bus h') = OD.get k (Holder._identifier_bus h)
  | None =>
      OD.get k (Holder._identifier_time h') = None ∧
      OD.get k (Holder._identifier_bus h') = OD.get k (Holder._identifier_bus h)
  end ∧
  Holder.released_count released =
    length (Holder.expired (Holder._identifier_time h)).
Proof.
  intros Hnd Hop. unfold Holder.operation in Hop.
  apply bind_Ok in Hop as ([[h1 held] rem] & Hloop & Hop).
  apply bind_Ok in Hop as (h2 & Hrem & Hop). injection Hop as <- <-.
  pose proof (operation_loop_remove _ _ _ _ Hloop) as Hr. simpl in Hr. subst rem.
  apply remove_loop_Ok in Hrem as (Hlog & _ & Hget).
  destruct (Hget k) as [Ht Hb]. rewrite Ht, Hb, Hlog. clear Hget Ht Hb.
  split; [|by apply operation_loop_count in Hloop].
  destruct (OD.get k (Holder._identifier_time h)) as [v|] eqn:Hk.
  - pose proof (od_get_elem _ _ _ Hk) as Hin.
    pose proof (operation_loop_entry t0 _ _ _ k v Hnd Hin Hloop) as Hent.
    unfold Holder.entry_outcome in Hent. simpl in Hent. destruct v as [ht|].
    + destruct Hent as (Htime & b0 & b2 & Hb0 & Hb2 & Hid & Hroute & Hcase).
      exists b0, b2. split_and!; [done..|].
      destruct (Qle_bool (ht - 1) 0) eqn:Hle.
      * rewrite !decide_True by (apply elem_of_expired; eauto).
        destruct Hcase as (Hrel & Hdep & Hids & Hts).
        split_and!; [done..|]. cbv zeta. split.
        { apply (operation_loop_position _ _ _ _ _ _ Hk Hle Hloop). }
        destruct (operation_loop_release _ _ _ _ _ _ Hnd Hk Hle Hloop)
          as (b0' & b2' & Hb0' & Hb2' & Hrec).
        simpl in Hb0', Hb2', Hrec.
        assert (b0' = b0) as -> by congruence.
        assert (b2' = b2) as -> by congruence.
        exact Hrec.
      * rewrite !decide_False; [done|..];
          intros (ht' & Hin' & Hle')%elem_of_expired;
          apply (od_get_Some_elem _ _ _ Hnd) in Hin'; congruence.
    + destruct Hent as [Htime Hbus].
      rewrite !decide_False; [by rewrite Htime, Hbus, Hk|..];
        intros (ht' & Hin' & Hle')%elem_of_expired;
        apply (od_get_Some_elem _ _ _ Hnd) in Hin'; congruence.
  - assert (k ∉ (Holder._identifier_time h).*1) as Hnin by by apply od_get_None_keys.
    destruct (operation_loop_frame _ _ _ _ k Hloop Hnin) as [Ht Hb]. simpl in *.
    rewrite !decide_False; [by rewrite Ht, Hb, Hk|..];
      intros (ht' & Hin' & Hle')%elem_of_expired;
      apply (od_get_Some_elem _ _ _ Hnd) in Hin'; congruence.
Qed.

Lemma holder_second_hold_action_fails_witness :
  OD.get Demo.k1 (Holder._identifier_time Demo.holder1) = Some None ∧
  raises (Holder.set_hold_action Demo.action2 Demo.holder4).
Proof.
  apply (holder_second_hold_action_fails "s1" (Demo.new_bus "1") 370
           Demo.holder0 Demo.holder1 Demo.holder2 Demo.holder3 Demo.holder4
           Demo.evs0 Demo.evs1 Demo.action1 Demo.action2).
  - vm_compute. reflexivity.
  - intros s b t1 Hin.
    repeat (apply elem_of_cons in Hin as [Hin|Hin];
            [try discriminate Hin; injection Hin as -> -> ->;
             intros Heq; vm_compute in Heq; discriminate Heq|]).
    by apply elem_of_nil in Hin.
  - vm_compute. reflexivity.
  - left.
  - vm_compute. reflexivity.
  - vm_compute. reflexivity.
  - right. left.
Defined.

Lemma holder_hold_action_unregistered_raises_witness :
  raises (Holder.set_hold_action [(Demo.k1, 5%Q)] (Demo.tick.1)).
Proof.
  apply (holder_hold_action_unregistered_raises
           [(Demo.k1, 5%Q)] (Demo.tick.1) Demo.k1).
  - left.
  - vm_compute. reflexivity.
Defined.

Lemma holder_operation_tick_witness :
  Holder.released_count (Demo.tick.2) = 1%nat.
Proof.
  apply (holder_operation_tick 372 Demo.holder4 (Demo.tick.1) (Demo.tick.2) Demo.k1).
  - apply (bool_decide_unpack _). vm_compute. exact I.
  - vm_compute. reflexivity.
Defined.

(** ** Terminal: dispatching *)

Section terminal_dispatch.
Import Terminal.
Implicit Types (term : Terminal.t) (route : Route_Details) (r : string).

Lemma Bus_init_Ok bus_id route nd vb hold b :
  Bus_init bus_id route nd vb hold = Ok b →
  _bus_id b = bus_id ∧ _route_id b = route_id route ∧
  _is_need_to_hold b = hold ∧ _status b = running_on_link ∧
  log_schedule_headway (bus_log b) = schedule_headway route.
Proof.
  unfold Bus_init. intros H.
  apply bind_Ok in H as (va & _ & H). apply bind_Ok in H as (vr & _ & H).
  apply bind_Ok in H as (vd & _ & H). by injection H as <-.
Qed.

Lemma due_Ok route t0 b :
  due route t0 = Ok b →
  py_int (schedule_headway route) ≠ 0 ∧
  (b = true ↔ t0 `mod` py_int (schedule_headway route) = 0 ∧ t0 > 0).
Proof.
  unfold due. case_decide as Hm; [discriminate|]. intros [= <-].
  split; [done|]. rewrite andb_true_iff, !bool_decide_eq_true. done.
Qed.

Lemma dispatch_route_Ok t0 route term acc term' acc' :
  dispatch_route t0 route (term, acc) = Ok (term', acc') →
  same_setup term term' ∧
  ∃ is_due, due route t0 = Ok is_due ∧
    if is_due then
      ∃ c b,
        _route_round_count term !! route_id route = Some c ∧
        _route_round_count term' =
          <[route_id route := c + 1]> (_route_round_count term) ∧
        acc' = acc ++ [b] ∧ _route_id b = route_id route ∧
        dispatch_record b = (pretty c, Some t0) ∧
        _is_need_to_hold b =
          Qlt_bool (_hold_start_time term) (inject_Z t0) &&
          Qlt_bool (inject_Z t0) (_hold_end_time term)
    else term' = term ∧ acc' = acc.
Proof.
  unfold dispatch_route. intros H.
  apply bind_Ok in H as (is_due & Hdue & H). destruct is_due.
  - apply bind_Ok in H as (c & Hc%getitem_Ok & H).
    apply bind_Ok in H as (nd & _ & H).
    apply bind_Ok in H as (b & Hb & H). injection H as <- <-.
    split; [done|]. exists true. split; [done|].
    apply Bus_init_Ok in Hb as (Hid & Hroute & Hhold & _).
    eexists c, _. split_and!; [done|done|reflexivity|..].
    + by destruct b.
    + unfold dispatch_record.
      destruct b as [? ? ? ? ? ? ? ? ? ? ? ? ? ? ? l ? ?]; simpl in *. subst.
      by destruct l.
    + by destruct b.
  - injection H as <- <-. split; [done|]. by exists false.
Qed.

Lemma of_route_app r (l1 l2 : list Bus) :
  of_route r (l1 ++ l2) = of_route r l1 ++ of_route r l2.
Proof. apply filter_app. Qed.

Lemma of_route_singleton r (b : Bus) :
  of_route r [b] = if decide (_route_id b = r) then [b] else [].
Proof. unfold of_route. rewrite filter_cons, filter_nil. by case_decide. Qed.

(** The routes of the loop other than [r] leave the counter and the buses
    of [r] alone. *)
Lemma dispatch_loop_frame t0 routes term acc term' acc' r :
  dispatch_loop t0 routes (term, acc) = Ok (term', acc') →
  r ∉ route_id <$> routes →
  same_setup term term' ∧
  _route_round_count term' !! r = _route_round_count term !! r ∧
  of_route r acc' = of_route r acc.
Proof.
  revert term acc. induction routes as [|route routes IH]; intros term acc H Hnin.
  - simpl in H. by injection H as <- <-.
  - simpl in H. apply bind_Ok in H as ([term1 acc1] & Hstep & H).
    rewrite fmap_cons in Hnin. apply not_elem_of_cons in Hnin as [Hne Hnin].
    destruct (IH _ _ H Hnin) as (Hsame & -> & ->).
    apply dispatch_route_Ok in Hstep as (Hsame1 & is_due & _ & Hcase).
    split.
    { unfold same_setup in *. destruct Hsame as (-> & -> & -> & -> & ->). done. }
    destruct is_due.
    + destruct Hcase as (c & b & _ & -> & -> & Hroute & _).
      rewrite lookup_insert_ne by done. split; [done|].
      rewrite of_route_app, of_route_singleton, decide_False, app_nil_r; congruence.
    + by destruct Hcase as [-> ->].
Qed.

(** One tick, seen from one route. *)
Lemma dispatch_loop_route t0 routes term acc term' acc' route :
  NoDup (route_id <$> routes) → route ∈ routes →
  dispatch_loop t0 routes (term, acc) = Ok (term', acc') →
  same_setup term term' ∧
  ∃ is_due, due route t0 = Ok is_due ∧
    if is_due then
      ∃ c b,
        _route_round_count term !! route_id route = Some c ∧
        _route_round_count term' !! route_id route = Some (c + 1) ∧
        of_route (route_id route) acc' = of_route (route_id route) acc ++ [b] ∧
        dispatch_record b = (pretty c, Some t0) ∧
        _is_need_to_hold b =
          Qlt_bool (_hold_start_time term) (inject_Z t0) &&
          Qlt_bool (inject_Z t0) (_hold_end_time term)
    else
      _route_round_count term' !! route_id route =
        _route_round_count term !! route_id route ∧
      of_route (route_id route) acc' = of_route (route_id route) acc.
Proof.
  revert term acc. induction routes as [|route0 routes IH]; intros term acc Hnd Hin H.
  - by apply elem_of_nil in Hin.
  - simpl in H. apply bind_Ok in H as ([term1 acc1] & Hstep & H).
    rewrite fmap_cons in Hnd. apply NoDup_cons in Hnd as [Hnin Hnd].
    apply dispatch_route_Ok in Hstep as (Hsame1 & is_due & Hdue & Hcase).
    apply elem_of_cons in Hin as [->|Hin].
    + destruct (dispatch_loop_frame _ _ _ _ _ _ _ H Hnin) as (Hsame & Hcount & Hbuses).
      split.
      { unfold same_setup in *. destruct Hsame as (-> & -> & -> & -> & ->). done. }
      exists is_due. split; [done|]. rewrite Hcount, Hbuses. destruct is_due.
      * destruct Hcase as (c & b & Hc & -> & -> & Hroute & Hrec & Hhold).
        exists c, b. rewrite lookup_insert_eq.
        rewrite of_route_app, of_route_singleton, decide_True by done. done.
      * by destruct Hcase as [-> ->].
    + assert (route_id route ≠ route_id route0) as Hne.
      { intros Heq. apply Hnin. rewrite <- Heq. apply list_elem_of_fmap. eauto. }
      destruct (IH _ _ Hnd Hin H) as (Hsame & is_due' & Hdue' & Hcase').
      split.
      { unfold same_setup in *. destruct Hsame as (-> & -> & -> & -> & ->). done. }
      exists is_due'. split; [done|].
      assert (_route_round_count term1 !! route_id route =
                _route_round_count term !! route_id route ∧
              of_route (route_id route) acc1 = of_route (route_id route) acc ∧
              _hold_start_time term1 = _hold_start_time term ∧
              _hold_end_time term1 = _hold_end_time term) as (Hc1 & Hb1 & Hs1 & He1).
      { destruct Hsame1 as (_ & _ & _ & -> & ->). destruct is_due.
        - destruct Hcase as (c & b & _ & -> & -> & Hroute & _).
          rewrite lookup_insert_ne by done.
          rewrite of_route_app, of_route_singleton, decide_False, app_nil_r;
            [done|congruence].
        - by destruct Hcase as [-> ->]. }
      by rewrite Hc1, Hb1, Hs1, He1 in Hcase'.
Qed.

End terminal_dispatch.

Section terminal_episode.
Import Terminal.
Implicit Types (term : Terminal.t) (route : Route_Details).

Lemma div_step_due (m s : Z) : 0 < m → s `mod` m = 0 → s `div` m = (s - 1) `div` m + 1.
Proof. intros Hm Hs. Z.div_mod_to_equations. nia. Qed.

Lemma div_step_not_due (m s : Z) : 0 < m → s `mod` m ≠ 0 → s `div` m = (s - 1) `div` m.
Proof. intros Hm Hs. Z.div_mod_to_equations. nia. Qed.

Lemma div_mod_exact (m s : Z) : 0 < m → s `mod` m = 0 → s `div` m * m = s.
Proof. intros Hm Hs. Z.div_mod_to_equations. nia. Qed.

Lemma dispatch_route_view t0 term term' buses route :
  NoDup (route_id <$> _routes term) → route ∈ _routes term →
  dispatch t0 term = Ok (term', buses) →
  same_setup term term' ∧
  ∃ is_due, due route t0 = Ok is_due ∧
    if is_due then
      ∃ c b,
        _route_round_count term !! route_id route = Some c ∧
        _route_round_count term' !! route_id route = Some (c + 1) ∧
        of_route (route_id route) buses = [b] ∧
        dispatch_record b = (pretty c, Some t0) ∧
        _is_need_to_hold b =
          Qlt_bool (_hold_start_time term) (inject_Z t0) &&
          Qlt_bool (inject_Z t0) (_hold_end_time term)
    else
      _route_round_count term' !! route_id route =
        _route_round_count term !! route_id route ∧
      of_route (route_id route) buses = [].
Proof. intros Hnd Hin H. by apply (dispatch_loop_route _ _ _ _ _ _ _ Hnd Hin H). Qed.

(** The ticks [start .. start + n - 1] of one route, for [start >= 1]:
    the counter stands at one more than the number of multiples of the
    headway passed so far. *)
Lemma episode_route (n : nat) (start : Z) term term' buses route :
  let m := py_int (schedule_headway route) in
  NoDup (route_id <$> _routes term) → route ∈ _routes term →
  0 < m → 1 ≤ start →
  _route_round_count term !! route_id route = Some (1 + (start - 1) `div` m) →
  episode n start term = Ok (term', buses) →
  same_setup term term' ∧
  _route_round_count term' !! route_id route =
    Some (1 + (start + Z.of_nat n - 1) `div` m) ∧
  dispatch_record <$> of_route (route_id route) buses =
    (fun k : Z => (pretty k, Some (k * m))) <$>
      seqZ (1 + (start - 1) `div` m)
           ((start + Z.of_nat n - 1) `div` m - (start - 1) `div` m).
Proof.
  intros m. revert start term buses.
  induction n as [|n IH]; intros start term buses Hnd Hin Hm Hstart Hc H.
  - simpl in H. injection H as <- <-. split_and!; [done| |].
    + rewrite Hc. do 3 f_equal. lia.
    + replace (start + Z.of_nat 0 - 1) with (start - 1) by lia.
      by rewrite Z.sub_diag.
  - simpl in H. apply bind_Ok in H as ([term1 now] & Hnow & H).
    apply bind_Ok in H as ([term2 later] & Hlater & H). injection H as <- <-.
    destruct (dispatch_route_view _ _ _ _ _ Hnd Hin Hnow)
      as (Hsame & is_due & Hdue & Hcase).
    apply due_Ok in Hdue as [_ Hdue]. fold m in Hdue.
    assert (NoDup (route_id <$> _routes term1) ∧ route ∈ _routes term1) as [Hnd1 Hin1].
    { destruct Hsame as (-> & _). done. }
    replace (start + Z.of_nat (S n) - 1) with (start + 1 + Z.of_nat n - 1) by lia.
    assert ((start - 1) `div` m ≤ start `div` m) as Hmono1
      by (apply Z.div_le_mono; lia).
    assert (start `div` m ≤ (start + 1 + Z.of_nat n - 1) `div` m) as Hmono2
      by (apply Z.div_le_mono; lia).
    rewrite of_route_app, fmap_app.
    destruct is_due.
    + destruct Hcase as (c & b & Hc0 & Hc1 & Hb & Hrec & _).
      destruct Hdue as [[Hmod _] _]; [done|].
      pose proof (div_step_due m start Hm Hmod) as Hdiv.
      pose proof (div_mod_exact m start Hm Hmod) as Hexact.
      rewrite Hc in Hc0. injection Hc0 as <-.
      destruct (IH (start + 1) term1 later Hnd1 Hin1 Hm) as (Hsame2 & Hc2 & Hl);
        [lia| |done|].
      { rewrite Hc1. f_equal. replace (start + 1 - 1) with start by lia. lia. }
      split_and!.
      * unfold same_setup in *. destruct Hsame2 as (-> & -> & -> & -> & ->). done.
      * done.
      * rewrite Hb, Hl. simpl. rewrite Hrec.
        replace (start + 1 - 1) with start by lia.
        rewrite (seqZ_cons (1 + (start - 1) `div` m)) by lia. simpl.
        f_equal; [do 2 f_equal; lia|]. do 2 f_equal; lia.
    + destruct Hcase as (Hc1 & Hb).
      assert (start `mod` m ≠ 0) as Hmod.
      { intros Hmod. destruct Hdue as [_ Hd]. discriminate Hd. split; [done|lia]. }
      pose proof (div_step_not_due m start Hm Hmod) as Hdiv.
      destruct (IH (start + 1) term1 later Hnd1 Hin1 Hm) as (Hsame2 & Hc2 & Hl);
        [lia| |done|].
      { rewrite Hc1, Hc. do 2 f_equal. replace (start + 1 - 1) with start by lia. lia. }
      split_and!.
      * unfold same_setup in *. destruct Hsame2 as (-> & -> & -> & -> & ->). done.
      * done.
      * rewrite Hb, Hl. simpl.
        replace (start + 1 - 1) with start by lia. by rewrite Hdiv.
Qed.

End terminal_episode.

Section terminal_total.
Import Terminal.
Implicit Types (term : Terminal.t) (route : Route_Details).

Lemma dispatch_route_total t0 route term acc :
  known route term →
  ∃ term' acc', dispatch_route t0 route (term, acc) = Ok (term', acc').
Proof.
  intros (Hm & [c Hc] & [nd Hnd] & [va Hva] & [vr Hvr] & [vd Hvd]).
  unfold dispatch_route, due. rewrite decide_False by done. simpl.
  destruct (_ && _); [|eauto].
  rewrite Hc, Hnd. simpl. unfold Bus_init. rewrite Hva, Hvr, Hvd. simpl. eauto.
Qed.

Lemma dispatch_route_known t0 route term acc term' acc' route' :
  dispatch_route t0 route (term, acc) = Ok (term', acc') →
  known route' term → known route' term'.
Proof.
  intros H (Hm & Hc & Hnd & Hva & Hvr & Hvd).
  apply dispatch_route_Ok in H as ((_ & Hn & Hv & _) & is_due & _ & Hcase).
  unfold known. rewrite Hn, Hv. split_and!; [done| |done..].
  destruct is_due.
  - destruct Hcase as (c & b & _ & -> & _). rewrite lookup_insert.
    case_decide; [by eexists | done].
  - by destruct Hcase as [-> _].
Qed.

Lemma dispatch_loop_total t0 routes term acc :
  (∀ route, route ∈ routes → known route term) →
  ∃ term' acc',
    dispatch_loop t0 routes (term, acc) = Ok (term', acc') ∧
    _routes term' = _routes term ∧
    ∀ route', known route' term → known route' term'.
Proof.
  revert term acc. induction routes as [|route routes IH]; intros term acc Hk.
  - simpl. eauto.
  - destruct (dispatch_route_total t0 route term acc) as (term1 & acc1 & Hstep).
    { apply Hk. left. }
    destruct (IH term1 acc1) as (term' & acc' & Hloop & Hroutes & Hkeep).
    { intros route' Hin. apply (dispatch_route_known _ _ _ _ _ _ _ Hstep).
      apply Hk. by right. }
    exists term', acc'. cbn [dispatch_loop]. rewrite Hstep. simpl.
    split_and!; [done| |].
    + rewrite Hroutes. by apply dispatch_route_Ok in Hstep as ((-> & _) & _).
    + intros route' Hr. by apply Hkeep, (dispatch_route_known _ _ _ _ _ _ _ Hstep).
Qed.

Lemma dispatch_total t0 term :
  ready term → ∃ term' buses, dispatch t0 term = Ok (term', buses) ∧ ready term'.
Proof.
  intros Hready. destruct (dispatch_loop_total t0 (_routes term) term [] Hready)
    as (term' & buses & Hloop & Hroutes & Hkeep).
  exists term', buses. split; [done|]. intros route Hin. apply Hkeep, Hready.
  by rewrite <- Hroutes.
Qed.

(** With its lookups in place an episode of any length runs to its end. *)
Lemma episode_total (n : nat) (start : Z) term :
  ready term → ∃ term' buses, episode n start term = Ok (term', buses).
Proof.
  revert start term. induction n as [|n IH]; intros start term Hready.
  - simpl. eauto.
  - destruct (dispatch_total start term Hready) as (term1 & now & Hnow & Hready1).
    destruct (IH (start + 1) term1 Hready1) as (term2 & later & Hlater).
    cbn [episode]. rewrite Hnow. simpl. rewrite Hlater. simpl. eauto.
Qed.

End terminal_total.

(** C3, with the headway as the code uses it. The dispatching condition is
    [t mod int(schedule_headway) == 0 and t > 0]: the configured headway is
    truncated to an integer [m] first. For a route of the terminal with
    [m > 0]: a tick dispatches one bus of the route when the condition
    holds and none otherwise; over an episode that starts at tick 0 with the
    counter at 1, the buses of the route are, in order, bus ["k"] dispatched
    at tick [k * m] for [k = 1, 2, ...] up to the last multiple of [m] below
    the duration, so no two share a tick and the ids count up from 1; and
    the episode runs to its end when the terminal's lookups are in place. *)
Theorem terminal_dispatch_truncated_headway
    (term : Terminal.t) (route : Route_Details) :
  let m := py_int (schedule_headway route) in
  let r := route_id route in
  NoDup (route_id <$> Terminal._routes term) →
  route ∈ Terminal._routes term →
  0 < m →
  (∀ t0 term' buses,
     Terminal.dispatch t0 term = Ok (term', buses) →
     if bool_decide (t0 `mod` m = 0 ∧ t0 > 0)
     then ∃ b, Terminal.of_route r buses = [b] ∧
               dispatch_time (bus_log b) = Some t0
     else Terminal.of_route r buses = []) ∧
  (∀ (duration : nat) term' buses,
     Terminal._route_round_count term !! r = Some 1 →
     Terminal.episode duration 0 term = Ok (term', buses) →
     Terminal.dispatch_record <$> Terminal.of_route r buses =
       (fun k : Z => (pretty k, Some (k * m))) <$>
         seqZ 1 ((Z.of_nat duration - 1) `div` m)) ∧
  (Terminal.ready term →
   ∀ duration : nat, ∃ term' buses,
     Terminal.episode duration 0 term = Ok (term', buses)).
Proof.
  intros m r Hnd Hin Hm. subst m r. split_and!.
  - intros t0 term' buses H.
    destruct (dispatch_route_view _ _ _ _ _ Hnd Hin H) as (_ & is_due & Hdue & Hcase).
    apply due_Ok in Hdue as [_ Hdue].
    destruct is_due.
    + rewrite bool_decide_eq_true_2 by by apply Hdue.
      destruct Hcase as (c & b & _ & _ & Hb & Hrec & _).
      exists b. split; [done|]. by injection Hrec.
    + rewrite bool_decide_eq_false_2; [by destruct Hcase|].
      intros Hd. apply Hdue in Hd. discriminate.
  - intros [|n] term' buses Hc H.
    + simpl in H. injection H as <- <-.
      rewrite seqZ_nil; [done|]. Z.div_mod_to_equations. nia.
    + simpl in H. apply bind_Ok in H as ([term1 now] & Hnow & H).
      apply bind_Ok in H as ([term2 later] & Hlater & H). injection H as <- <-.
      destruct (dispatch_route_view _ _ _ _ _ Hnd Hin Hnow)
        as (Hsame & is_due & Hdue & Hcase).
      apply due_Ok in Hdue as [_ Hdue]. destruct is_due.
      { destruct Hdue as [[_ Hpos] _]; [done|lia]. }
      destruct Hcase as [Hc1 Hnow_r].
      destruct (episode_route n 1 term1 term2 later route) as (_ & _ & Hl);
        [by destruct Hsame as (-> & _)..|done|lia| |done|].
      { rewrite Hc1, Hc. by rewrite Z.sub_diag, Z.div_0_l by lia. }
      rewrite of_route_app, fmap_app.
      rewrite Hnow_r, Hl. simpl.
      rewrite Z.sub_diag, Z.div_0_l by lia.
      rewrite Z.sub_0_r.
      by replace (1 + Z.of_nat n - 1) with (Z.of_nat (S n) - 1) by lia.
  - intros Hready duration. by apply episode_total.
Qed.

Lemma terminal_dispatch_truncated_headway_witness :
  Terminal.dispatch_record <$>
    Terminal.of_route "r" (ok_or (Demo.terminal, []) (Terminal.episode 601 0 Demo.terminal)).2 =
  [("1"%string, Some 300); ("2"%string, Some 600)].
Proof.
  assert (NoDup (route_id <$> Terminal._routes Demo.terminal)) as Hnd.
  { apply (bool_decide_unpack _). vm_compute. exact I. }
  assert (Demo.route ∈ Terminal._routes Demo.terminal) as Hin by left.
  assert (0 < py_int (schedule_headway Demo.route)) as Hm by (vm_compute; reflexivity).
  destruct (terminal_dispatch_truncated_headway Demo.terminal Demo.route Hnd Hin Hm)
    as (_ & Hepisode & _).
  refine (eq_trans (Hepisode 601%nat
            (ok_or (Demo.terminal, []) (Terminal.episode 601 0 Demo.terminal)).1
            (ok_or (Demo.terminal, []) (Terminal.episode 601 0 Demo.terminal)).2
            _ _) _).
  - vm_compute. reflexivity.
  - vm_compute. reflexivity.
  - vm_compute. reflexivity.
Defined.

(** C3 as worded fails for a fractional headway: with the headway 218.2 s
    a bus is dispatched at tick 218, which is no multiple of 218.2. *)
Lemma terminal_dispatch_headway_counterexample :
  (∃ term' b,
     Terminal.dispatch 218 Demo.terminal_b21 = Ok (term', [b]) ∧
     _route_id b = route_id Demo.route_b21 ∧
     dispatch_time (bus_log b) = Some 218) ∧
  ¬ Terminal.multiple_of_headway 218 (schedule_headway Demo.route_b21).
Proof.
  split.
  - eexists _, _. vm_compute. split_and!; reflexivity.
  - intros [k Hk]. unfold Qeq in Hk. simpl in Hk. lia.
Qed.

(** ** Stops: admission into a berth *)

Section stop_check_in.
Import Stop.
Implicit Types (berths : list (option Bus)) (s : Stop.t).

(** Scanning upward from berth [k]: the loop keeps its target when berth
    [k] is not free, and otherwise ends on the last berth of the run of free
    berths that starts at [k]. *)
Lemma check_in_loop_upward berths (m k : nat) (target : option nat) :
  (k + m = length berths)%nat →
  (check_in_loop berths (seq k m) target = target ∧ ¬ free berths k) ∨
  (∃ b, check_in_loop berths (seq k m) target = Some b ∧ (k ≤ b)%nat ∧
        (∀ j, (k ≤ j ≤ b)%nat → free berths j) ∧ ¬ free berths (S b)).
Proof.
  revert k target. induction m as [|m IH]; intros k target Hlen; simpl.
  - left. split; [done|]. unfold free. rewrite lookup_ge_None_2 by lia. done.
  - destruct (berths !! k) as [[bus|]|] eqn:Hk.
    + left. split; [done|]. unfold free. by rewrite Hk.
    + destruct (IH (S k) (Some k)) as [[-> Hnext]|(b & -> & Hle & Hfree & Hnext)];
        [lia|..]; right.
      * exists k. split_and!; [done|lia| |done].
        intros j Hj. by replace j with k by lia.
      * exists b. split_and!; [done|lia| |done].
        intros j Hj. destruct (decide (j = k)) as [->|]; [done|]. apply Hfree. lia.
    + left. split; [done|]. unfold free. by rewrite Hk.
Qed.

(** Scanning downward from berth [m - 1]: the loop keeps its target when
    that berth is not free (or there is none), and otherwise ends on the
    first berth of the run of free berths that ends at [m - 1]. *)
Lemma check_in_loop_downward berths (m : nat) (target : option nat) :
  (check_in_loop berths (reverse (seq 0 m)) target = target ∧
   ∀ top, S top = m → ¬ free berths top) ∨
  (∃ b, check_in_loop berths (reverse (seq 0 m)) target = Some b ∧ (b < m)%nat ∧
        (∀ j, (b ≤ j < m)%nat → free berths j) ∧
        ∀ below, S below = b → ¬ free berths below).
Proof.
  revert target. induction m as [|m IH]; intros target.
  - left. split; [done|]. intros top Htop. lia.
  - rewrite seq_S, reverse_app. simpl.
    destruct (berths !! m) as [[bus|]|] eqn:Hm.
    + left. split; [done|]. intros top [= ->]. unfold free. by rewrite Hm.
    + destruct (IH (Some m)) as [[-> Hnext]|(b & -> & Hlt & Hfree & Hnext)]; right.
      * exists m. split_and!; [done|lia| |done].
        intros j Hj. by replace j with m by lia.
      * exists b. split_and!; [done|lia| |done].
        intros j Hj. destruct (decide (j = m)) as [->|]; [done|]. apply Hfree. lia.
    + left. split; [done|]. intros top [= ->]. unfold free. by rewrite Hm.
Qed.

End stop_check_in.

(** C4, as the code has it. Under [FO] the scan runs from the last berth
    backward over free berths and stops at the first occupied one; the
    target is the last berth it saw free, that is the most-upstream berth of
    the run of free berths at the downstream end. Under [FIFO] the scan runs
    from berth 0 forward; the target is the most-downstream berth of the run
    of free berths at the upstream end. No target is selected exactly when
    that run is empty: the last berth (FO) or berth 0 (FIFO) is occupied, or
    there is no berth. *)
Theorem stop_check_in_target (s : Stop.t) (b : nat) :
  let berths := Stop._buses_in_berth s in
  let n := length berths in
  match Stop._queue_rule s with
  | FO =>
      (Stop._queue_rule_check_in s = Some b ↔
         (b < n)%nat ∧ (∀ j, (b ≤ j < n)%nat → Stop.free berths j) ∧
         (∀ below, S below = b → ¬ Stop.free berths below)) ∧
      (Stop._queue_rule_check_in s = None ↔
         ∀ top, S top = n → ¬ Stop.free berths top)
  | FIFO =>
      (Stop._queue_rule_check_in s = Some b ↔
         (∀ j, (j ≤ b)%nat → Stop.free berths j) ∧ ¬ Stop.free berths (S b)) ∧
      (Stop._queue_rule_check_in s = None ↔ ¬ Stop.free berths 0)
  end.
Proof.
  intros berths n. unfold Stop._queue_rule_check_in. fold berths. fold n.
  destruct (Stop._queue_rule s).
  - destruct (check_in_loop_downward berths n None)
      as [[-> Htop]|(b0 & -> & Hlt & Hfree & Hbelow)].
    + split; split; try done.
      intros (Hb & Hrun & _). exfalso. destruct n as [|top]; [lia|].
      apply (Htop top eq_refl), Hrun. lia.
    + split; split.
      * by intros [= <-].
      * intros (Hb & Hrun & Hbelow'). f_equal.
        destruct (lt_eq_lt_dec b0 b) as [[Hlt'|Heq]|Hgt]; [|done|]; exfalso.
        -- destruct b as [|below]; [lia|].
           apply (Hbelow' below eq_refl), Hfree. lia.
        -- destruct b0 as [|below]; [lia|].
           apply (Hbelow below eq_refl), Hrun. lia.
      * done.
      * intros Htop. exfalso. destruct n as [|top]; [lia|].
        apply (Htop top eq_refl), Hfree. lia.
  - destruct (check_in_loop_upward berths n 0 None eq_refl)
      as [[-> Hzero]|(b0 & -> & _ & Hfree & Hnext)].
    + split; split; try done.
      intros (Hrun & _). exfalso. apply Hzero, Hrun. lia.
    + split; split.
      * intros [= <-]. split; [|done]. intros j Hj. apply Hfree. lia.
      * intros (Hrun & Hnext'). f_equal.
        destruct (lt_eq_lt_dec b0 b) as [[Hlt'|Heq]|Hgt]; [|done|]; exfalso.
        -- apply Hnext, Hrun. lia.
        -- apply Hnext', Hfree. lia.
      * done.
      * intros Hzero. exfalso. apply Hzero, Hfree. lia.
Qed.

(** C4 as worded fails on two empty berths: FO admits into berth 0, not
    into the most-downstream free berth 1; FIFO admits into berth 1, not
    into the most-upstream free berth 0. *)
Lemma stop_check_in_counterexample :
  (Stop._queue_rule_check_in Demo.stop_fo = Some 0%nat ∧
   Stop.most_downstream_free (Stop._buses_in_berth Demo.stop_fo) = Some 1%nat) ∧
  (Stop._queue_rule_check_in Demo.stop_fifo = Some 1%nat ∧
   Stop.most_upstream_free (Stop._buses_in_berth Demo.stop_fifo) = Some 0%nat).
Proof. vm_compute. done. Qed.

(** ** Stops: leaving a berth *)

Section stop_check_out.
Import Stop.
Implicit Types (berths : list (option Bus)) (s : Stop.t).

(** The scan of the berths downstream of a berth: it answers [true] when it
    reaches the last berth over free berths only. *)
Lemma check_out_loop_Ok berths (berth_num : Z) (m k : nat) (can_go : bool) :
  Z.of_nat (length berths) = berth_num →
  (k + m = length berths)%nat →
  ∃ r, check_out_loop berths berth_num (seq k m) can_go = Ok r ∧
       (r = true ↔
        can_go = true ∨
        ((0 < m)%nat ∧ ∀ j, (k ≤ j < length berths)%nat → free berths j)).
Proof.
  intros Hnum. revert k can_go. induction m as [|m IH]; intros k can_go Hlen; simpl.
  - exists can_go. split; [done|]. split; [by left|]. intros [?|[? _]]; [done|lia].
  - destruct (lookup_lt_is_Some_2 berths k) as [[bus|] Hk]; [lia|..]; rewrite Hk.
    + exists can_go. split; [done|]. split; [by left|].
      intros [?|[_ Hfree]]; [done|]. specialize (Hfree k). unfold free in Hfree.
      rewrite Hk in Hfree. by discriminate Hfree; lia.
    + destruct (IH (S k) (if decide (Z.of_nat k = berth_num - 1) then true else can_go))
        as (r & -> & Hr); [lia|].
      exists r. split; [done|]. rewrite Hr. clear Hr IH.
      case_decide as Hlast.
      * split; [|by left]. intros _. right. split; [lia|].
        intros j Hj. by replace j with k by lia.
      * split.
        -- intros [?|[Hm Hfree]]; [by left|]. right. split; [lia|].
           intros j Hj. destruct (decide (j = k)) as [->|]; [done|]. apply Hfree. lia.
        -- intros [?|[_ Hfree]]; [by left|]. right. split; [lia|].
           intros j Hj. apply Hfree. lia.
Qed.

Lemma check_out_FIFO s (i : nat) :
  _queue_rule s = FIFO →
  Z.of_nat (length (_buses_in_berth s)) = _berth_num s →
  (i < length (_buses_in_berth s))%nat →
  ∃ can_go, _queue_rule_check_out i s = Ok can_go ∧
    (can_go = true ↔
     ∀ j, (i < j < length (_buses_in_berth s))%nat → free (_buses_in_berth s) j).
Proof.
  intros Hrule Hnum Hi. unfold _queue_rule_check_out. rewrite Hrule.
  case_decide as Hlast.
  - exists true. split; [done|]. split; [|done]. intros _ j Hj. lia.
  - destruct (check_out_loop_Ok (_buses_in_berth s) (_berth_num s)
                (Z.to_nat (_berth_num s - Z.of_nat (S i))) (S i) false Hnum)
      as (r & Hr & Hiff); [lia|].
    exists r. split; [done|]. rewrite Hiff. split.
    + intros [?|[_ Hfree]]; [done|]. intros j Hj. apply Hfree. lia.
    + intros Hfree. right. split; [lia|]. intros j Hj. apply Hfree. lia.
Qed.

Lemma check_leave_loop_Ok (m k : nat) s s' :
  Z.of_nat (length (_buses_in_berth s)) = _berth_num s →
  (k + m = length (_buses_in_berth s))%nat →
  check_leave_loop (seq k m) s = Ok s' →
  check_leave_keeps s s' ∧
  (∀ i, (i < k)%nat → _buses_in_berth s' !! i = _buses_in_berth s !! i) ∧
  (∀ i, _buses_in_berth s' !! i ≠ _buses_in_berth s !! i →
        _buses_in_berth s' !! i = Some None ∧
        (_queue_rule s = FIFO →
         ∀ j, (i < j < length (_buses_in_berth s))%nat →
              free (_buses_in_berth s) j)).
Proof.
  revert k s. induction m as [|m IH]; intros k s Hnum Hlen H; simpl in H.
  - injection H as <-. by split_and!.
  - destruct (_buses_in_berth s !! k) as [[bus|]|] eqn:Hk;
      [|by apply (IH (S k) s Hnum) in H as (? & Hlt & ?);
           [split_and!; [done| |done]; intros i Hi; apply Hlt; lia | lia]..].
    apply bind_Ok in H as (done_ & Hserved & H). destruct done_;
      [|by apply (IH (S k) s Hnum) in H as (? & Hlt & ?);
           [split_and!; [done| |done]; intros i Hi; apply Hlt; lia | lia]].
    apply bind_Ok in H as (can_go & Hout & H). destruct can_go;
      [|by apply (IH (S k) s Hnum) in H as (? & Hlt & ?);
           [split_and!; [done| |done]; intros i Hi; apply Hlt; lia | lia]].
    apply IH in H as (Hkeep & Hlt & Hchanged);
      [|destruct s; simpl in *; rewrite length_insert; first [done | lia]..].
    assert (k < length (_buses_in_berth s))%nat as Hkn by lia.
    assert (∀ i, i ≠ k →
              _buses_in_berth
                (set_leave_queue (_leave_queue s ++ [bus])
                   (set_buses_in_berth (<[k:=None]> (_buses_in_berth s)) s)) !! i =
              _buses_in_berth s !! i) as Hother.
    { intros i Hi. destruct s; simpl. by rewrite list_lookup_insert_ne. }
    split_and!.
    + unfold check_leave_keeps in *. destruct s; simpl in *.
      rewrite length_insert in Hkeep. done.
    + intros i Hi. rewrite Hlt by lia. apply Hother. lia.
    + intros i Hi. destruct (decide (i = k)) as [->|Hne].
      * split.
        -- rewrite Hlt by lia. destruct s; simpl in *.
           by rewrite list_lookup_insert_eq.
        -- intros Hrule.
           destruct (check_out_FIFO s k Hrule Hnum Hkn) as (can_go & Hout' & Hiff).
           rewrite Hout in Hout'. injection Hout' as <-. by apply Hiff.
      * rewrite <- (Hother i Hne) in Hi.
        destruct (Hchanged i Hi) as [Hnone Hdown]. split; [done|].
        intros Hrule j Hj.
        assert (k < i)%nat as Hki.
        { destruct (decide (i < k)%nat) as [Hik|]; [|lia].
          exfalso. apply Hi, Hlt. lia. }
        unfold free. rewrite <- (Hother j) by lia. apply Hdown; [by destruct s|].
        destruct s; simpl in *. rewrite length_insert. lia.
Qed.

End stop_check_out.

(** C5. For a berth index [i] of a stop whose berth list has its [berth_num]
    slots: under [FO] the egress check is always true; under [FIFO] it is
    true exactly when every berth downstream of [i] is empty. Accordingly a
    pass of [_check_leave] only ever vacates berths, and at a FIFO stop
    every berth it vacates had all berths downstream of it empty when the
    pass began. *)
Theorem stop_check_out_rule (s : Stop.t) (i : nat) :
  let berths := Stop._buses_in_berth s in
  Z.of_nat (length berths) = Stop._berth_num s →
  (i < length berths)%nat →
  match Stop._queue_rule s with
  | FO => Stop._queue_rule_check_out i s = Ok true
  | FIFO =>
      ∃ can_go, Stop._queue_rule_check_out i s = Ok can_go ∧
        (can_go = true ↔
         ∀ j, (i < j < length berths)%nat → Stop.free berths j)
  end ∧
  ∀ t0 s', Stop._check_leave t0 s = Ok s' →
    ∀ k, Stop._buses_in_berth s' !! k ≠ berths !! k →
      Stop._buses_in_berth s' !! k = Some None ∧
      (Stop._queue_rule s = FIFO →
       ∀ j, (k < j < length berths)%nat → Stop.free berths j).
Proof.
  intros berths Hnum Hi. split.
  - destruct (Stop._queue_rule s) eqn:Hrule.
    + unfold Stop._queue_rule_check_out. by rewrite Hrule.
    + by apply check_out_FIFO.
  - intros t0 s' H. unfold Stop._check_leave in H.
    by apply (check_leave_loop_Ok _ 0) in H as (_ & _ & ?).
Qed.

(** ** Stops: from the entry queue into a berth *)

Section stop_enter_berth.
Import Stop.
Implicit Types (s : Stop.t).

Lemma entry_queue_set_buses_in_berth v s :
  _entry_queue (set_buses_in_berth v s) = _entry_queue s.
Proof. by destruct s. Qed.
Lemma entry_queue_set_leave_queue v s :
  _entry_queue (set_leave_queue v s) = _entry_queue s.
Proof. by destruct s. Qed.
Lemma entry_queue_set_stop_log v s :
  _entry_queue (set_stop_log v s) = _entry_queue s.
Proof. by destruct s. Qed.
Lemma entry_queue_set_pax_queue v s :
  _entry_queue (set_pax_queue v s) = _entry_queue s.
Proof. by destruct s. Qed.

Lemma queueing_loop_Ok stop_id t0 (queue queue' : list Bus) :
  queueing_loop stop_id t0 queue = Ok queue' → Forall2 same_bus queue queue'.
Proof.
  revert queue'. induction queue as [|bus queue IH]; intros queue' H; simpl in H.
  - injection H as <-. constructor.
  - apply bind_Ok in H as (bus' & Hloc & H).
    apply bind_Ok in H as (rest' & Hrest & H). injection H as <-.
    constructor; [|by apply IH].
    apply update_location_Ok in Hloc as (Hid & Hroute & _ & Hstatus & _).
    unfold same_bus. rewrite Hid, Hroute, Hstatus. by destruct bus.
Qed.

Lemma check_in_free s target :
  _queue_rule_check_in s = Some target → free (_buses_in_berth s) target.
Proof.
  unfold _queue_rule_check_in. destruct (_queue_rule s).
  - destruct (check_in_loop_downward (_buses_in_berth s)
                (length (_buses_in_berth s)) None)
      as [[-> _]|(b & -> & Hlt & Hrun & _)]; [done|].
    intros [= <-]. apply Hrun. lia.
  - destruct (check_in_loop_upward (_buses_in_berth s)
                (length (_buses_in_berth s)) 0 None eq_refl)
      as [[-> _]|(b & -> & _ & Hrun & _)]; [done|].
    intros [= <-]. apply Hrun. lia.
Qed.

Lemma enter_berth_Ok t0 s s' :
  _enter_berth t0 s = Ok s' →
  match _entry_queue s with
  | [] => s' = s
  | head_bus :: waiting =>
      match _queue_rule_check_in s with
      | Some target =>
          _buses_in_berth s' =
            <[target := Some (set_status dwelling_at_stop head_bus)]>
              (_buses_in_berth s) ∧
          Forall2 same_bus waiting (_entry_queue s')
      | None =>
          _buses_in_berth s' = _buses_in_berth s ∧
          Forall2 same_bus (head_bus :: waiting) (_entry_queue s')
      end
  end.
Proof.
  unfold _enter_berth. destruct (_entry_queue s) as [|head_bus waiting] eqn:Hq.
  - by intros [= <-].
  - intros H. apply bind_Ok in H as (queue' & Hloop & H). injection H as <-.
    apply queueing_loop_Ok in Hloop.
    destruct (_queue_rule_check_in s) as [target|].
    + destruct s; simpl in *. done.
    + rewrite Hq in Hloop. destruct s; simpl in *. done.
Qed.

Lemma board_loop_entry_queue t0 range_ s s' :
  board_loop t0 range_ s = Ok s' → _entry_queue s' = _entry_queue s.
Proof.
  revert s. induction range_ as [|b rest IH]; intros s H; simpl in H.
  - by injection H as <-.
  - destruct (_buses_in_berth s !! b) as [[bus|]|]; [|by apply IH..].
    apply bind_Ok in H as ([q bus1] & _ & H).
    apply bind_Ok in H as (bus2 & _ & H).
    apply IH in H. by rewrite entry_queue_set_pax_queue,
      entry_queue_set_buses_in_berth in H.
Qed.

Lemma alight_loop_entry_queue t0 range_ s acc s' acc' :
  alight_loop t0 range_ (s, acc) = Ok (s', acc') →
  _entry_queue s' = _entry_queue s.
Proof.
  revert s acc. induction range_ as [|b rest IH]; intros s acc H; simpl in H.
  - by injection H as <- <-.
  - destruct (_buses_in_berth s !! b) as [[bus|]|]; [|by apply IH in H..].
    apply bind_Ok in H as ([bus1 leaving] & _ & H).
    apply bind_Ok in H as (bus2 & _ & H).
    apply IH in H. by rewrite entry_queue_set_buses_in_berth in H.
Qed.

Lemma leave_loop_entry_queue fuel t0 i s acc s' acc' :
  leave_loop fuel t0 i (s, acc) = Ok (s', acc') →
  _entry_queue s' = _entry_queue s.
Proof.
  revert i s acc. induction fuel as [|fuel IH]; intros i s acc H; simpl in H.
  - by injection H as <- <-.
  - destruct (_leave_queue s !! i) as [bus|]; [|by injection H as <- <-].
    apply bind_Ok in H as ([bus' log'] & _ & H).
    apply IH in H. by rewrite entry_queue_set_leave_queue,
      entry_queue_set_stop_log in H.
Qed.

Lemma check_leave_loop_entry_queue range_ s s' :
  check_leave_loop range_ s = Ok s' → _entry_queue s' = _entry_queue s.
Proof.
  revert s. induction range_ as [|b rest IH]; intros s H; simpl in H.
  - by injection H as <-.
  - destruct (_buses_in_berth s !! b) as [[bus|]|]; [|by apply IH..].
    apply bind_Ok in H as (done_ & _ & H). destruct done_; [|by apply IH].
    apply bind_Ok in H as (can_go & _ & H). destruct can_go; [|by apply IH].
    apply IH in H. by rewrite entry_queue_set_leave_queue,
      entry_queue_set_buses_in_berth in H.
Qed.

(** After [_enter_berth] nothing in the tick touches the entry queue. *)
Lemma operation_entry_queue t0 s s' leaving_buses leaving_paxs :
  operation t0 s = Ok (s', leaving_buses, leaving_paxs) →
  ∃ s1, _enter_berth t0 s = Ok s1 ∧ _entry_queue s' = _entry_queue s1.
Proof.
  unfold operation. intros H.
  apply bind_Ok in H as (s1 & Henter & H). exists s1. split; [done|].
  apply bind_Ok in H as (s2 & Hboard & H).
  apply bind_Ok in H as ([s3 paxs] & Halight & H).
  apply bind_Ok in H as (s4 & Hleave & H).
  apply bind_Ok in H as ([s5 buses] & Hout & H). injection H as <- <- <-.
  rewrite entry_queue_set_pax_queue.
  apply leave_loop_entry_queue in Hout as ->.
  apply check_leave_loop_entry_queue in Hleave as ->.
  apply board_loop_entry_queue in Hboard as <-.
  unfold _alight in Halight. destruct (class s2).
  - by injection Halight as <- <-.
  - by apply alight_loop_entry_queue in Halight.
Qed.

End stop_enter_berth.

(** C10. One tick of a stop admits at most one bus, the head of the entry
    queue: either nobody is admitted (berths as before, the whole queue
    still queueing, in order), or the head enters the target berth chosen by
    the queue rule, which was free, and exactly the buses behind it keep
    queueing, in order. The other phases of the tick leave the entry queue
    alone. *)
Theorem stop_admits_head_only
    (t0 : Z) (s s' : Stop.t) (leaving_buses : list Bus) (leaving_paxs : list Pax) :
  Stop.operation t0 s = Ok (s', leaving_buses, leaving_paxs) →
  ∃ s1,
    Stop._enter_berth t0 s = Ok s1 ∧
    Stop._entry_queue s' = Stop._entry_queue s1 ∧
    ((Stop._buses_in_berth s1 = Stop._buses_in_berth s ∧
      Forall2 Stop.same_bus (Stop._entry_queue s) (Stop._entry_queue s1)) ∨
     (∃ head_bus waiting target,
        Stop._entry_queue s = head_bus :: waiting ∧
        Stop._queue_rule_check_in s = Some target ∧
        Stop.free (Stop._buses_in_berth s) target ∧
        Stop._buses_in_berth s1 =
          <[target := Some (set_status dwelling_at_stop head_bus)]>
            (Stop._buses_in_berth s) ∧
        Forall2 Stop.same_bus waiting (Stop._entry_queue s1))).
Proof.
  intros H. apply operation_entry_queue in H as (s1 & Henter & Hq).
  exists s1. split_and!; [done..|].
  pose proof (enter_berth_Ok _ _ _ Henter) as Hcase.
  destruct (Stop._entry_queue s) as [|head_bus waiting] eqn:Hqueue.
  - subst s1. left. rewrite Hqueue. split; [done|]. constructor.
  - destruct (Stop._queue_rule_check_in s) as [target|] eqn:Hin.
    + right. exists head_bus, waiting, target.
      destruct Hcase as [Hberths Hrest]. split_and!; try done.
      by apply check_in_free.
    + left. done.
Qed.

(** ** Passenger queue: who may board *)

Section pax_queue_board.
Import PaxQueue.
Implicit Types (q : PaxQueue.t) (bus : Bus) (paxs : list Pax).

Lemma Qeq_bool_refl' (x : Q) : Qeq_bool x x = true.
Proof. apply Qeq_bool_iff. reflexivity. Qed.

Lemma pax_eqb_refl (p : Pax) : pax_eqb p p = true.
Proof.
  unfold pax_eqb. rewrite !bool_decide_eq_true_2 by done.
  rewrite Qeq_bool_refl'. simpl.
  destruct (alight_rate p) as [r|]; simpl; [by rewrite Qeq_bool_refl' | done].
Qed.

Lemma pax_eqb_arrival_time (p p' : Pax) :
  pax_eqb p p' = true → arrival_time p = arrival_time p'.
Proof.
  unfold pax_eqb. rewrite !andb_true_iff, !bool_decide_eq_true. tauto.
Qed.

(** [remove] after the element at [i] has been replaced by [x]: when no
    earlier element equals [x], it is the element at [i] that goes. *)
Lemma list_remove_at {A} (eqb : A → A → bool) (x : A) (l : list A) (i : nat) :
  (i < length l)%nat → eqb x x = true →
  (∀ j y, (j < i)%nat → l !! j = Some y → eqb y x = false) →
  list_remove eqb x (<[i := x]> l) = delete i l.
Proof.
  revert i. induction l as [|y l IH]; intros i Hi Hrefl Hbefore; simpl in Hi.
  - lia.
  - destruct i as [|i]; simpl.
    + by rewrite Hrefl.
    + rewrite (Hbefore 0%nat y) by (done || lia). f_equal. apply IH; [lia|done|].
      intros j z Hj Hz. apply (Hbefore (S j)); [lia|done].
Qed.

(** The first candidate of a filtered, position-tagged queue. *)
Lemma filter_imap_head {A} (P : nat * A → Prop) `{∀ x, Decision (P x)}
    (l : list A) (k i : nat) (x : A) rest :
  filter P (imap (fun j => pair (k + j)%nat) l) = (i, x) :: rest →
  (k ≤ i)%nat ∧ l !! (i - k)%nat = Some x ∧ P (i, x) ∧
  ∀ j y, (j < i - k)%nat → l !! j = Some y → ¬ P ((k + j)%nat, y).
Proof.
  revert k. induction l as [|y l IH]; intros k Hf; simpl in Hf; [done|].
  rewrite filter_cons in Hf. destruct (decide (P ((k + 0)%nat, y))) as [HP|HP].
  - injection Hf as <- <- _. replace (k + 0 - k)%nat with 0%nat by lia.
    split_and!; [lia|done|done|]. intros j z Hj. lia.
  - rewrite (imap_ext _ (fun j => pair (S k + j)%nat)) in Hf
      by (intros j z _; simpl; f_equal; lia).
    destruct (IH (S k) Hf) as (Hle & Hx & HPx & Hbefore).
    replace (i - k)%nat with (S (i - S k)) by lia.
    split_and!; [lia|done|done|].
    intros [|j] z Hj Hz; simpl in Hz.
    + injection Hz as <-. by replace (k + 0)%nat with k in HP |- * by lia.
    + replace (k + S j)%nat with (S k + j)%nat by lia. apply Hbefore; [lia|done].
Qed.

Lemma filter_imap_nil {A} (P : nat * A → Prop) `{∀ x, Decision (P x)}
    (l : list A) (k : nat) :
  filter P (imap (fun j => pair (k + j)%nat) l) = [] →
  ∀ j y, l !! j = Some y → ¬ P ((k + j)%nat, y).
Proof.
  revert k. induction l as [|y l IH]; intros k Hf j z Hz; [done|].
  simpl in Hf. rewrite filter_cons in Hf.
  destruct (decide (P ((k + 0)%nat, y))) as [HP|HP]; [done|].
  rewrite (imap_ext _ (fun j => pair (S k + j)%nat)) in Hf
    by (intros j' z' _; simpl; f_equal; lia).
  destruct j as [|j]; simpl in Hz.
  - injection Hz as <-. by replace (k + 0)%nat with k in HP |- * by lia.
  - replace (k + S j)%nat with (S k + j)%nat by lia. by apply (IH (S k)).
Qed.

Lemma length_filter_imap {A} (P : A → Prop) `{∀ x, Decision (P x)}
    (l : list A) (k : nat) :
  length (filter (fun ip : nat * A => P ip.2) (imap (fun j => pair (k + j)%nat) l)) =
  length (filter P l).
Proof.
  revert k. induction l as [|y l IH]; intros k; simpl; [done|].
  rewrite !filter_cons. simpl.
  rewrite (imap_ext _ (fun j => pair (S k + j)%nat))
    by (intros j' z' _; simpl; f_equal; lia).
  destruct (decide (P y)); simpl; [f_equal|]; exact (IH (S k)).
Qed.

Lemma filter_all {A} (P : A → Prop) `{∀ x, Decision (P x)} (l : list A) :
  (∀ x, P x) → filter P l = l.
Proof.
  intros HP. induction l as [|x l IH]; [done|].
  by rewrite filter_cons_True, IH.
Qed.

(** The candidates are the eligible passengers, at their positions. *)
Lemma board_paxs_Ok q bus paxs candidates :
  board_paxs q bus paxs = Ok candidates →
  candidates =
    filter (fun ip : nat * Pax => eligible q bus ip.2)
           (imap (fun j => pair (0 + j)%nat) paxs).
Proof.
  unfold board_paxs, _filter_pax_arrival_after_bus_arrival.
  destruct (_board_truncation q) eqn:Htr.
  - destruct paxs as [|p paxs]; [by intros [= <-]|].
    intros H. apply bind_Ok in H as (a & Ha%getitem_Ok & H). injection H as <-.
    apply list_filter_iff. intros [j p']. unfold eligible. by rewrite Htr, Ha.
  - intros [= <-]. symmetry. apply filter_all.
    intros [j p']. unfold eligible. by rewrite Htr.
Qed.

End pax_queue_board.

Section pax_queue_board_main.
Import PaxQueue.
Implicit Types (q : PaxQueue.t) (bus : Bus) (paxs : list Pax).

Lemma accumate_board_fraction_Ok bus bus' :
  accumate_board_fraction bus = Ok bus' →
  _paxs bus' = _paxs bus ∧ _bus_id bus' = _bus_id bus ∧
  _route_id bus' = _route_id bus ∧ bus_log bus' = bus_log bus.
Proof.
  unfold accumate_board_fraction. intros H.
  apply bind_Ok in H as (u & _ & H).
  destruct (_pax_board_rate bus) as [r|]; [|discriminate].
  destruct (Qle_bool 1 _); injection H as <-; by destruct bus.
Qed.

Lemma eligible_arrival_time q bus (p p' : Pax) :
  arrival_time p = arrival_time p' → eligible q bus p → eligible q bus p'.
Proof. unfold eligible. intros ->. done. Qed.

Lemma remaining_loop_Ok q bus (groups : list (list string)) (acc n : nat) :
  remaining_loop q bus groups acc = Ok n →
  n = (acc + sum_list ((fun g => length (filter (eligible q bus) (group g q)))
                         <$> groups))%nat.
Proof.
  revert acc. induction groups as [|g groups IH]; intros acc H; simpl in H.
  - injection H as <-. simpl. lia.
  - apply bind_Ok in H as (candidates & Hc%board_paxs_Ok & H).
    apply IH in H. subst candidates.
    rewrite (length_filter_imap (eligible q bus)) in H.
    rewrite fmap_cons. cbn [sum_list_with]. unfold id.
    subst n. by rewrite <- Nat.add_assoc.
Qed.

End pax_queue_board_main.

(** C7. What [board] does for an idle bus, and what counts as remaining.
    The passenger taken is the first eligible one of the bus's first served
    group, where eligible means: under [arrival], arrived strictly before
    the bus's recorded arrival at this stop; under [rtd], any passenger, so
    the head of the queue. It joins the bus and leaves the queue. With no
    eligible passenger nothing changes. The remaining obligations are the
    eligible passengers of all served groups. *)
Theorem pax_queue_board_truncation
    (q q' : PaxQueue.t) (bus bus' : Bus) (t0 : Z) :
  _board_status bus = idle →
  PaxQueue.board bus t0 q = Ok (q', bus') →
  ((q' = q ∧ bus' = bus ∧
    match PaxQueue._get_served_groups (_route_id bus) q with
    | [] => True
    | g :: _ => ∀ p, p ∈ PaxQueue.group g q → ¬ PaxQueue.eligible q bus p
    end) ∨
   (∃ g others i p,
      PaxQueue._get_served_groups (_route_id bus) q = g :: others ∧
      PaxQueue.group g q !! i = Some p ∧
      PaxQueue.eligible q bus p ∧
      (∀ j p', (j < i)%nat → PaxQueue.group g q !! j = Some p' →
               ¬ PaxQueue.eligible q bus p') ∧
      (PaxQueue._board_truncation q = rtd → i = 0%nat) ∧
      _paxs bus' = _paxs bus ++ [set_board_time (Some t0) p] ∧
      PaxQueue.group g q' = delete i (PaxQueue.group g q))) ∧
  ∀ n, PaxQueue.check_remaining_pax_num bus q = Ok n →
       n = sum_list ((fun g => length (filter (PaxQueue.eligible q bus)
                                         (PaxQueue.group g q)))
                       <$> PaxQueue._get_served_groups (_route_id bus) q).
Proof.
  intros Hidle H. split; [|intros n Hn; by apply remaining_loop_Ok in Hn].
  unfold PaxQueue.board in H. rewrite Hidle in H.
  destruct (PaxQueue._get_served_groups (_route_id bus) q) as [|g others] eqn:Hg.
  { injection H as <- <-. by left. }
  apply bind_Ok in H as (u & _ & H).
  apply bind_Ok in H as (candidates & Hc%board_paxs_Ok & H).
  destruct candidates as [|[i p] rest].
  - injection H as <- <-. left. split_and!; [done..|].
    intros p [j Hj]%list_elem_of_lookup.
    symmetry in Hc. apply (filter_imap_nil _ _ 0 Hc j p Hj).
  - apply bind_Ok in H as (bus2 & Hacc & H). injection H as <- <-.
    symmetry in Hc. apply filter_imap_head in Hc as (_ & Hp & Hel & Hbefore).
    rewrite Nat.sub_0_r in Hp, Hbefore. simpl in Hel.
    right. exists g, others, i, p. split_and!; [done|done|done|..].
    + intros j p' Hj Hp'. by apply (Hbefore j p' Hj Hp').
    + intros Hrtd. destruct i as [|i]; [done|]. exfalso.
      destruct (lookup_lt_is_Some_2 (PaxQueue.group g q) 0) as [p0 Hp0].
      { apply lookup_lt_Some in Hp. lia. }
      apply (Hbefore 0%nat p0); [lia|done|]. simpl.
      unfold PaxQueue.eligible. by rewrite Hrtd.
    + apply accumate_board_fraction_Ok in Hacc as (-> & _). by destruct bus.
    + unfold PaxQueue.group at 1. simpl. rewrite od_get_set_eq. simpl.
      apply list_remove_at.
      * by apply lookup_lt_Some in Hp.
      * apply pax_eqb_refl.
      * intros j y Hj Hy. destruct (pax_eqb y _) eqn:Heq; [|done]. exfalso.
        apply (Hbefore j y Hj Hy). simpl.
        apply (eligible_arrival_time q bus p y); [|done].
        apply pax_eqb_arrival_time in Heq. rewrite Heq. by destruct p.
Qed.

(** ** Schedule deviations *)

Section schedule_deviation.
Implicit Types (l : BusRunningLog) (sl : StopLog).

Lemma record_when_arrival_Ok stop_id t0 kw l l' eps :
  record_when_arrival stop_id t0 kw l = Ok (l', eps) →
  stop_arrival_time l' !! stop_id = Some t0 ∧
  match kw with
  | None => eps = None
  | Some count =>
      ∃ va, virtual_bus_stop_arrival_time l !! stop_id = Some va ∧
            eps = Some (epsilon_of t0 va (log_schedule_headway l) count) ∧
            stop_epsilon_arrival l' !! stop_id = eps
  end.
Proof.
  unfold record_when_arrival. destruct kw as [count|]; intros H.
  - apply bind_Ok in H as (va & Hva%getitem_Ok & H). injection H as <- <-.
    destruct l; simpl in *. rewrite !lookup_insert_eq. eauto 10.
  - injection H as <- <-. destruct l; simpl. by rewrite lookup_insert_eq.
Qed.

Lemma record_when_rtd_Ok stop_id t0 kw l l' eps :
  record_when_rtd stop_id t0 kw l = Ok (l', eps) →
  stop_rtd_time l' !! stop_id = Some t0 ∧
  visited_stops l' = visited_stops l ++ [stop_id] ∧
  match kw with
  | None => eps = None
  | Some count =>
      ∃ vr, virtual_bus_stop_rtd_time l !! stop_id = Some vr ∧
            eps = Some (epsilon_of t0 vr (log_schedule_headway l) count) ∧
            stop_epsilon_rtd l' !! stop_id = eps
  end.
Proof.
  unfold record_when_rtd. destruct kw as [count|]; intros H.
  - apply bind_Ok in H as (vr & Hvr%getitem_Ok & H). injection H as <- <-.
    destruct l; simpl in *. rewrite !lookup_insert_eq. eauto 10.
  - injection H as <- <-. destruct l; simpl. by rewrite lookup_insert_eq.
Qed.

Lemma epsilon_insert_lookup route_id bus_id eps (e : gmap string (gmap string Q)) :
  ∃ by_bus, epsilon_insert route_id bus_id eps e !! route_id = Some by_bus ∧
            by_bus !! bus_id = Some eps.
Proof.
  unfold epsilon_insert. eexists. split; by rewrite lookup_insert_eq.
Qed.

Lemma record_when_bus_arrival_Ok route_id bus_id t0 eps sl sl' :
  record_when_bus_arrival route_id bus_id t0 (Some eps) sl = Ok sl' →
  ∃ ts ids e by_bus,
    route_arrival_time_seq sl !! route_id = Some ts ∧
    route_arrival_bus_id_seq sl !! route_id = Some ids ∧
    route_arrival_time_seq sl' !! route_id = Some (ts ++ [inject_Z t0]) ∧
    route_arrival_bus_id_seq sl' !! route_id = Some (ids ++ [bus_id]) ∧
    route_bus_epsilon_arrival sl' = Some e ∧
    e !! route_id = Some by_bus ∧ by_bus !! bus_id = Some eps.
Proof.
  unfold record_when_bus_arrival. intros H.
  apply bind_Ok in H as (ts & Hts%getitem_Ok & H).
  apply bind_Ok in H as (ids & Hids%getitem_Ok & H).
  destruct (route_bus_epsilon_arrival sl) as [e|]; [|discriminate].
  injection H as <-. simpl.
  destruct (epsilon_insert_lookup route_id bus_id eps e) as (by_bus & He & Hb).
  exists ts, ids, (epsilon_insert route_id bus_id eps e), by_bus.
  split_and!; try done; by rewrite lookup_insert_eq.
Qed.

Lemma record_when_bus_rtd_Ok route_id bus_id t0 eps sl sl' :
  record_when_bus_rtd route_id bus_id t0 (Some eps) sl = Ok sl' →
  ∃ ts ids e by_bus,
    route_rtd_time_seq sl !! route_id = Some ts ∧
    route_rtd_bus_id_seq sl !! route_id = Some ids ∧
    route_rtd_time_seq sl' !! route_id = Some (ts ++ [inject_Z t0]) ∧
    route_rtd_bus_id_seq sl' !! route_id = Some (ids ++ [bus_id]) ∧
    route_bus_epsilon_rtd sl' = Some e ∧
    e !! route_id = Some by_bus ∧ by_bus !! bus_id = Some eps.
Proof.
  unfold record_when_bus_rtd. intros H.
  apply bind_Ok in H as (ts & Hts%getitem_Ok & H).
  apply bind_Ok in H as (ids & Hids%getitem_Ok & H).
  destruct (route_bus_epsilon_rtd sl) as [e|]; [|discriminate].
  injection H as <-. simpl.
  destruct (epsilon_insert_lookup route_id bus_id eps e) as (by_bus & He & Hb).
  exists ts, ids, (epsilon_insert route_id bus_id eps e), by_bus.
  split_and!; try done; by rewrite lookup_insert_eq.
Qed.

Lemma seed_lookup {A} stop_id (f : Q → A) (reference : gmap string (gmap string Q))
    route_id by_stop x :
  reference !! route_id = Some by_stop → by_stop !! stop_id = Some x →
  seed stop_id f reference !! route_id = Some (f x).
Proof. intros Hr Hs. unfold seed. rewrite lookup_omap, Hr. simpl. by rewrite Hs. Qed.

End schedule_deviation.

Section stop_rtd.
Import Stop.
Implicit Types (s : Stop.t) (sl : StopLog).

Lemma epsilon_rtd_of_insert route_id bus_id eps e sl sl' (b : Bus) :
  route_bus_epsilon_rtd sl = Some e →
  route_bus_epsilon_rtd sl' = Some (epsilon_insert route_id bus_id eps e) →
  epsilon_rtd_of sl' b =
    if decide ((_route_id b, _bus_id b) = (route_id, bus_id)) then Some eps
    else epsilon_rtd_of sl b.
Proof.
  intros He He'. unfold epsilon_rtd_of. rewrite He, He'. simpl.
  unfold epsilon_insert.
  destruct (decide (_route_id b = route_id)) as [Hr|Hr].
  - rewrite Hr, lookup_insert_eq. simpl.
    destruct (decide (_bus_id b = bus_id)) as [Hi|Hi].
    + rewrite Hi, lookup_insert_eq. by rewrite decide_True.
    + rewrite lookup_insert_ne by done. rewrite decide_False by congruence.
      by destruct (e !! route_id).
  - rewrite lookup_insert_ne by done. by rewrite decide_False by congruence.
Qed.

(** The bookkeeping of one ready-to-depart event with a schedule. *)
Lemma record_rtd_schedule t0 (bus bus' : Bus) s log' :
  _has_schedule s = true →
  record_rtd t0 bus s = Ok (bus', log') →
  ∃ ids vr e,
    route_rtd_bus_id_seq (stop_log s) !! _route_id bus = Some ids ∧
    virtual_bus_stop_rtd_time (bus_log bus) !! _stop_id s = Some vr ∧
    ident bus' = ident bus ∧
    let eps := epsilon_of t0 vr (log_schedule_headway (bus_log bus)) (length ids) in
    stop_epsilon_rtd (bus_log bus') !! _stop_id s = Some eps ∧
    route_rtd_bus_id_seq log' =
      <[_route_id bus := ids ++ [_bus_id bus]]> (route_rtd_bus_id_seq (stop_log s)) ∧
    route_bus_epsilon_rtd (stop_log s) = Some e ∧
    route_bus_epsilon_rtd log' =
      Some (epsilon_insert (_route_id bus) (_bus_id bus) eps e).
Proof.
  intros Hs H. unfold record_rtd in H. rewrite Hs in H.
  apply bind_Ok in H as (ids & Hids%getitem_Ok & H).
  apply bind_Ok in H as ([bl eps] & Hrtd & H).
  apply bind_Ok in H as (log2 & Hlog & H). injection H as <- <-.
  apply record_when_rtd_Ok in Hrtd as (_ & _ & vr & Hvr & -> & Heps).
  unfold record_when_bus_rtd in Hlog. rewrite Hids in Hlog. simpl in Hlog.
  apply bind_Ok in Hlog as (ts & _ & Hlog).
  destruct (route_bus_epsilon_rtd (stop_log s)) as [e|] eqn:He; [|discriminate].
  injection Hlog as <-. simpl.
  exists ids, vr, e. split_and!; try done; by destruct bus.
Qed.

Lemma of_route_cons r (x : Bus) (l : list Bus) :
  of_route r (x :: l) =
    if decide (_route_id x = r) then x :: of_route r l else of_route r l.
Proof. unfold of_route. by rewrite filter_cons. Qed.

(** What [_leave] records with a schedule: the sequences grow by the buses
    handled, the epsilon of a bus that is not handled stays, and every bus
    returned has its epsilon. *)
Lemma leave_loop_rtd fuel t0 s acc s' acc' (pre suf : list Bus) :
  _has_schedule s = true →
  _leave_queue s = pre ++ suf → (length suf ≤ fuel)%nat →
  leave_loop fuel t0 (length pre) (s, acc) = Ok (s', acc') →
  ∃ out, acc' = acc ++ out ∧
    (∀ r ids, route_rtd_bus_id_seq (stop_log s) !! r = Some ids →
       route_rtd_bus_id_seq (stop_log s') !! r =
         Some (ids ++ (_bus_id <$> of_route r (every_other suf)))) ∧
    (∀ b, (∀ x, x ∈ every_other suf → ident x ≠ ident b) →
       epsilon_rtd_of (stop_log s') b = epsilon_rtd_of (stop_log s) b) ∧
    ∀ j b', out !! j = Some b' → rtd_recorded t0 s s' (every_other suf) j b'.
Proof.
  revert s acc pre suf.
  induction fuel as [|fuel IH]; intros s acc pre suf Hs Hq Hlen Hloop.
  { destruct suf; [|simpl in Hlen; lia]. simpl in Hloop. injection Hloop as <- <-.
    exists []. rewrite app_nil_r. split_and!; try done.
    intros r ids Hr. by rewrite app_nil_r. }
  simpl in Hloop. rewrite Hq in Hloop. destruct suf as [|x suf1].
  { rewrite lookup_ge_None_2 in Hloop by (rewrite app_nil_r; lia).
    injection Hloop as <- <-. exists []. rewrite app_nil_r. split_and!; try done.
    intros r ids Hr. by rewrite app_nil_r. }
  rewrite list_lookup_middle in Hloop by done.
  apply bind_Ok in Hloop as ([bus' log'] & Hrec & Hloop).
  destruct (record_rtd_schedule _ _ _ _ _ Hs Hrec)
    as (idsx & vrx & e & Hidsx & Hvrx & Hidx & Hepsx & Hseq' & He & He').
  cbv zeta in Hepsx, He'.
  set (epsx := epsilon_of t0 vrx (log_schedule_headway (bus_log x)) (length idsx)) in *.
  assert (delete (length pre) (pre ++ x :: suf1) = pre ++ suf1) as Hdel.
  { clear. induction pre as [|p pre IHp]; simpl; [done|by f_equal]. }
  rewrite Hdel in Hloop.
  set (s1 := set_leave_queue (pre ++ suf1) (set_stop_log log' s)) in *.
  assert (stop_log s1 = log') as Hlog1 by by destruct s.
  assert (_stop_id s1 = _stop_id s) as Hid1 by by destruct s.
  assert (_has_schedule s1 = true) as Hs1 by (by destruct s; simpl in *).
  assert (∃ out1,
    acc' = (acc ++ [bus']) ++ out1 ∧
    (∀ r ids, route_rtd_bus_id_seq (stop_log s1) !! r = Some ids →
       route_rtd_bus_id_seq (stop_log s') !! r =
         Some (ids ++ (_bus_id <$> of_route r (every_other (tail suf1))))) ∧
    (∀ b, (∀ x, x ∈ every_other (tail suf1) → ident x ≠ ident b) →
       epsilon_rtd_of (stop_log s') b = epsilon_rtd_of (stop_log s1) b) ∧
    ∀ j b', out1 !! j = Some b' →
      rtd_recorded t0 s1 s' (every_other (tail suf1)) j b') as Hrest.
  { destruct suf1 as [|y suf2].
    - assert (s' = s1 ∧ acc' = acc ++ [bus']) as [-> ->].
      { destruct fuel; simpl in Hloop.
        - by injection Hloop as <- <-.
        - rewrite lookup_ge_None_2 in Hloop.
          + by injection Hloop as <- <-.
          + subst s1. destruct s; simpl. rewrite app_nil_r. lia. }
      exists []. rewrite app_nil_r. split_and!; try done.
      intros r ids Hr. by rewrite app_nil_r.
    - replace (S (length pre)) with (length (pre ++ [y])) in Hloop
        by (rewrite length_app; simpl; lia).
      apply (IH _ _ (pre ++ [y]) suf2) in Hloop; [done|done| |].
      + subst s1. destruct s; simpl. by rewrite <- app_assoc.
      + simpl in Hlen. lia. }
  destruct Hrest as (out1 & -> & Hseqs & Htab & Hev).
  assert (every_other (x :: suf1) = x :: every_other (tail suf1)) as Heo.
  { by destruct suf1. }
  rewrite Heo. clear Heo Hloop IH.
  exists (bus' :: out1). rewrite <- app_assoc. split; [done|].
  rewrite Hlog1 in Hseqs, Htab.
  assert (∀ r ids, route_rtd_bus_id_seq (stop_log s) !! r = Some ids →
            route_rtd_bus_id_seq (stop_log s') !! r =
            Some (ids ++ (_bus_id <$> of_route r (x :: every_other (tail suf1)))))
    as Hseqs0.
  { intros r ids Hr. rewrite of_route_cons.
    destruct (decide (_route_id x = r)) as [Hxr|Hxr].
    - rewrite fmap_cons, (Hseqs r (idsx ++ [_bus_id x])).
      + rewrite <- app_assoc. simpl. congruence.
      + by rewrite Hseq', <- Hxr, lookup_insert_eq.
    - apply Hseqs. by rewrite Hseq', lookup_insert_ne. }
  assert (∀ b, ident x ≠ ident b → epsilon_rtd_of log' b = epsilon_rtd_of (stop_log s) b)
    as Hstep_tab.
  { intros b Hne. rewrite (epsilon_rtd_of_insert _ _ _ _ _ _ b He He').
    rewrite decide_False; [done|]. intros Heq. apply Hne. unfold ident.
    congruence. }
  split_and!; [done| |].
  - intros b Hne. rewrite Htab.
    + apply Hstep_tab. apply Hne. left.
    + intros y Hy. apply Hne. by right.
  - intros [|j] b' Hj; simpl in Hj.
    + injection Hj as <-. exists x, idsx, vrx. simpl. rewrite Nat.add_0_r.
      split_and!; try done.
      * exists ((idsx ++ [_bus_id x]) ++
                (_bus_id <$> of_route (_route_id x) (every_other (tail suf1)))).
        split.
        -- apply Hseqs. by rewrite Hseq', lookup_insert_eq.
        -- rewrite <- app_assoc. simpl. by rewrite list_lookup_middle.
      * intros Hlater. rewrite Htab.
        -- rewrite (epsilon_rtd_of_insert _ _ _ _ _ _ x He He').
           by rewrite decide_True.
        -- intros y Hy. apply list_elem_of_lookup in Hy as [j' Hj'].
           apply (Hlater (S j')); [lia|done].
    + destruct (Hev j b' Hj)
        as (b & ids1 & vr & Hb & Hidb & Hids1 & Hvr & Heps & Hpos & Hlast).
      rewrite Hlog1, Hid1 in *. cbv zeta in Heps, Hpos, Hlast.
      rewrite Hseq' in Hids1.
      assert (∃ ids,
        route_rtd_bus_id_seq (stop_log s) !! _route_id b = Some ids ∧
        (length ids1 + length (of_route (_route_id b) (take j (every_other (tail suf1)))) =
         length ids +
         length (of_route (_route_id b) (take (S j) (x :: every_other (tail suf1)))))%nat)
        as (ids & Hids & Hcount).
      { simpl. rewrite of_route_cons.
        destruct (decide (_route_id x = _route_id b)) as [Hxr|Hxr].
        - rewrite Hxr, lookup_insert_eq in Hids1. injection Hids1 as <-.
          exists idsx. split; [congruence|]. rewrite length_app. simpl. lia.
        - rewrite lookup_insert_ne in Hids1 by done. exists ids1. done. }
      rewrite Hcount in Heps, Hpos, Hlast.
      exists b, ids, vr. cbv zeta. split_and!; try done.
      intros Hlater. apply Hlast. intros j' y Hlt Hy.
      apply (Hlater (S j')); [lia|done].
Qed.

End stop_rtd.

Section holder_release_epsilon.
Import Holder.

(** A release seen from outside the tick. *)
Lemma operation_release_recorded t0 (h h' : Holder.t) released (k : key) ht :
  NoDup (OD.keys (_identifier_time h)) →
  operation t0 h = Ok (h', released) →
  OD.get k (_identifier_time h) = Some (Some ht) →
  Qle_bool (ht - 1) 0 = true →
  ∃ b0 b,
    OD.get k (_identifier_bus h) = Some b0 ∧
    b ∈ default [] (OD.get k.1.1 released) ∧
    _bus_id b = _bus_id b0 ∧ _route_id b = _route_id b0 ∧
    seq_get (route_stop_departure_bus_id_seq (holder_log h')) k.1.2 k.1.1
      !! departure_idx_count h k = Some k.2 ∧
    departure_recorded (_has_schedule h) t0 k (departure_idx_count h k)
      b0 b (holder_log h) (holder_log h').
Proof.
  intros Hnd Hop Hk Hle. unfold operation in Hop.
  apply bind_Ok in Hop as ([[h1 held] rem] & Hloop & Hop).
  apply bind_Ok in Hop as (h2 & Hrem & Hop). injection Hop as <- <-.
  apply remove_loop_Ok in Hrem as (Hlog & _ & _). rewrite Hlog.
  pose proof (od_get_elem _ _ _ Hk) as Hin.
  pose proof (operation_loop_entry t0 _ _ _ k _ Hnd Hin Hloop) as Hent.
  unfold entry_outcome in Hent. simpl in Hent.
  destruct Hent as (_ & b0 & b2 & Hb0 & Hb2 & Hid & Hroute & Hcase).
  rewrite Hle in Hcase. destruct Hcase as (Hrel & _).
  destruct (operation_loop_release _ _ _ _ _ _ Hnd Hk Hle Hloop)
    as (b0' & b2' & Hb0' & Hb2' & Hrec).
  simpl in Hb0', Hb2', Hrec.
  assert (b0' = b0) as -> by congruence.
  assert (b2' = b2) as -> by congruence.
  exists b0, b2. split_and!; try done.
  apply (operation_loop_position _ _ _ _ _ _ Hk Hle Hloop).
Qed.

End holder_release_epsilon.

Section mediator_terminal.
Import Mediator.

Lemma enter_next_link_holder sampled_tt bus spot_id t0 (m m1 : Mediator.t) :
  enter_next_link sampled_tt bus spot_id t0 m = Ok m1 → _holder m1 = _holder m.
Proof.
  unfold enter_next_link. intros H.
  apply bind_Ok in H as (link_id & _ & H).
  apply bind_Ok in H as (link & _ & H).
  apply bind_Ok in H as (link' & _ & H). by injection H as <-.
Qed.

Lemma transfer_bus_terminal sampled_tt spot_id t0 bus (m m' : Mediator.t)
    recycled recycled' :
  transfer_bus sampled_tt "terminal" spot_id t0 bus (m, recycled) =
    Ok (m', recycled') →
  recycled' = recycled ∧
  Holder._has_schedule (_holder m') = Holder._has_schedule (_holder m) ∧
  record_when_bus_departure spot_id (_route_id bus) (_bus_id bus) t0
    (if Holder._has_schedule (_holder m) then Some 0%Q else None)
    (Holder.holder_log (_holder m)) = Ok (Holder.holder_log (_holder m')).
Proof.
  unfold transfer_bus. rewrite decide_True by done. intros H.
  apply bind_Ok in H as (m1 & Hlink & H).
  apply bind_Ok in H as (hl & Hrec & H). injection H as <- <-.
  apply enter_next_link_holder in Hlink. rewrite Hlink in Hrec. simpl.
  by rewrite Hlink.
Qed.

(** Departures from a terminal with a schedule: every bus is appended to
    the departure sequence of its route at the terminal, with the constant
    0 as its epsilon in the holder's table. *)
Lemma transfer_loop_terminal sampled_tt spot_id t0 i buses (m m' : Mediator.t)
    recycled recycled' :
  Holder._has_schedule (_holder m) = true →
  transfer_loop sampled_tt "terminal" spot_id t0 i buses (m, recycled) =
    Ok (m', recycled') →
  (∀ r,
     seq_get (route_stop_departure_bus_id_seq (Holder.holder_log (_holder m')))
       r spot_id =
     seq_get (route_stop_departure_bus_id_seq (Holder.holder_log (_holder m)))
       r spot_id ++ (_bus_id <$> Terminal.of_route r buses)) ∧
  ∀ k,
    Holder.epsilon_departure_of (Holder.holder_log (_holder m')) k =
      if decide (k ∈ (fun b => (spot_id, _route_id b, _bus_id b)) <$> buses)
      then Some 0%Q
      else Holder.epsilon_departure_of (Holder.holder_log (_holder m)) k.
Proof.
  revert i m recycled. induction buses as [|bus buses IH]; intros i m recycled Hs Hloop.
  - simpl in Hloop. injection Hloop as <- <-. split.
    + intros r. by rewrite app_nil_r.
    + intros k. rewrite decide_False; [done|]. apply not_elem_of_nil.
  - simpl in Hloop. apply bind_Ok in Hloop as ([m1 rec1] & Hbus & Hloop).
    apply transfer_bus_terminal in Hbus as (_ & Hs1 & Hrec).
    rewrite Hs in Hrec, Hs1.
    destruct (IH _ _ _ Hs1 Hloop) as [Hseq Htab]. split.
    + intros r. rewrite Hseq.
      apply record_when_bus_departure_Ok in Hrec as (_ & -> & _).
      rewrite seq_get_append. unfold Terminal.of_route.
      rewrite filter_cons. rewrite <- app_assoc. f_equal.
      destruct (decide (_route_id bus = r)) as [Hr|Hr].
      * by rewrite decide_True by congruence.
      * by rewrite decide_False by congruence.
    + intros k. rewrite Htab, fmap_cons.
      rewrite (record_when_bus_departure_table _ _ _ _ _ _ _ k Hrec).
      destruct (decide (k ∈ _)) as [Hin|Hnin].
      * rewrite decide_True; [done|]. by right.
      * destruct (decide (k = (spot_id, _route_id bus, _bus_id bus))) as [->|Hne].
        -- rewrite decide_True; [done|]. left.
        -- rewrite decide_False; [done|].
           intros [?|?]%elem_of_cons; done.
Qed.

End mediator_terminal.

(** C6. With a schedule, every event of a bus at a stop that is compared
    with the reference trajectory gets the epsilon
    [t - (reference time + schedule_headway * count)], where [count] is the
    length of the event sequence of the bus's route at that node when the
    event is recorded, before it is appended: arrivals ([Stop.enter_stop]),
    ready-to-depart events ([Stop_Board._leave], where the count grows with
    every bus of the route handled earlier in the same call) and departures
    after a hold ([Holder.operation], likewise), in the bus's running log
    and in the log of the stop or holder alike. A departure from the
    terminal ([Mediator.transfer]) is not compared with the reference: it
    is appended to the departure sequence of the terminal and recorded with
    the constant epsilon 0. The logs are seeded with the reference bus
    ["0"] as the first entry of every sequence, with epsilon 0. *)
Theorem schedule_deviation_bookkeeping :
  (∀ (bus : Bus) (t0 : Z) (s s' : Stop.t),
     Stop._has_schedule s = true →
     Stop.enter_stop bus t0 s = Ok s' →
     ∃ ts va bus' e by_bus,
       route_arrival_time_seq (Stop.stop_log s) !! _route_id bus = Some ts ∧
       virtual_bus_stop_arrival_time (bus_log bus) !! Stop._stop_id s = Some va ∧
       let epsilon :=
         (inject_Z t0 - (va + log_schedule_headway (bus_log bus) *
                                inject_Z (Z.of_nat (length ts))))%Q in
       last (Stop._entry_queue s') = Some bus' ∧
       stop_epsilon_arrival (bus_log bus') !! Stop._stop_id s = Some epsilon ∧
       route_arrival_time_seq (Stop.stop_log s') !! _route_id bus =
         Some (ts ++ [inject_Z t0]) ∧
       route_bus_epsilon_arrival (Stop.stop_log s') = Some e ∧
       e !! _route_id bus = Some by_bus ∧
       by_bus !! _bus_id bus = Some epsilon) ∧
  (∀ (t0 : Z) (s s' : Stop.t) (leaving_buses : list Bus) (j : nat) (bus' : Bus),
     Stop._has_schedule s = true →
     Stop._leave t0 s = Ok (s', leaving_buses) →
     leaving_buses !! j = Some bus' →
     let handled := Stop.every_other (Stop._leave_queue s) in
     ∃ bus ids vr,
       handled !! j = Some bus ∧ Stop.ident bus' = Stop.ident bus ∧
       route_rtd_bus_id_seq (Stop.stop_log s) !! _route_id bus = Some ids ∧
       virtual_bus_stop_rtd_time (bus_log bus) !! Stop._stop_id s = Some vr ∧
       let count :=
         (length ids + length (Stop.of_route (_route_id bus) (take j handled)))%nat in
       let epsilon :=
         (inject_Z t0 - (vr + log_schedule_headway (bus_log bus) *
                                inject_Z (Z.of_nat count)))%Q in
       stop_epsilon_rtd (bus_log bus') !! Stop._stop_id s = Some epsilon ∧
       (∃ ids', route_rtd_bus_id_seq (Stop.stop_log s') !! _route_id bus = Some ids' ∧
                ids' !! count = Some (_bus_id bus)) ∧
       ((∀ j' x, (j < j')%nat → handled !! j' = Some x →
                 Stop.ident x ≠ Stop.ident bus) →
        Stop.epsilon_rtd_of (Stop.stop_log s') bus = Some epsilon)) ∧
  (∀ (t0 : Z) (h h' : Holder.t) (released : OD.odict string (list Bus))
     (k : Holder.key) (hold_time : Q),
     NoDup (OD.keys (Holder._identifier_time h)) →
     Holder._has_schedule h = true →
     Holder.operation t0 h = Ok (h', released) →
     OD.get k (Holder._identifier_time h) = Some (Some hold_time) →
     (hold_time - 1 <= 0)%Q →
     ∃ bus bus' vd,
       OD.get k (Holder._identifier_bus h) = Some bus ∧
       bus' ∈ default [] (OD.get k.1.1 released) ∧
       _bus_id bus' = _bus_id bus ∧ _route_id bus' = _route_id bus ∧
       virtual_bus_stop_departure_time (bus_log bus) !! k.1.1 = Some vd ∧
       let count := Holder.departure_idx_count h k in
       let epsilon :=
         (inject_Z t0 - (vd + log_schedule_headway (bus_log bus) *
                                inject_Z (Z.of_nat count)))%Q in
       stop_epsilon_departure (bus_log bus') !! k.1.1 = Some epsilon ∧
       seq_get (route_stop_departure_bus_id_seq (Holder.holder_log h')) k.1.2 k.1.1
         !! count = Some k.2 ∧
       Holder.epsilon_departure_of (Holder.holder_log h') k = Some epsilon) ∧
  (∀ (sampled_tt : nat → Q) (buses : list Bus) (spot_id : string) (t0 : Z)
     (m m' : Mediator.t) (recycled : list Bus),
     Holder._has_schedule (Mediator._holder m) = true →
     Mediator.transfer sampled_tt buses "terminal" spot_id t0 m = Ok (m', recycled) →
     (∀ route_id,
        seq_get (route_stop_departure_bus_id_seq
                   (Holder.holder_log (Mediator._holder m'))) route_id spot_id =
        seq_get (route_stop_departure_bus_id_seq
                   (Holder.holder_log (Mediator._holder m))) route_id spot_id ++
        (_bus_id <$> Terminal.of_route route_id buses)) ∧
     ∀ bus, bus ∈ buses →
       Holder.epsilon_departure_of (Holder.holder_log (Mediator._holder m'))
         (spot_id, _route_id bus, _bus_id bus) = Some 0%Q) ∧
  (∀ (stop_id route_id : string) (virtual_bus : VirtualBus) (has_schedule : bool)
     (by_stop : gmap string Q) (x : Q),
     route_stop_arrival_time virtual_bus !! route_id = Some by_stop →
     by_stop !! stop_id = Some x →
     let sl := StopLog_init stop_id virtual_bus has_schedule in
     route_arrival_time_seq sl !! route_id = Some [x] ∧
     route_arrival_bus_id_seq sl !! route_id = Some ["0"%string] ∧
     (has_schedule = true →
      ∃ e by_bus, route_bus_epsilon_arrival sl = Some e ∧
                  e !! route_id = Some by_bus ∧ by_bus !! "0"%string = Some 0%Q)) ∧
  (∀ (stop_id route_id : string) (virtual_bus : VirtualBus) (has_schedule : bool)
     (by_stop : gmap string Q) (x : Q),
     route_stop_rtd_time virtual_bus !! route_id = Some by_stop →
     by_stop !! stop_id = Some x →
     let sl := StopLog_init stop_id virtual_bus has_schedule in
     route_rtd_time_seq sl !! route_id = Some [x] ∧
     route_rtd_bus_id_seq sl !! route_id = Some ["0"%string] ∧
     (has_schedule = true →
      ∃ e by_bus, route_bus_epsilon_rtd sl = Some e ∧
                  e !! route_id = Some by_bus ∧ by_bus !! "0"%string = Some 0%Q)) ∧
  (∀ (stop_id route_id : string) (virtual_bus : VirtualBus) (has_schedule : bool)
     (by_stop : gmap string Q) (x : Q),
     route_stop_departure_time virtual_bus !! route_id = Some by_stop →
     by_stop !! stop_id = Some x →
     let hl := HolderLog_init virtual_bus has_schedule in
     seq_get (route_stop_departure_time_seq hl) route_id stop_id = [x] ∧
     seq_get (route_stop_departure_bus_id_seq hl) route_id stop_id = ["0"%string] ∧
     (has_schedule = true →
      ∃ e by_stop' by_bus,
        route_stop_bus_epsilon_departure hl = Some e ∧
        e !! route_id = Some by_stop' ∧ by_stop' !! stop_id = Some by_bus ∧
        by_bus !! "0"%string = Some 0%Q)).
Proof.
  split_and!.
  - intros bus t0 s s' Hs H. unfold Stop.enter_stop in H. rewrite Hs in H.
    apply bind_Ok in H as ([bus1 log1] & H1 & H). injection H as <-.
    apply bind_Ok in H1 as (ts & Hts%getitem_Ok & H1).
    apply bind_Ok in H1 as ([bl eps] & Harr & H1).
    apply bind_Ok in H1 as (log2 & Hlog & H1). injection H1 as <- <-.
    apply record_when_arrival_Ok in Harr as (_ & va & Hva & -> & Heps).
    apply record_when_bus_arrival_Ok in Hlog
      as (ts' & ids & e & by_bus & Hts' & _ & Hts2 & _ & He & Hr & Hb).
    rewrite Hts in Hts'. injection Hts' as <-.
    exists ts, va, (set_status queueing_at_stop (set_bus_log bl bus)), e, by_bus.
    split_and!; [done|done|]. cbv zeta.
    destruct s; simpl in *. split_and!; try done.
    + by rewrite last_snoc.
    + by destruct bus.
  - intros t0 s s' leaving_buses j bus' Hs Hleave Hj. unfold Stop._leave in Hleave.
    apply (leave_loop_rtd _ _ _ _ _ _ [] (Stop._leave_queue s)) in Hleave
      as (out & -> & _ & _ & Hev); [|done|done|done].
    exact (Hev j bus' Hj).
  - intros t0 h h' released k hold_time Hnd Hs Hop Hk Hle.
    apply Qle_bool_iff in Hle.
    destruct (operation_release_recorded _ _ _ _ _ _ Hnd Hop Hk Hle)
      as (b0 & b & Hb0 & Hin & Hid & Hroute & Hpos & Hrec).
    rewrite Hs in Hrec. destruct Hrec as (vd & Hvd & Heps & Htab).
    exists b0, b, vd. split_and!; done.
  - intros sampled_tt buses spot_id t0 m m' recycled Hs Htr.
    unfold Mediator.transfer in Htr.
    destruct (transfer_loop_terminal _ _ _ _ _ _ _ _ _ Hs Htr) as [Hseq Htab].
    split; [done|]. intros bus Hin. rewrite Htab, decide_True; [done|].
    apply list_elem_of_fmap. by exists bus.
  - intros stop_id route_id vb hs by_stop x Hr Hx. simpl.
    split_and!; [by erewrite seed_lookup..|].
    intros ->. eexists _, _. split_and!; [done| |].
    + by erewrite seed_lookup.
    + done.
  - intros stop_id route_id vb hs by_stop x Hr Hx. simpl.
    split_and!; [by erewrite seed_lookup..|].
    intros ->. eexists _, _. split_and!; [done| |].
    + by erewrite seed_lookup.
    + done.
  - intros stop_id route_id vb hs by_stop x Hr Hx. simpl.
    unfold seq_get. rewrite !lookup_fmap, Hr. simpl. rewrite !lookup_fmap, Hx. simpl.
    split_and!; [done..|]. intros ->. eexists _, _, _. split_and!; [done|..].
    + by rewrite lookup_fmap, Hr.
    + by rewrite lookup_fmap, Hx.
    + done.
Qed.

(** C6 as worded fails for the departure from the terminal: with the
    headway 218.2 s the bus dispatched at tick 218 is the second entry of
    the terminal's departure sequence, after the reference bus, so the
    formula gives [218 - (0 + 218.2 * 1)], but the epsilon on record is
    0. *)
Lemma schedule_deviation_terminal_counterexample :
  let bus := Demo.bus_b21 in
  let hl := Holder.holder_log (Mediator._holder Demo.mediator_b21) in
  let hl' := Holder.holder_log (Mediator._holder Demo.transferred_b21.1) in
  let count :=
    length (seq_get (route_stop_departure_bus_id_seq hl) (_route_id bus) "T") in
  Demo.dispatched_b21 = [bus] ∧
  dispatch_time (bus_log bus) = Some 218 ∧
  Holder._has_schedule (Mediator._holder Demo.mediator_b21) = true ∧
  Mediator.transfer (fun _ => 60%Q) [bus] "terminal" "T" 218 Demo.mediator_b21 =
    Ok Demo.transferred_b21 ∧
  seq_get (route_stop_departure_bus_id_seq hl') (_route_id bus) "T" !! count =
    Some (_bus_id bus) ∧
  ∃ vd epsilon,
    virtual_bus_stop_departure_time (bus_log bus) !! "T"%string = Some vd ∧
    Holder.epsilon_departure_of hl' ("T"%string, _route_id bus, _bus_id bus) =
      Some epsilon ∧
    ¬ (epsilon ==
       inject_Z 218 - (vd + log_schedule_headway (bus_log bus) *
                              inject_Z (Z.of_nat count)))%Q.
Proof.
  cbv zeta. split_and!; try (vm_compute; reflexivity).
  exists 0%Q, 0%Q. split_and!; try (vm_compute; reflexivity).
  vm_compute. discriminate.
Qed.

(** ** Links: the travel-time floor *)

Section link_floor.

Lemma effective_travel_time_floor (sampled_tt : Q) :
  (10 <= Link.effective_travel_time sampled_tt)%Q ∧
  ((sampled_tt <= 10)%Q → Link.effective_travel_time sampled_tt = 10%Q) ∧
  ((10 < sampled_tt)%Q → Link.effective_travel_time sampled_tt = sampled_tt).
Proof.
  unfold Link.effective_travel_time, py_max, Qlt_bool.
  destruct (Qle_bool sampled_tt 10) eqn:Hle; simpl.
  - apply Qle_bool_iff in Hle. split_and!; [apply Qle_refl|done|].
    intros Hlt. exfalso. by apply (Qlt_not_le _ _ Hlt).
  - assert (10 < sampled_tt)%Q as Hlt.
    { apply Qnot_le_lt. intros Hle'%Qle_bool_iff. congruence. }
    split_and!; [by apply Qlt_le_weak| |done].
    intros Hle'. exfalso. by apply (Qlt_not_le _ _ Hlt).
Qed.

Lemma py_div_positive (a b : Q) :
  (0 < b)%Q → py_div a b = Ok (a / b)%Q ∧ ((0 < a)%Q → (0 < a / b)%Q).
Proof.
  intros Hb. unfold py_div. destruct (Qeq_bool b 0) eqn:Heq.
  - apply Qeq_bool_iff in Heq. rewrite Heq in Hb. by apply Qlt_irrefl in Hb.
  - split; [done|]. intros Ha. apply Qlt_shift_div_l; [done|]. by rewrite Qmult_0_l.
Qed.

End link_floor.

(** C8. The link works with [max(10, sample)]: any sample of at most 10 s,
    so every non-positive one, is raised to the floor of 10 s. The
    travel time in use is therefore positive, the division that gives
    the speed never fails, the bus it is given to runs at
    [length / travel time], which is positive for a link of positive
    length; and entering succeeds whenever the link has its distribution
    and the bus knows the distance of the head node. *)
Theorem link_travel_time_floor
    (l : Link.t) (bus : Bus) (t0 : Z) (sampled_tt : Q) :
  let tt := Link.effective_travel_time sampled_tt in
  ((sampled_tt <= 0)%Q → tt = 10%Q) ∧
  (0 < tt)%Q ∧
  Link.enter_bus sampled_tt bus t0 l ≠ Raise ZeroDivisionError ∧
  (∀ l', Link.enter_bus sampled_tt bus t0 l = Ok l' →
     ∃ bus', last (Link._buses l') = Some bus' ∧
             _bus_id bus' = _bus_id bus ∧ _route_id bus' = _route_id bus ∧
             speed bus' = (Link._length l / tt)%Q ∧
             ((0 < Link._length l)%Q → (0 < speed bus')%Q)) ∧
  (Link._tt_type l = "normal"%string →
   is_Some (_node_distance bus !! Link._head_node l) →
   ∃ l', Link.enter_bus sampled_tt bus t0 l = Ok l').
Proof.
  intros tt. destruct (effective_travel_time_floor sampled_tt) as (Hfloor & Hlow & _).
  fold tt in Hfloor, Hlow.
  assert (0 < tt)%Q as Hpos by (by apply (Qlt_le_trans _ 10)).
  destruct (py_div_positive (Link._length l) tt Hpos) as [Hdiv Hspeed].
  split_and!.
  - intros Hle. apply Hlow. by apply (Qle_trans _ 0).
  - done.
  - unfold Link.enter_bus. case_decide; [|done]. fold tt. rewrite Hdiv. simpl.
    unfold update_location. by destruct (_node_distance _ !! _).
  - intros l'. unfold Link.enter_bus. case_decide as Htype; [|done]. fold tt.
    rewrite Hdiv. simpl. intros H.
    apply bind_Ok in H as (bus3 & Hloc & H). injection H as <-. simpl.
    eexists. split; [by rewrite last_snoc|].
    apply update_location_Ok in Hloc as (Hid & Hroute & _ & _ & _ & _ & Hsp).
    assert (speed (set_status running_on_link bus3) = (Link._length l / tt)%Q) as ->.
    { destruct bus3; simpl in *. rewrite Hsp. by destruct bus. }
    split_and!; [|  |done|done].
    + destruct bus3; simpl in *. rewrite Hid. by destruct bus.
    + destruct bus3; simpl in *. rewrite Hroute. by destruct bus.
  - intros Htype [d Hd]. unfold Link.enter_bus. rewrite decide_True by done.
    fold tt. rewrite Hdiv. simpl. unfold update_location.
    assert (_node_distance
              (set_speed (Link._length l / tt)%Q
                 (set_bus_log
                    (record_when_enter_link (Link._link_id l)
                       (tt - Link._tt_mean l)%Q (bus_log bus)) bus))
              !! Link._head_node l = Some d) as ->; [by destruct bus|].
    simpl. eauto.
Qed.

(** ** The properties at work on the small corridor *)

Lemma stop_check_out_rule_witness :
  ∃ can_go, Stop._queue_rule_check_out 0 Demo.stop_dwelling = Ok can_go ∧
    (can_go = true ↔
     ∀ j, (0 < j < length (Stop._buses_in_berth Demo.stop_dwelling))%nat →
          Stop.free (Stop._buses_in_berth Demo.stop_dwelling) j).
Proof.
  refine (proj1 (stop_check_out_rule Demo.stop_dwelling 0 _ _)).
  - vm_compute. reflexivity.
  - vm_compute. lia.
Defined.

Lemma stop_admits_head_only_witness :
  ∃ s1,
    Stop._enter_berth 381 Demo.stop_queued = Ok s1 ∧
    Stop._entry_queue Demo.stop_tick.1.1 = Stop._entry_queue s1 ∧
    ((Stop._buses_in_berth s1 = Stop._buses_in_berth Demo.stop_queued ∧
      Forall2 Stop.same_bus (Stop._entry_queue Demo.stop_queued)
        (Stop._entry_queue s1)) ∨
     (∃ head_bus waiting target,
        Stop._entry_queue Demo.stop_queued = head_bus :: waiting ∧
        Stop._queue_rule_check_in Demo.stop_queued = Some target ∧
        Stop.free (Stop._buses_in_berth Demo.stop_queued) target ∧
        Stop._buses_in_berth s1 =
          <[target := Some (set_status dwelling_at_stop head_bus)]>
            (Stop._buses_in_berth Demo.stop_queued) ∧
        Forall2 Stop.same_bus waiting (Stop._entry_queue s1))).
Proof.
  apply (stop_admits_head_only 381 Demo.stop_queued Demo.stop_tick.1.1
           Demo.stop_tick.1.2 Demo.stop_tick.2).
  vm_compute. reflexivity.
Defined.

Lemma schedule_deviation_bookkeeping_witness :
  ∃ bus',
    last (Stop._entry_queue
            (ok_or Demo.stop_fifo
               (Stop.enter_stop (Demo.new_bus "1") 380 Demo.stop_fifo))) = Some bus' ∧
    stop_epsilon_arrival (bus_log bus') !! "s1"%string =
      Some (inject_Z 380 - (60 + 300 * inject_Z 1))%Q.
Proof.
  destruct (proj1 schedule_deviation_bookkeeping (Demo.new_bus "1") 380 Demo.stop_fifo
              (ok_or Demo.stop_fifo
                 (Stop.enter_stop (Demo.new_bus "1") 380 Demo.stop_fifo)))
    as (ts & va & bus' & e & by_bus & Hts & Hva & Hlast & Heps & _).
  - vm_compute. reflexivity.
  - vm_compute. reflexivity.
  - exists bus'. split; [exact Hlast|].
    vm_compute in Hts. injection Hts as <-.
    vm_compute in Hva. injection Hva as <-.
    exact Heps.
Defined.

Lemma pax_queue_board_truncation_witness :
  _paxs Demo.boarded.2 = [set_board_time (Some 400) (Demo.pax "b" 50)] ∧
  PaxQueue.group ["r"%string] Demo.boarded.1 = [Demo.pax "a" 100].
Proof.
  destruct (proj1 (pax_queue_board_truncation Demo.queue_arrival Demo.boarded.1
                     Demo.bus_arrived Demo.boarded.2 400 eq_refl eq_refl))
    as [(_ & Hbus & _)|(g & others & i & p & _ & _ & _ & _ & _ & _ & _)].
  - vm_compute in Hbus. discriminate Hbus.
  - vm_compute. done.
Defined.

Lemma link_travel_time_floor_witness :
  Link.effective_travel_time (-3) = 10%Q ∧
  ∃ l', Link.enter_bus (-3) (Demo.new_bus "1") 300 Demo.link = Ok l'.
Proof.
  destruct (link_travel_time_floor Demo.link (Demo.new_bus "1") 300 (-3))
    as (Hfloor & _ & _ & _ & Htotal).
  split.
  - apply Hfloor. vm_compute. discriminate.
  - apply Htotal; [reflexivity|]. vm_compute. eauto.
Defined.

(** * Further properties of the simulation core *)

(** ** Holder: the registry of waiting buses *)

Lemma od_keys_pop {K V} `{EqDecision K} (k : K) (d : OD.odict K V) :
  OD.keys (OD.pop k d) = filter (fun k' => k' ≠ k) (OD.keys d).
Proof.
  unfold OD.keys. induction d as [|[k' v] d IH]; simpl; [done|].
  rewrite filter_cons. simpl. case_decide as Hk.
  - subst. rewrite decide_False by tauto. done.
  - rewrite decide_True by congruence. rewrite fmap_cons. simpl. by f_equal.
Qed.

Lemma od_keys_set_same {K V W} `{EqDecision K} (k : K) (v : V) (w : W)
    (d : OD.odict K V) (e : OD.odict K W) :
  OD.keys d = OD.keys e → OD.keys (OD.set k v d) = OD.keys (OD.set k w e).
Proof.
  intros Hkeys. destruct (decide (k ∈ OD.keys d)) as [Hin|Hnin].
  - rewrite !od_keys_set_present; [done| by rewrite <- Hkeys | done].
  - rewrite !od_keys_set_absent; [by rewrite Hkeys| by rewrite <- Hkeys | done].
Qed.

Section holder_registry.
Import Holder.
Implicit Types (h : Holder.t) (k : key) (st : loop_state)
  (items : list (key * option Q)).

Lemma record_release_status hs k t0 (b0 b1 : Bus) (hl hl' : HolderLog) :
  record_release hs k t0 b0 hl = Ok (b1, hl') → _status b1 = _status b0.
Proof.
  destruct k as [[s r] i]. unfold record_release. intros Hrel. destruct hs.
  - apply bind_Ok in Hrel as ([bl eps] & _ & Hrel).
    apply bind_Ok in Hrel as (hl1 & _ & Hrel). injection Hrel as <- <-.
    by destruct b0.
  - apply bind_Ok in Hrel as ([bl eps] & _ & Hrel).
    apply bind_Ok in Hrel as (u & _ & Hrel).
    apply bind_Ok in Hrel as (hl1 & _ & Hrel). injection Hrel as <- <-.
    by destruct b0.
Qed.

Lemma filed_init vb hs : filed (init vb hs).
Proof. split_and!; [done|constructor|]. intros k b Hget. discriminate Hget. Qed.

Lemma filed_add_bus stop_id bus t0 h h' :
  filed h → add_bus stop_id bus t0 h = Ok h' → filed h'.
Proof.
  intros (Hkeys & Hnd & Hown) Hadd.
  apply add_bus_Ok in Hadd as (bus' & Ht & Hb & Hst & Hid & Hroute).
  unfold filed. rewrite Ht, Hb. split_and!.
  - by apply od_keys_set_same.
  - by apply od_NoDup_keys_set.
  - intros k b. rewrite od_get_set. case_decide as Hk.
    + intros [= <-]. subst k. simpl. by rewrite Hid, Hroute.
    + apply Hown.
Qed.

Lemma filed_set_hold_action a h h' :
  filed h → set_hold_action a h = Ok h' → filed h'.
Proof.
  intros (Hkeys & Hnd & Hown) Hset.
  apply set_hold_action_keys in Hset as (Ht & Hb & _).
  unfold filed. by rewrite Ht, Hb.
Qed.

Lemma filed_operation_step t0 st st' item :
  filed st.1.1 → operation_step t0 st item = Ok st' → filed st'.1.1.
Proof.
  destruct item as [k [ht|]]; intros Hf Hstep.
  - destruct st as [[h held] rem]. simpl in Hf. destruct Hf as (Hkeys & Hnd & Hown).
    apply operation_step_Some in Hstep
      as (b0 & b2 & hl' & held' & rem' & -> & Hb0 & Hcase). simpl.
    assert (_bus_id b2 = _bus_id b0 ∧ _route_id b2 = _route_id b0 ∧
            _status b2 = _status b0) as (Hid & Hroute & Hst).
    { destruct (Qle_bool (ht - 1) 0).
      - destruct Hcase as ((b1 & Hrel & Hloc) & _).
        pose proof (record_release_status _ _ _ _ _ _ _ Hrel) as Hst1.
        destruct k as [[s r] i].
        apply record_release_Ok in Hrel as (Hid1 & Hroute1 & _).
        apply update_location_Ok in Hloc as (Hid2 & Hroute2 & _ & Hst2 & _).
        split_and!; congruence.
      - destruct Hcase as (_ & Hloc & _).
        apply update_location_Ok in Hloc as (Hid2 & Hroute2 & _ & Hst2 & _).
        done. }
    split_and!; simpl.
    + by apply od_keys_set_same.
    + by apply od_NoDup_keys_set.
    + intros k' b. rewrite od_get_set. case_decide as Hk.
      * intros [= <-]. subst k'. rewrite Hid, Hroute, Hst. by apply Hown.
      * apply Hown.
  - rewrite operation_step_None in Hstep. by injection Hstep as <-.
Qed.

Lemma filed_operation_loop t0 items st st' :
  filed st.1.1 → operation_loop t0 items st = Ok st' → filed st'.1.1.
Proof.
  revert st. induction items as [|item items IH]; intros st Hf Hloop.
  - simpl in Hloop. by injection Hloop as <-.
  - apply operation_loop_cons_Ok in Hloop as (st1 & Hstep & Hloop).
    eauto using filed_operation_step.
Qed.

Lemma filed_remove_loop rem h h' :
  filed h → remove_loop rem h = Ok h' → filed h'.
Proof.
  revert h. induction rem as [|k rem IH]; intros h Hf Hrem; simpl in Hrem.
  - by injection Hrem as <-.
  - apply bind_Ok in Hrem as (b & _ & Hrem).
    apply bind_Ok in Hrem as (v & _ & Hrem).
    apply IH in Hrem; [done|]. destruct Hf as (Hkeys & Hnd & Hown).
    split_and!; simpl.
    + by rewrite !od_keys_pop, Hkeys.
    + by apply od_NoDup_keys_pop.
    + intros k' b'. rewrite od_get_pop. case_decide; [done|apply Hown].
Qed.

Lemma filed_operation t0 h h' released :
  filed h → operation t0 h = Ok (h', released) → filed h'.
Proof.
  intros Hf Hop. unfold operation in Hop.
  apply bind_Ok in Hop as ([[h1 held] rem] & Hloop & Hop).
  apply bind_Ok in Hop as (h2 & Hrem & Hop). injection Hop as <- <-.
  apply (filed_operation_loop _ _ (h, [], [])) in Hloop; [|done].
  eauto using filed_remove_loop.
Qed.

Lemma filed_run evs h h' : filed h → run evs h = Ok h' → filed h'.
Proof.
  revert h. induction evs as [|e evs IH]; intros h Hf Hrun; simpl in Hrun.
  - by injection Hrun as <-.
  - apply bind_Ok in Hrun as (h1 & Hev & Hrun). apply (IH h1); [|done].
    destruct e as [stop_id bus t0|a|t0]; simpl in Hev.
    + eauto using filed_add_bus.
    + eauto using filed_set_hold_action.
    + apply bind_Ok in Hev as ([h2 released] & Hop & Hev). injection Hev as <-.
      eauto using filed_operation.
Qed.

End holder_registry.

Section holder_decide.
Import Holder.
Implicit Types (h : Holder.t) (k : key) (a : list (key * Q)).

Lemma set_hold_action_total a h :
  NoDup a.*1 →
  (∀ k, k ∈ a.*1 → OD.get k (_identifier_time h) = Some None) →
  ∃ h', set_hold_action a h = Ok h' ∧
    ∀ k, OD.get k (_identifier_time h') =
         match OD.get k a with
         | Some v => Some (Some v)
         | None => OD.get k (_identifier_time h)
         end.
Proof.
  revert h. induction a as [|[k0 v0] a IH]; intros h Hnd Hall.
  - by exists h.
  - simpl in Hnd. apply NoDup_cons in Hnd as [Hnin Hnd].
    cbn [set_hold_action]. rewrite (Hall k0) by left. simpl.
    destruct (IH (mk (_identifier_bus h)
                     (OD.set k0 (Some v0) (_identifier_time h))
                     (holder_log h) (_has_schedule h)) Hnd) as (h' & Hset & Hget).
    { intros k Hk. simpl. rewrite od_get_set_ne; [apply Hall; by right|].
      by intros ->. }
    exists h'. split; [done|]. intros k. rewrite Hget. simpl.
    rewrite od_get_set. case_decide as Hk.
    + subst k0. rewrite decide_True by done.
      by rewrite (proj2 (od_get_None_keys k a)).
    + by rewrite decide_False by congruence.
Qed.

Lemma find_unheld_loop_Ok (items : list (key * Bus)) times acc :
  (∀ k, k ∈ items.*1 → is_Some (OD.get k times)) →
  find_unheld_loop items times acc =
    Ok (acc ++ filter (fun k => undecided times k = true) items.*1).
Proof.
  revert acc. induction items as [|[k b] items IH]; intros acc Hall; simpl.
  - by rewrite app_nil_r.
  - destruct (Hall k) as [v Hv]; [by left|]. rewrite Hv. simpl.
    rewrite IH by (intros k' Hk'; apply Hall; by right).
    assert (undecided times k = is_none v) as Hu.
    { unfold undecided. rewrite Hv. by destruct v. }
    rewrite filter_cons. cbn [fst]. rewrite Hu.
    destruct v as [x|]; simpl.
    + done.
    + by rewrite <- app_assoc.
Qed.

End holder_decide.

Section holder_conservation.
Import Holder.
Implicit Types (h : Holder.t) (k : key) (st : loop_state)
  (items : list (key * option Q)).

Lemma length_filter_ne {A} `{EqDecision A} (x : A) (l : list A) :
  NoDup l → x ∈ l → S (length (filter (fun y => y ≠ x) l)) = length l.
Proof.
  induction l as [|y l IH]; intros Hnd Hin; [by apply elem_of_nil in Hin|].
  apply NoDup_cons in Hnd as [Hnin Hnd]. rewrite filter_cons.
  destruct (decide (y = x)) as [->|Hne].
  - rewrite decide_False by tauto. simpl. f_equal.
    clear IH Hin Hnd. induction l as [|z l IH]; [done|].
    apply not_elem_of_cons in Hnin as [Hne Hnin]. rewrite filter_cons.
    rewrite decide_True by done. simpl. f_equal. by apply IH.
  - rewrite decide_True by done. simpl. f_equal. apply IH; [done|].
    apply elem_of_cons in Hin as [?|?]; [congruence|done].
Qed.

Lemma operation_step_keys t0 st st' item :
  filed st.1.1 → operation_step t0 st item = Ok st' →
  OD.keys (_identifier_time st'.1.1) = OD.keys (_identifier_time st.1.1).
Proof.
  destruct item as [k [ht|]]; intros (Hkeys & Hnd & Hown) Hstep.
  - destruct st as [[h held] rem].
    apply operation_step_Some in Hstep
      as (b0 & b2 & hl' & held' & rem' & -> & Hb0 & _). simpl in *.
    apply od_keys_set_present. rewrite <- Hkeys. apply od_get_Some_keys. by eexists.
  - rewrite operation_step_None in Hstep. by injection Hstep as <-.
Qed.

Lemma operation_loop_keys t0 items st st' :
  filed st.1.1 → operation_loop t0 items st = Ok st' →
  OD.keys (_identifier_time st'.1.1) = OD.keys (_identifier_time st.1.1).
Proof.
  revert st. induction items as [|item items IH]; intros st Hf Hloop.
  - simpl in Hloop. by injection Hloop as <-.
  - apply operation_loop_cons_Ok in Hloop as (st1 & Hstep & Hloop).
    rewrite (IH st1); eauto using operation_step_keys, filed_operation_step.
Qed.

Lemma remove_loop_length rem h h' :
  NoDup (OD.keys (_identifier_time h)) →
  remove_loop rem h = Ok h' →
  length (OD.keys (_identifier_time h)) =
    (length (OD.keys (_identifier_time h')) + length rem)%nat.
Proof.
  revert h. induction rem as [|k rem IH]; intros h Hnd Hrem; simpl in Hrem.
  - injection Hrem as <-. simpl. lia.
  - apply bind_Ok in Hrem as (b & _ & Hrem).
    apply bind_Ok in Hrem as (v & Hv%getitem_Ok & Hrem).
    apply IH in Hrem; [|by apply od_NoDup_keys_pop]. simpl in Hrem.
    rewrite od_keys_pop in Hrem.
    pose proof (length_filter_ne k (OD.keys (_identifier_time h)) Hnd) as Hlen.
    simpl. rewrite <- Hlen; [lia|]. apply od_get_Some_keys. by eexists.
Qed.

End holder_conservation.

Section holder_countdown.
Import Holder.
Implicit Types (h : Holder.t) (k : key).

Lemma ticks_S t0 (n : nat) : ticks t0 (S n) = EvOperation t0 :: ticks (t0 + 1) n.
Proof.
  unfold ticks. rewrite seqZ_cons by lia. rewrite fmap_cons.
  do 3 f_equal. lia.
Qed.

Lemma operation_loop_NoDup t0 (items : list (key * option Q)) st st' :
  NoDup (OD.keys (_identifier_time st.1.1)) →
  operation_loop t0 items st = Ok st' →
  NoDup (OD.keys (_identifier_time st'.1.1)).
Proof.
  revert st. induction items as [|[k0 v0] items IH]; intros st Hst Hloop.
  - simpl in Hloop. by injection Hloop as <-.
  - apply operation_loop_cons_Ok in Hloop as (st1 & Hstep & Hloop).
    apply (IH st1); [|done].
    destruct v0 as [ht|].
    + destruct st as [[g held0] rem0].
      apply operation_step_Some in Hstep
        as (b0 & b2 & hl' & held' & rem' & -> & _). simpl.
      by apply od_NoDup_keys_set.
    + rewrite operation_step_None in Hstep. by injection Hstep as <-.
Qed.

Lemma operation_NoDup t0 h h' released :
  NoDup (OD.keys (_identifier_time h)) →
  operation t0 h = Ok (h', released) →
  NoDup (OD.keys (_identifier_time h')).
Proof.
  intros Hnd Hop. unfold operation in Hop.
  apply bind_Ok in Hop as ([[h1 held] rem] & Hloop & Hop).
  apply bind_Ok in Hop as (h2 & Hrem & Hop). injection Hop as <- <-.
  apply operation_loop_NoDup in Hloop; [|done]. simpl in Hloop.
  clear Hnd. revert h1 Hloop Hrem.
  induction rem as [|k rem IH]; intros h1 Hnd1 Hrem; simpl in Hrem.
  - by injection Hrem as <-.
  - apply bind_Ok in Hrem as (b & _ & Hrem).
    apply bind_Ok in Hrem as (v & _ & Hrem).
    apply IH in Hrem; [done|]. by apply od_NoDup_keys_pop.
Qed.

Lemma operation_held_entry t0 h h' released k ht :
  NoDup (OD.keys (_identifier_time h)) →
  operation t0 h = Ok (h', released) →
  OD.get k (_identifier_time h) = Some (Some ht) →
  NoDup (OD.keys (_identifier_time h')) ∧
  ∃ b0 b,
    OD.get k (_identifier_bus h) = Some b0 ∧
    _bus_id b = _bus_id b0 ∧ _route_id b = _route_id b0 ∧
    if Qle_bool (ht - 1) 0 then
      OD.get k (_identifier_time h') = None ∧
      OD.get k (_identifier_bus h') = None ∧
      b ∈ default [] (OD.get k.1.1 released) ∧
      stop_departure_time (bus_log b) !! k.1.1 = Some t0
    else OD.get k (_identifier_time h') = Some (Some (ht - 1)%Q).
Proof.
  intros Hnd Hop Hk. unfold operation in Hop.
  apply bind_Ok in Hop as ([[h1 held] rem] & Hloop & Hop).
  apply bind_Ok in Hop as (h2 & Hrem & Hop). injection Hop as <- <-.
  pose proof (operation_loop_remove _ _ _ _ Hloop) as Hr. simpl in Hr. subst rem.
  pose proof (od_get_elem _ _ _ Hk) as Hin.
  pose proof (operation_loop_entry t0 _ _ _ k _ Hnd Hin Hloop) as Hent.
  unfold entry_outcome in Hent. simpl in Hent.
  destruct Hent as (Htime & b0 & b2 & Hb0 & Hb2 & Hid & Hroute & Hcase).
  split.
  - eapply operation_NoDup; [done|]. unfold operation. by rewrite Hloop; simpl; rewrite Hrem.
  - apply remove_loop_Ok in Hrem as (Hlog & _ & Hget).
    destruct (Hget k) as [Ht Hb]. rewrite Ht, Hb. clear Hget Ht Hb.
    exists b0, b2. split_and!; [done..|].
    destruct (Qle_bool (ht - 1) 0) eqn:Hle.
    + rewrite !decide_True by (apply elem_of_expired; eauto). tauto.
    + rewrite !decide_False; [done|..];
        intros (ht' & Hin' & Hle')%elem_of_expired;
        apply (od_get_Some_elem _ _ _ Hnd) in Hin'; congruence.
Qed.

Lemma ticks_keep_held (n : nat) t0 h h1 k ht :
  NoDup (OD.keys (_identifier_time h)) →
  OD.get k (_identifier_time h) = Some (Some ht) →
  (n = 0%nat ∨ inject_Z (Z.of_nat n) < ht)%Q →
  run (ticks t0 n) h = Ok h1 →
  NoDup (OD.keys (_identifier_time h1)) ∧
  ∃ r, OD.get k (_identifier_time h1) = Some (Some r) ∧
       (r == ht - inject_Z (Z.of_nat n))%Q.
Proof.
  revert t0 h ht. induction n as [|n IH]; intros t0 h ht Hnd Hk Hlt Hrun.
  - simpl in Hrun. injection Hrun as <-. split; [done|]. exists ht. split; [done|].
    simpl. unfold Qminus. rewrite Qplus_0_r. reflexivity.
  - rewrite ticks_S in Hrun. simpl in Hrun.
    apply bind_Ok in Hrun as (h' & Hev & Hrun).
    apply bind_Ok in Hev as ([h2 released] & Hop & Hev). injection Hev as ->.
    destruct Hlt as [Hlt|Hlt]; [done|].
    rewrite Nat2Z.inj_succ, <- Z.add_1_r, inject_Z_plus in Hlt.
    change (inject_Z 1) with 1%Q in Hlt.
    assert (0 <= inject_Z (Z.of_nat n))%Q as Hn.
    { change 0%Q with (inject_Z 0). rewrite <- Zle_Qle. lia. }
    destruct (operation_held_entry _ _ _ _ _ _ Hnd Hop Hk)
      as (Hnd' & b0 & b & _ & _ & _ & Hcase).
    destruct (Qle_bool (ht - 1) 0) eqn:Hle.
    { apply Qle_bool_iff in Hle. exfalso.
      lra. }
    destruct (IH (t0 + 1) h' (ht - 1)%Q Hnd' Hcase) as (Hnd1 & r & Hr & Heq); [|done|].
    { destruct n; [by left|right]. revert Hlt. generalize (inject_Z (Z.of_nat (S n))).
      intros x Hlt. lra. }
    split; [done|]. exists r. split; [done|]. rewrite Heq.
    rewrite Nat2Z.inj_succ, <- Z.add_1_r, inject_Z_plus.
    change (inject_Z 1) with 1%Q. generalize (inject_Z (Z.of_nat n)). intros x. lra.
Qed.

End holder_countdown.

Lemma filter_none {A} (P : A → Prop) `{∀ x, Decision (P x)} (l : list A) :
  (∀ x, x ∈ l → ¬ P x) → filter P l = [].
Proof.
  induction l as [|x l IH]; intros Hall; [done|].
  rewrite filter_cons, decide_False by (apply Hall; by left).
  apply IH. intros y Hy. apply Hall. by right.
Qed.

(** X1. In every state the holder reaches from its initial state through
    [add_bus], [set_hold_action] and [operation], the two dicts
    [_identifier_bus] and [_identifier_time] have the same keys in the same
    order, no key occurs twice, and every stored bus carries the route id
    and bus id of its key and has status [holding]. *)
Theorem holder_registry_invariant
    (virtual_bus : VirtualBus) (has_schedule : bool)
    (evs : list Holder.event) (h : Holder.t) :
  Holder.run evs (Holder.init virtual_bus has_schedule) = Ok h →
  Holder.filed h.
Proof. intros Hrun. eapply filed_run; [apply filed_init|done]. Qed.

Lemma holder_registry_invariant_witness : Holder.filed Demo.holder4.
Proof.
  apply (holder_registry_invariant Demo.vb true Demo.history Demo.holder4).
  vm_compute. reflexivity.
Defined.

(** X2. A decision map with distinct keys is accepted by [set_hold_action]
    exactly when every key of it is registered and still undecided. When it
    is accepted, the registered buses are untouched, each key of the map
    has the hold time the map gives it, and every other entry keeps its
    value. *)
Theorem holder_hold_action_accepted (a : list (Holder.key * Q)) (h : Holder.t) :
  NoDup a.*1 →
  ((∃ h', Holder.set_hold_action a h = Ok h') ↔
   ∀ k, k ∈ a.*1 → OD.get k (Holder._identifier_time h) = Some None) ∧
  ∀ h', Holder.set_hold_action a h = Ok h' →
    Holder._identifier_bus h' = Holder._identifier_bus h ∧
    ∀ k, OD.get k (Holder._identifier_time h') =
         match OD.get k a with
         | Some hold_time => Some (Some hold_time)
         | None => OD.get k (Holder._identifier_time h)
         end.
Proof.
  intros Hnd. split.
  - split.
    + intros [h' Hset] k Hk. by eapply set_hold_action_requires.
    + intros Hall. destruct (set_hold_action_total a h Hnd Hall) as (h' & Hset & _).
      by exists h'.
  - intros h' Hset.
    split; [by apply set_hold_action_keys in Hset as (_ & ? & _)|].
    destruct (set_hold_action_total a h Hnd) as (h'' & Hset' & Hget).
    + intros k Hk. by eapply set_hold_action_requires.
    + rewrite Hset in Hset'. by injection Hset' as <-.
Qed.

Lemma holder_hold_action_accepted_witness :
  ∃ h', Holder.set_hold_action Demo.action1 Demo.holder2 = Ok h'.
Proof.
  apply (holder_hold_action_accepted Demo.action1 Demo.holder2).
  - apply (bool_decide_unpack _). vm_compute. exact I.
  - intros k Hk. apply list_elem_of_singleton in Hk as ->. vm_compute. reflexivity.
Defined.

(** X3. In a state the holder reaches from its initial state,
    [_find_unheld_buses] does not raise and lists, without repetition,
    exactly the registered keys that still wait for a decision. Deciding a
    hold time for each listed key is accepted by [set_hold_action], gives
    each of them that hold time, and leaves no bus unheld. *)
Theorem holder_unheld_buses_decided
    (virtual_bus : VirtualBus) (has_schedule : bool)
    (evs : list Holder.event) (h : Holder.t) (hold : Holder.key → Q) :
  Holder.run evs (Holder.init virtual_bus has_schedule) = Ok h →
  ∃ unheld_buses,
    Holder._find_unheld_buses h = Ok unheld_buses ∧
    NoDup unheld_buses ∧
    (∀ k, k ∈ unheld_buses ↔ OD.get k (Holder._identifier_time h) = Some None) ∧
    ∃ h', Holder.set_hold_action ((fun k => (k, hold k)) <$> unheld_buses) h = Ok h' ∧
          (∀ k, k ∈ unheld_buses →
                OD.get k (Holder._identifier_time h') = Some (Some (hold k))) ∧
          Holder._find_unheld_buses h' = Ok [].
Proof.
  intros Hrun.
  assert (Holder.filed h) as (Hkeys & Hnd & Hown)
    by (eapply filed_run; [apply filed_init|done]).
  set (ks := filter (fun k => Holder.undecided (Holder._identifier_time h) k = true)
                    (OD.keys (Holder._identifier_bus h))).
  assert (∀ k, k ∈ ks ↔ OD.get k (Holder._identifier_time h) = Some None) as Hks.
  { intros k. unfold ks. rewrite list_elem_of_filter, Hkeys. unfold Holder.undecided.
    split.
    - intros [Hu _]. by destruct (OD.get k (Holder._identifier_time h)) as [[x|]|].
    - intros Hk. rewrite Hk. split; [done|]. apply od_get_Some_keys. by eexists. }
  assert (NoDup ks) as Hndks by (apply NoDup_filter; by rewrite Hkeys).
  exists ks. split_and!; [|done..|].
  { unfold Holder._find_unheld_buses. rewrite find_unheld_loop_Ok; [done|].
    intros k Hk. apply od_get_Some_keys. by rewrite <- Hkeys. }
  set (a := (fun k => (k, hold k)) <$> ks).
  assert (a.*1 = ks) as Ha.
  { unfold a. rewrite <- list_fmap_compose. apply list_fmap_id. }
  destruct (set_hold_action_total a h) as (h' & Hset & Hget).
  { by rewrite Ha. }
  { intros k. rewrite Ha. apply Hks. }
  assert (∀ k, k ∈ ks → OD.get k a = Some (hold k)) as Hka.
  { intros k Hk. apply od_get_Some_elem; [unfold OD.keys; by rewrite Ha|].
    apply list_elem_of_fmap. by exists k. }
  exists h'. split_and!; [done|..].
  - intros k Hk. by rewrite Hget, (Hka k Hk).
  - apply set_hold_action_keys in Hset as (Hkt & Hb & _).
    unfold Holder._find_unheld_buses. rewrite find_unheld_loop_Ok, Hb.
    + f_equal. simpl. apply filter_none. intros k Hk Hu.
      unfold Holder.undecided in Hu. rewrite Hget in Hu.
      destruct (OD.get k a) as [v|] eqn:Hk'; [done|].
      destruct (OD.get k (Holder._identifier_time h)) as [[x|]|] eqn:Hk''; try done.
      apply Hks in Hk''. rewrite (Hka k Hk'') in Hk'. done.
    + intros k Hk. apply od_get_Some_keys. rewrite Hkt. rewrite Hb in Hk.
      change (k ∈ OD.keys (Holder._identifier_bus h)) in Hk. by rewrite Hkeys in Hk.
Qed.

Lemma holder_unheld_buses_decided_witness :
  ∃ unheld_buses,
    Holder._find_unheld_buses Demo.holder4 = Ok unheld_buses ∧
    NoDup unheld_buses ∧
    (∀ k, k ∈ unheld_buses ↔
          OD.get k (Holder._identifier_time Demo.holder4) = Some None) ∧
    ∃ h', Holder.set_hold_action ((fun k => (k, 0%Q)) <$> unheld_buses) Demo.holder4
            = Ok h' ∧
          (∀ k, k ∈ unheld_buses →
                OD.get k (Holder._identifier_time h') = Some (Some 0%Q)) ∧
          Holder._find_unheld_buses h' = Ok [].
Proof.
  apply (holder_unheld_buses_decided Demo.vb true Demo.history Demo.holder4
           (fun _ => 0%Q)).
  vm_compute. reflexivity.
Defined.

(** X4. A hold of [hold_time] seconds lasts [max(1, ceil(hold_time))]
    ticks. If [n] ticks of the holder pass on an entry whose hold time is
    [hold_time], with [n = 0] or [n < hold_time], the bus is still held and
    its remaining time is [hold_time - n]; and if moreover
    [hold_time <= n + 1], the next tick, tick [t0 + n], releases it: the key
    leaves both dicts and the bus is among those handed back at its stop,
    with that tick as its departure time. *)
Theorem holder_hold_countdown
    (t0 : Z) (n : nat) (h h1 h2 : Holder.t)
    (released : OD.odict string (list Bus)) (k : Holder.key) (hold_time : Q) :
  NoDup (OD.keys (Holder._identifier_time h)) →
  OD.get k (Holder._identifier_time h) = Some (Some hold_time) →
  (n = 0%nat ∨ inject_Z (Z.of_nat n) < hold_time)%Q →
  (hold_time <= inject_Z (Z.of_nat n) + 1)%Q →
  Holder.run (Holder.ticks t0 n) h = Ok h1 →
  Holder.operation (t0 + Z.of_nat n) h1 = Ok (h2, released) →
  (∃ r, OD.get k (Holder._identifier_time h1) = Some (Some r) ∧
        (r == hold_time - inject_Z (Z.of_nat n))%Q) ∧
  OD.get k (Holder._identifier_time h2) = None ∧
  OD.get k (Holder._identifier_bus h2) = None ∧
  ∃ b, b ∈ default [] (OD.get k.1.1 released) ∧
       stop_departure_time (bus_log b) !! k.1.1 = Some (t0 + Z.of_nat n).
Proof.
  intros Hnd Hk Hlt Hle Hrun Hop.
  destruct (ticks_keep_held n t0 h h1 k hold_time Hnd Hk Hlt Hrun)
    as (Hnd1 & r & Hr & Heq).
  split; [by exists r|].
  destruct (operation_held_entry _ _ _ _ _ _ Hnd1 Hop Hr)
    as (_ & b0 & b & _ & _ & _ & Hcase).
  assert (Qle_bool (r - 1) 0 = true) as Hexp.
  { apply Qle_bool_iff. rewrite Heq. revert Hle.
    generalize (inject_Z (Z.of_nat n)). intros x Hle. lra. }
  rewrite Hexp in Hcase. destruct Hcase as (Ht & Hb & Hin & Hdep). eauto.
Qed.

Lemma holder_hold_countdown_witness :
  ∃ b, b ∈ default [] (OD.get "s1"%string Demo.release.2) ∧
       stop_departure_time (bus_log b) !! "s1"%string = Some 372.
Proof.
  apply (holder_hold_countdown 371 1 Demo.holder3 Demo.held_once
           Demo.release.1 Demo.release.2 Demo.k1 2%Q).
  - apply (bool_decide_unpack _). vm_compute. exact I.
  - vm_compute. reflexivity.
  - right. reflexivity.
  - vm_compute. discriminate.
  - vm_compute. reflexivity.
  - vm_compute. reflexivity.
Defined.

(** X5. A tick of the holder neither loses nor duplicates a bus: in a state
    reached from the initial one, the number of registered buses before the
    tick is the number registered after it plus the number of buses the tick
    hands back. *)
Theorem holder_tick_conserves_buses
    (virtual_bus : VirtualBus) (has_schedule : bool) (evs : list Holder.event)
    (t0 : Z) (h h' : Holder.t) (released : OD.odict string (list Bus)) :
  Holder.run evs (Holder.init virtual_bus has_schedule) = Ok h →
  Holder.operation t0 h = Ok (h', released) →
  length (OD.keys (Holder._identifier_bus h)) =
    (length (OD.keys (Holder._identifier_bus h')) +
     Holder.released_count released)%nat.
Proof.
  intros Hrun Hop.
  assert (Holder.filed h) as Hf by (eapply filed_run; [apply filed_init|done]).
  pose proof (filed_operation _ _ _ _ Hf Hop) as (Hkeys' & _).
  unfold Holder.operation in Hop.
  apply bind_Ok in Hop as ([[h1 held] rem] & Hloop & Hop).
  apply bind_Ok in Hop as (h2 & Hrem & Hop). injection Hop as <- <-.
  pose proof (operation_loop_remove _ _ _ _ Hloop) as Hr. simpl in Hr. subst rem.
  pose proof (operation_loop_count _ _ _ _ Hloop) as Hcount. simpl in Hcount.
  pose proof (operation_loop_keys _ _ (h, [], []) _ Hf Hloop) as Hkeys1.
  simpl in Hkeys1.
  pose proof (filed_operation_loop _ _ (h, [], []) _ Hf Hloop) as (_ & Hnd1 & _).
  simpl in Hnd1.
  apply remove_loop_length in Hrem; [|done].
  destruct Hf as (Hkeys & _). rewrite Hkeys, Hkeys', <- Hkeys1, Hrem, Hcount.
  unfold Holder.released_count. simpl. lia.
Qed.

Lemma holder_tick_conserves_buses_witness :
  length (OD.keys (Holder._identifier_bus Demo.holder4)) =
    (length (OD.keys (Holder._identifier_bus Demo.tick.1)) +
     Holder.released_count Demo.tick.2)%nat.
Proof.
  apply (holder_tick_conserves_buses Demo.vb true Demo.history 372).
  - vm_compute. reflexivity.
  - vm_compute. reflexivity.
Defined.

(** ** Stops: the leave queue *)

Section stop_leave.
Import Stop.
Implicit Types (s : Stop.t).

Lemma record_rtd_Ok t0 (bus bus' : Bus) s log' :
  record_rtd t0 bus s = Ok (bus', log') →
  ready_to_depart (_stop_id s) t0 bus bus'.
Proof.
  unfold record_rtd. intros Hrec. destruct (_has_schedule s).
  - apply bind_Ok in Hrec as (ids & _ & Hrec).
    apply bind_Ok in Hrec as ([bl eps] & Hrtd & Hrec).
    apply bind_Ok in Hrec as (log1 & _ & Hrec). injection Hrec as <- <-.
    apply record_when_rtd_Ok in Hrtd as (Hrtd & _). by destruct bus.
  - apply bind_Ok in Hrec as ([bl eps] & Hrtd & Hrec).
    apply bind_Ok in Hrec as (u & _ & Hrec).
    apply bind_Ok in Hrec as (log1 & _ & Hrec). injection Hrec as <- <-.
    apply record_when_rtd_Ok in Hrtd as (Hrtd & _). by destruct bus.
Qed.

Lemma leave_loop_every_other fuel t0 s acc s' acc' (pre suf : list Bus) :
  _leave_queue s = pre ++ suf → (length suf ≤ fuel)%nat →
  leave_loop fuel t0 (length pre) (s, acc) = Ok (s', acc') →
  _leave_queue s' = pre ++ every_other (tail suf) ∧
  (∃ out, acc' = acc ++ out ∧
          Forall2 (ready_to_depart (_stop_id s) t0) (every_other suf) out) ∧
  _entry_queue s' = _entry_queue s ∧ _buses_in_berth s' = _buses_in_berth s ∧
  _stop_id s' = _stop_id s ∧ _pax_queue s' = _pax_queue s.
Proof.
  revert s acc pre suf.
  induction fuel as [|fuel IH]; intros s acc pre suf Hq Hlen Hloop.
  - destruct suf; [|simpl in Hlen; lia]. simpl in Hloop. injection Hloop as <- <-.
    split_and!; try done. exists []. by rewrite app_nil_r.
  - simpl in Hloop. rewrite Hq in Hloop. destruct suf as [|x suf1].
    + rewrite lookup_ge_None_2 in Hloop by (rewrite app_nil_r; lia).
      injection Hloop as <- <-. split_and!; try done.
      exists []. by rewrite app_nil_r.
    + rewrite list_lookup_middle in Hloop by done.
      apply bind_Ok in Hloop as ([bus' log'] & Hrec & Hloop).
      apply record_rtd_Ok in Hrec.
      assert (delete (length pre) (pre ++ x :: suf1) = pre ++ suf1) as Hdel.
      { clear. induction pre as [|p pre IHp]; simpl; [done|by f_equal]. }
      rewrite Hdel in Hloop.
      destruct suf1 as [|y suf2].
      * assert (s' = set_leave_queue (pre ++ []) (set_stop_log log' s) ∧
                acc' = acc ++ [bus']) as [-> ->].
        { destruct fuel; simpl in Hloop.
          - by injection Hloop as <- <-.
          - rewrite lookup_ge_None_2 in Hloop.
            + by injection Hloop as <- <-.
            + destruct s; simpl. rewrite app_nil_r. lia. }
        split_and!; try by destruct s.
        exists [bus']. split; [done|]. simpl. by constructor.
      * replace (S (length pre)) with (length (pre ++ [y])) in Hloop
          by (rewrite length_app; simpl; lia).
        apply (IH _ _ (pre ++ [y]) suf2) in Hloop
          as (Hq' & (out & -> & Hout) & He & Hb & Hs & Hp).
        -- split_and!.
           ++ rewrite Hq', <- app_assoc. simpl. by destruct suf2.
           ++ exists (bus' :: out). rewrite <- app_assoc. split; [done|].
              simpl. constructor; [done|].
              replace (_stop_id s) with
                (_stop_id (set_leave_queue (pre ++ y :: suf2) (set_stop_log log' s)))
                by by destruct s.
              done.
           ++ rewrite He. by destruct s.
           ++ rewrite Hb. by destruct s.
           ++ rewrite Hs. by destruct s.
           ++ rewrite Hp. by destruct s.
        -- destruct s; simpl. by rewrite <- app_assoc.
        -- simpl in Hlen. lia.
Qed.

End stop_leave.

(** X6. [_leave] removes each bus it handles from the very list it iterates
    over, so it handles every other bus of the leave queue: the buses at
    positions 0, 2, 4, ... are returned, each with tick [t] as its
    ready-to-depart time at the stop, and the buses at positions 1, 3, ...
    stay in the leave queue until the next tick. Nothing else of the stop's
    buses changes. *)
Theorem stop_leave_every_other
    (t0 : Z) (s s' : Stop.t) (leaving_buses : list Bus) :
  Stop._leave t0 s = Ok (s', leaving_buses) →
  Forall2 (Stop.ready_to_depart (Stop._stop_id s) t0)
          (Stop.every_other (Stop._leave_queue s)) leaving_buses ∧
  Stop._leave_queue s' = Stop.every_other (tail (Stop._leave_queue s)) ∧
  Stop._entry_queue s' = Stop._entry_queue s ∧
  Stop._buses_in_berth s' = Stop._buses_in_berth s.
Proof.
  intros Hleave. unfold Stop._leave in Hleave.
  apply (leave_loop_every_other _ _ _ _ _ _ [] (Stop._leave_queue s)) in Hleave
    as (Hq & (out & -> & Hout) & He & Hb & _); [|done|done].
  done.
Qed.

(** ** Stops: the buses present over a tick *)

Lemma omap_insert_free {A} (l : list (option A)) (i : nat) (x : A) :
  l !! i = Some None → omap id (<[i := Some x]> l) ≡ₚ x :: omap id l.
Proof.
  revert i. induction l as [|[y|] l IH]; intros [|i] Hi; try done; simpl in *.
  - rewrite (IH i Hi). apply Permutation_swap.
  - by apply IH.
Qed.

Lemma omap_insert_same {A B} (f : A → B) (l : list (option A)) (i : nat) (x y : A) :
  l !! i = Some (Some x) → f y = f x →
  f <$> omap id (<[i := Some y]> l) = f <$> omap id l.
Proof.
  intros Hi Hf. revert i Hi.
  induction l as [|[z|] l IH]; intros [|i] Hi; try done; simpl in *.
  - injection Hi as ->. by rewrite Hf.
  - f_equal. by apply IH.
  - by apply IH.
Qed.

Lemma omap_insert_vacate {A} (l : list (option A)) (i : nat) (x : A) :
  l !! i = Some (Some x) → omap id l ≡ₚ x :: omap id (<[i := None]> l).
Proof.
  revert i. induction l as [|[y|] l IH]; intros [|i] Hi; try done; simpl in *.
  - by injection Hi as ->.
  - rewrite (IH i Hi). apply Permutation_swap.
  - by apply IH.
Qed.

Lemma every_other_Permutation {A} (l : list A) :
  l ≡ₚ Stop.every_other l ++ Stop.every_other (tail l).
Proof.
  assert (∀ n (l : list A), (length l ≤ n)%nat →
            l ≡ₚ Stop.every_other l ++ Stop.every_other (tail l)) as Hgen.
  { clear l. induction n as [|n IH]; intros [|x [|y l]] Hlen; simpl in *;
      try done; try lia.
    constructor. rewrite <- Permutation_middle. constructor.
    rewrite (IH l) at 1 by lia. by destruct l. }
  by apply (Hgen (length l)).
Qed.

Section stop_census.
Import Stop.
Implicit Types (s : Stop.t).

Lemma same_bus_ident (l l' : list Bus) :
  Forall2 same_bus l l' → ident <$> l = ident <$> l'.
Proof.
  induction 1 as [|b b' l l' (Hid & Hroute & _) _ IH]; [done|].
  rewrite !fmap_cons, IH. unfold ident. by rewrite Hid, Hroute.
Qed.

Lemma ready_to_depart_ident stop_id t0 (l l' : list Bus) :
  Forall2 (ready_to_depart stop_id t0) l l' → ident <$> l' = ident <$> l.
Proof.
  induction 1 as [|b b' l l' [Hid _] _ IH]; [done|].
  by rewrite !fmap_cons, IH, Hid.
Qed.

Lemma board_ident (bus bus' : Bus) t0 q q' :
  PaxQueue.board bus t0 q = Ok (q', bus') → ident bus' = ident bus.
Proof.
  unfold PaxQueue.board. intros Hboard.
  destruct (_board_status bus) eqn:Hst.
  - apply bind_Ok in Hboard as (b1 & Hacc & Hboard). injection Hboard as <- <-.
    apply accumate_board_fraction_Ok in Hacc as (_ & Hid & Hroute & _).
    unfold ident. by rewrite Hid, Hroute.
  - destruct (PaxQueue._get_served_groups (_route_id bus) q) as [|g gs].
    { by injection Hboard as <- <-. }
    apply bind_Ok in Hboard as (u & _ & Hboard).
    apply bind_Ok in Hboard as (candidates & _ & Hboard).
    destruct candidates as [|[i head_pax] rest].
    { by injection Hboard as <- <-. }
    apply bind_Ok in Hboard as (b2 & Hacc & Hboard). injection Hboard as <- <-.
    apply accumate_board_fraction_Ok in Hacc as (_ & Hid & Hroute & _).
    unfold ident. rewrite Hid, Hroute. by destruct bus.
Qed.

Lemma alight_ident stop_id (bus bus' : Bus) leaving :
  Bus_alight stop_id bus = Ok (bus', leaving) → ident bus' = ident bus.
Proof.
  unfold Bus_alight. intros Halight. destruct (_alight_status bus).
  - destruct (_pax_alight_rate bus) as [r|]; [|done].
    destruct (Qle_bool _ _); injection Halight as <- <-; by destruct bus.
  - destruct (list_find _ _) as [[i pax]|]; injection Halight as <- <-;
      [by destruct bus|done].
Qed.

Lemma update_location_ident t0 spot_type spot_id node_id offset st (b b' : Bus) :
  update_location t0 spot_type spot_id node_id offset st b = Ok b' →
  ident b' = ident b.
Proof.
  intros (Hid & Hroute & _)%update_location_Ok. unfold ident. by rewrite Hid, Hroute.
Qed.

Lemma enter_berth_census t0 s s' :
  _enter_berth t0 s = Ok s' → census s' ≡ₚ census s.
Proof.
  unfold _enter_berth. intros Henter.
  destruct (_entry_queue s) as [|head_bus waiting] eqn:Hq.
  { by injection Henter as <-. }
  apply bind_Ok in Henter as (queue' & Hloop & Henter). injection Henter as <-.
  apply queueing_loop_Ok, same_bus_ident in Hloop.
  destruct (_queue_rule_check_in s) as [target|] eqn:Hin.
  - apply check_in_free in Hin. unfold free in Hin.
    unfold census, get_total_buses.
    replace (_entry_queue s) with (head_bus :: waiting).
    destruct s; simpl in *. rewrite !fmap_app, <- Hloop.
    rewrite (omap_insert_free _ _ _ Hin). rewrite fmap_cons.
    replace (ident (set_status dwelling_at_stop head_bus)) with (ident head_bus)
      by by destruct head_bus.
    by rewrite <- Permutation_middle.
  - unfold census, get_total_buses. rewrite Hq in Hloop.
    replace (_entry_queue s) with (head_bus :: waiting).
    destruct s; simpl in *. by rewrite !fmap_app, <- Hloop.
Qed.

Lemma board_loop_census t0 range_ s s' :
  board_loop t0 range_ s = Ok s' → census s' = census s.
Proof.
  revert s. induction range_ as [|b rest IH]; intros s Hloop; simpl in Hloop.
  - by injection Hloop as <-.
  - destruct (_buses_in_berth s !! b) as [[bus|]|] eqn:Hb; [|by apply IH..].
    apply bind_Ok in Hloop as ([q bus1] & Hboard & Hloop).
    apply bind_Ok in Hloop as (bus2 & Hloc & Hloop).
    apply IH in Hloop as ->.
    apply board_ident in Hboard. apply update_location_ident in Hloc.
    assert (ident bus2 = ident bus) as Hid.
    { rewrite Hloc, <- Hboard. by destruct bus1. }
    unfold census, get_total_buses. destruct s; simpl in *.
    by rewrite !fmap_app, (omap_insert_same ident _ _ _ _ Hb Hid).
Qed.

Lemma alight_loop_census t0 range_ s acc s' acc' :
  alight_loop t0 range_ (s, acc) = Ok (s', acc') → census s' = census s.
Proof.
  revert s acc. induction range_ as [|b rest IH]; intros s acc Hloop; simpl in Hloop.
  - by injection Hloop as <- <-.
  - destruct (_buses_in_berth s !! b) as [[bus|]|] eqn:Hb; [|by eapply IH..].
    apply bind_Ok in Hloop as ([bus1 leaving] & Halight & Hloop).
    apply bind_Ok in Hloop as (bus2 & Hloc & Hloop).
    apply IH in Hloop as ->.
    apply alight_ident in Halight. apply update_location_ident in Hloc.
    assert (ident bus2 = ident bus) as Hid by congruence.
    unfold census, get_total_buses. destruct s; simpl in *.
    by rewrite !fmap_app, (omap_insert_same ident _ _ _ _ Hb Hid).
Qed.

Lemma check_leave_loop_census range_ s s' :
  check_leave_loop range_ s = Ok s' → census s' ≡ₚ census s.
Proof.
  revert s. induction range_ as [|b rest IH]; intros s Hloop; simpl in Hloop.
  - by injection Hloop as <-.
  - destruct (_buses_in_berth s !! b) as [[bus|]|] eqn:Hb; [|by apply IH..].
    apply bind_Ok in Hloop as (finished & _ & Hloop).
    destruct finished; [|by apply IH].
    apply bind_Ok in Hloop as (can_go & _ & Hloop).
    destruct can_go; [|by apply IH].
    apply IH in Hloop as ->.
    unfold census, get_total_buses. destruct s; simpl in *.
    rewrite !fmap_app. rewrite (omap_insert_vacate _ _ _ Hb).
    simpl. rewrite <- !Permutation_middle. rewrite app_nil_r. done.
Qed.

End stop_census.

(** X7. A tick of a stop neither loses nor duplicates a bus: the buses at
    the stop before the tick (entry queue, berths and leave queue,
    identified by route id and bus id) are, up to order, the buses at the
    stop after the tick together with the buses the tick returns as
    leaving. *)
Theorem stop_operation_conserves_buses
    (t0 : Z) (s s' : Stop.t) (leaving_buses : list Bus) (leaving_paxs : list Pax) :
  Stop.operation t0 s = Ok (s', leaving_buses, leaving_paxs) →
  Stop.census s ≡ₚ Stop.census s' ++ (Stop.ident <$> leaving_buses).
Proof.
  intros Hop. unfold Stop.operation in Hop.
  apply bind_Ok in Hop as (s1 & H1 & Hop).
  apply bind_Ok in Hop as (s2 & H2 & Hop).
  apply bind_Ok in Hop as ([s3 paxs] & H3 & Hop).
  apply bind_Ok in Hop as (s4 & H4 & Hop).
  apply bind_Ok in Hop as ([s5 buses] & H5 & Hop). injection Hop as <- <- <-.
  apply enter_berth_census in H1. apply board_loop_census in H2.
  assert (Stop.census s3 = Stop.census s2) as H3'.
  { unfold Stop._alight in H3. destruct (Stop.class s2).
    - by injection H3 as <- <-.
    - by apply alight_loop_census in H3. }
  apply check_leave_loop_census in H4.
  apply (leave_loop_every_other _ _ _ _ _ _ [] (Stop._leave_queue s4)) in H5
    as (Hq & (out & -> & Hout) & He & Hb & _); [|done|done].
  apply ready_to_depart_ident in Hout.
  rewrite <- H1, <- H2, <- H3', <- H4. simpl. rewrite Hout.
  unfold Stop.census, Stop.get_total_buses.
  destruct s5; simpl in *. rewrite He, Hb, !fmap_app, Hq.
  rewrite (every_other_Permutation (Stop._leave_queue s4)) at 1.
  rewrite fmap_app, <- !app_assoc. do 2 f_equiv. apply Permutation_app_comm.
Qed.

Lemma stop_leave_every_other_witness :
  Forall2 (Stop.ready_to_depart "s1" 400) [Demo.new_bus "1"] Demo.left.2 ∧
  Stop._leave_queue Demo.left.1 = [Demo.new_bus "2"] ∧
  Stop._entry_queue Demo.left.1 = [] ∧
  Stop._buses_in_berth Demo.left.1 = [None; None].
Proof.
  apply (stop_leave_every_other 400 Demo.stop_leaving Demo.left.1 Demo.left.2).
  vm_compute. reflexivity.
Defined.

Lemma stop_operation_conserves_buses_witness :
  Stop.census Demo.stop_queued ≡ₚ
    Stop.census Demo.stop_tick.1.1 ++ (Stop.ident <$> Demo.stop_tick.1.2).
Proof.
  apply (stop_operation_conserves_buses 381 Demo.stop_queued
           Demo.stop_tick.1.1 Demo.stop_tick.1.2 Demo.stop_tick.2).
  vm_compute. reflexivity.
Defined.

(** ** Passenger queue: counting the passengers *)

Section od_values.
Context {K V : Type} `{EqDecision K}.
Implicit Types (d : OD.odict K (list V)).

Lemma od_total_concat d :
  NoDup (OD.keys d) →
  sum_list ((fun g => length (default [] (OD.get g d))) <$> OD.keys d) =
  length (concat d.*2).
Proof.
  unfold OD.keys. induction d as [|[k v] d IH]; intros Hnd; [done|].
  simpl in Hnd. apply NoDup_cons in Hnd as [Hnin Hnd].
  rewrite !fmap_cons. cbn [fst snd concat sum_list sum_list_with OD.get].
  rewrite decide_True by done. rewrite length_app. simpl. f_equal.
  rewrite <- (IH Hnd). f_equal. apply Forall_fmap_ext, Forall_forall.
  intros g Hg. cbn [OD.get]. rewrite decide_False; [done|]. by intros ->.
Qed.

Lemma od_concat_append d k (x : V) :
  length (concat (OD.set k (default [] (OD.get k d) ++ [x]) d).*2) =
  S (length (concat d.*2)).
Proof.
  induction d as [|[k' vs] d IH]; simpl; [done|].
  case_decide as Hk; simpl.
  - rewrite !length_app. simpl. lia.
  - rewrite !length_app. unfold fmap in IH. rewrite IH. lia.
Qed.

Lemma od_concat_set d k (old v : list V) :
  NoDup (OD.keys d) → OD.get k d = Some old →
  (length (concat (OD.set k v d).*2) + length old =
   length (concat d.*2) + length v)%nat.
Proof.
  unfold OD.keys. induction d as [|[k' vs] d IH]; intros Hnd Hget; [done|].
  simpl in Hnd. apply NoDup_cons in Hnd as [Hnin Hnd]. simpl in *.
  case_decide as Hk; simpl.
  - injection Hget as ->. rewrite !length_app. lia.
  - rewrite !length_app. specialize (IH Hnd Hget). unfold fmap in IH. lia.
Qed.

End od_values.

Lemma length_list_remove {A} (eqb : A → A → bool) (x : A) (l : list A) :
  x ∈ l → eqb x x = true → S (length (list_remove eqb x l)) = length l.
Proof.
  induction l as [|y l IH]; intros Hin Hrefl; [by apply elem_of_nil in Hin|].
  simpl. destruct (eqb y x) eqn:Hy; [done|]. simpl. f_equal. apply IH; [|done].
  apply elem_of_cons in Hin as [->|Hin]; [congruence|done].
Qed.

Section pax_queue_total.
Import PaxQueue.
Implicit Types (q : PaxQueue.t) (bus : Bus).

Lemma get_total_pax_num_concat q :
  NoDup (OD.keys (_route_group_paxs q)) →
  get_total_pax_num q = length (concat (_route_group_paxs q).*2).
Proof. apply od_total_concat. Qed.

Lemma add_pax_total pax q :
  NoDup (OD.keys (_route_group_paxs q)) →
  NoDup (OD.keys (_route_group_paxs (add_pax pax q))) ∧
  get_total_pax_num (add_pax pax q) = S (get_total_pax_num q).
Proof.
  intros Hnd.
  assert (NoDup (OD.keys (_route_group_paxs (add_pax pax q)))) as Hnd'
    by by apply od_NoDup_keys_set.
  split; [done|]. rewrite !get_total_pax_num_concat by done.
  apply od_concat_append.
Qed.

Lemma pax_arrive_total paxs q :
  NoDup (OD.keys (_route_group_paxs q)) →
  NoDup (OD.keys (_route_group_paxs (foldl (fun q pax => add_pax pax q) q paxs))) ∧
  get_total_pax_num (foldl (fun q pax => add_pax pax q) q paxs) =
    (get_total_pax_num q + length paxs)%nat.
Proof.
  revert q. induction paxs as [|pax paxs IH]; intros q Hnd; simpl.
  - split; [done|lia].
  - destruct (add_pax_total pax q Hnd) as [Hnd' Htotal].
    destruct (IH _ Hnd') as [Hnd'' Htotal'']. split; [done|].
    rewrite Htotal'', Htotal. lia.
Qed.

Lemma board_total bus t0 q q' bus' :
  NoDup (OD.keys (_route_group_paxs q)) →
  board bus t0 q = Ok (q', bus') →
  NoDup (OD.keys (_route_group_paxs q')) ∧
  (get_total_pax_num q + length (_paxs bus) =
   get_total_pax_num q' + length (_paxs bus'))%nat.
Proof.
  intros Hnd Hboard. unfold board in Hboard.
  destruct (_board_status bus) eqn:Hst.
  - apply bind_Ok in Hboard as (b1 & Hacc & Hboard). injection Hboard as <- <-.
    apply accumate_board_fraction_Ok in Hacc as (-> & _). done.
  - destruct (_get_served_groups (_route_id bus) q) as [|g gs] eqn:Hgroups.
    { by injection Hboard as <- <-. }
    apply bind_Ok in Hboard as (u & _ & Hboard).
    apply bind_Ok in Hboard as (candidates & Hcand & Hboard).
    destruct candidates as [|[i head_pax] rest].
    { by injection Hboard as <- <-. }
    apply bind_Ok in Hboard as (b2 & Hacc & Hboard). injection Hboard as <- <-.
    apply accumate_board_fraction_Ok in Hacc as (-> & _).
    apply board_paxs_Ok in Hcand.
    symmetry in Hcand. apply filter_imap_head in Hcand as (_ & Hi & _).
    rewrite Nat.sub_0_r in Hi.
    assert (g ∈ OD.keys (_route_group_paxs q)) as Hg.
    { assert (g ∈ _get_served_groups (_route_id bus) q) as Hin
        by (rewrite Hgroups; left).
      unfold _get_served_groups in Hin. by apply list_elem_of_filter in Hin as [_ ?]. }
    apply od_get_Some_keys in Hg as [old Hold].
    unfold group in *. rewrite Hold in *. simpl in *.
    split; [by apply od_NoDup_keys_set|].
    rewrite !get_total_pax_num_concat by (try done; by apply od_NoDup_keys_set).
    simpl.
    pose proof (od_concat_set (_route_group_paxs q) g old
      (list_remove pax_eqb (set_board_time (Some t0) head_pax)
         (<[i:=set_board_time (Some t0) head_pax]> old)) Hnd Hold) as Hsum.
    pose proof (length_list_remove pax_eqb (set_board_time (Some t0) head_pax)
      (<[i:=set_board_time (Some t0) head_pax]> old)) as Hrem.
    rewrite length_insert in Hrem.
    rewrite <- Hrem in Hsum.
    + destruct bus; simpl in *. rewrite length_app. simpl. lia.
    + apply list_elem_of_insert. by eapply lookup_lt_Some.
    + apply pax_eqb_refl.
Qed.

End pax_queue_total.

(** X8. Passengers arriving at a stop all join its queue: when no route
    group is listed twice, [pax_arrive] raises the total [get_total_pax_num]
    reports by exactly the number of passengers handed over, and still no
    group is listed twice. *)
Theorem stop_pax_arrive_total (paxs : list Pax) (s : Stop.t) :
  NoDup (OD.keys (PaxQueue._route_group_paxs (Stop._pax_queue s))) →
  NoDup (OD.keys (PaxQueue._route_group_paxs
                    (Stop._pax_queue (Stop.pax_arrive paxs s)))) ∧
  PaxQueue.get_total_pax_num (Stop._pax_queue (Stop.pax_arrive paxs s)) =
    (PaxQueue.get_total_pax_num (Stop._pax_queue s) + length paxs)%nat.
Proof.
  intros Hnd. unfold Stop.pax_arrive.
  destruct (pax_arrive_total paxs (Stop._pax_queue s) Hnd) as [Hnd' Htotal].
  by destruct s.
Qed.

Lemma stop_pax_arrive_total_witness :
  PaxQueue.get_total_pax_num
    (Stop._pax_queue (Stop.pax_arrive [Demo.pax "a" 100; Demo.pax "b" 50]
                        Demo.stop_fo)) = 2%nat.
Proof.
  apply (stop_pax_arrive_total [Demo.pax "a" 100; Demo.pax "b" 50] Demo.stop_fo).
  apply (bool_decide_unpack _). vm_compute. exact I.
Defined.

(** X9. Boarding moves passengers, it never creates or drops one: whatever
    [PaxQueue.board] does for a bus (nothing, a further fraction of the
    passenger who is boarding, or taking the next passenger), the number of
    passengers in the queue plus the number on the bus is the same before
    and after. *)
Theorem pax_queue_board_conserves
    (bus bus' : Bus) (t0 : Z) (q q' : PaxQueue.t) :
  NoDup (OD.keys (PaxQueue._route_group_paxs q)) →
  PaxQueue.board bus t0 q = Ok (q', bus') →
  (PaxQueue.get_total_pax_num q + length (_paxs bus) =
   PaxQueue.get_total_pax_num q' + length (_paxs bus'))%nat.
Proof. intros Hnd Hboard. by apply board_total in Hboard as [_ ?]. Qed.

Lemma pax_queue_board_conserves_witness :
  (PaxQueue.get_total_pax_num Demo.queue_arrival + length (_paxs Demo.bus_arrived) =
   PaxQueue.get_total_pax_num Demo.boarded.1 + length (_paxs Demo.boarded.2))%nat.
Proof.
  apply (pax_queue_board_conserves Demo.bus_arrived Demo.boarded.2 400
           Demo.queue_arrival Demo.boarded.1).
  - apply (bool_decide_unpack _). vm_compute. exact I.
  - vm_compute. reflexivity.
Defined.

(** ** Buses: letting passengers off *)

Lemma pax_eqb_destination (p p' : Pax) :
  pax_eqb p p' = true → destination p = destination p'.
Proof.
  unfold pax_eqb. rewrite !andb_true_iff, !bool_decide_eq_true. tauto.
Qed.

Lemma length_filter_list_remove {A} (eqb : A → A → bool) (P : A → Prop)
    `{∀ x, Decision (P x)} (x : A) (l : list A) :
  x ∈ l → eqb x x = true → (∀ y, eqb y x = true → P y) → P x →
  S (length (filter P (list_remove eqb x l))) = length (filter P l).
Proof.
  intros Hin Hrefl Heq Hx.
  induction l as [|y l IH]; [by apply elem_of_nil in Hin|].
  simpl. rewrite filter_cons. destruct (eqb y x) eqn:Hy.
  - by rewrite decide_True by by apply Heq.
  - rewrite filter_cons.
    assert (x ∈ l) as Hin'.
    { apply elem_of_cons in Hin as [->|Hin]; [congruence|done]. }
    destruct (decide (P y)); simpl; rewrite IH by done; done.
Qed.

(** X10. One call of [Bus.alight] lets at most one passenger off, and only
    one whose destination is this stop. If it returns a passenger, the bus
    was idle and is now alighting, the passenger was on board and is headed
    for this stop, and both the manifest and the number of passengers still
    to alight here have gone down by exactly one. If it returns nobody, the
    manifest is untouched; and if the bus was idle, it is unchanged and no
    passenger on board is headed for this stop. *)
Theorem bus_alight_one_passenger
    (stop_id : string) (b b' : Bus) (leaving_pax : option Pax) :
  Bus_alight stop_id b = Ok (b', leaving_pax) →
  match leaving_pax with
  | Some pax =>
      _alight_status b = alight_idle ∧ _alight_status b' = alighting ∧
      destination pax = stop_id ∧ pax ∈ _paxs b ∧
      S (length (_paxs b')) = length (_paxs b) ∧
      S (Bus_check_remaining_pax_num stop_id b') =
        Bus_check_remaining_pax_num stop_id b
  | None =>
      _paxs b' = _paxs b ∧
      (_alight_status b = alight_idle →
       b' = b ∧ Bus_check_remaining_pax_num stop_id b = 0%nat)
  end.
Proof.
  unfold Bus_alight. intros Halight.
  destruct (_alight_status b) eqn:Hst.
  - destruct (_pax_alight_rate b) as [r|]; [|done].
    destruct (Qle_bool _ _); injection Halight as <- <-;
      (split; [by destruct b|done]).
  - destruct (list_find _ _) as [[i pax]|] eqn:Hfind; injection Halight as <- <-.
    + apply list_find_Some in Hfind as (Hi & Hdest & _).
      apply list_elem_of_lookup_2 in Hi.
      unfold Bus_check_remaining_pax_num.
      split_and!; try done; try by destruct b.
      * destruct b; simpl in *. apply length_list_remove; [done|apply pax_eqb_refl].
      * destruct b; simpl in *.
        apply (length_filter_list_remove pax_eqb); [done|apply pax_eqb_refl| |done].
        intros y Hy%pax_eqb_destination. congruence.
    + split; [done|]. intros _. split; [done|].
      apply list_find_None in Hfind. unfold Bus_check_remaining_pax_num.
      rewrite filter_none; [done|]. intros x Hx.
      by apply (proj1 (Forall_forall _ _) Hfind).
Qed.

Lemma bus_alight_one_passenger_witness :
  S (Bus_check_remaining_pax_num "E" Demo.alighted.1) =
    Bus_check_remaining_pax_num "E" Demo.boarded.2.
Proof.
  refine (proj2 (proj2 (proj2 (proj2 (proj2
    (bus_alight_one_passenger "E" Demo.boarded.2 Demo.alighted.1 Demo.alighted.2
       _)))))).
  vm_compute. reflexivity.
Defined.

(** ** Terminal: edge cases of dispatching *)

Lemma py_int_small (x : Q) : (-1 < x)%Q → (x < 1)%Q → py_int x = 0.
Proof.
  destruct x as [n d]. unfold Qlt, py_int. simpl. intros Hlo Hhi.
  destruct (decide (0 ≤ n)) as [Hn|Hn].
  - apply Z.quot_small. lia.
  - replace n with (- (- n)) by lia. rewrite Z.quot_opp_l by lia.
    rewrite Z.quot_small; lia.
Qed.

Lemma Qlt_bool_iff (a b : Q) : Qlt_bool a b = true ↔ (a < b)%Q.
Proof.
  unfold Qlt_bool. rewrite negb_true_iff. split.
  - intros Hle. apply Qnot_le_lt. intros Hba%Qle_bool_iff. congruence.
  - intros Hlt. destruct (Qle_bool b a) eqn:Hle; [|done].
    apply Qle_bool_iff in Hle. by apply Qlt_not_le in Hlt.
Qed.

Section terminal_edges.
Import Terminal.
Implicit Types (term : Terminal.t) (route : Route_Details).

Lemma dispatch_loop_zero_headway t0 routes st route :
  route ∈ routes → py_int (schedule_headway route) = 0 →
  raises (dispatch_loop t0 routes st).
Proof.
  intros Hin Hzero. revert st.
  induction routes as [|route0 routes IH]; intros st; [by apply elem_of_nil in Hin|].
  cbn [dispatch_loop]. destruct (dispatch_route t0 route0 st) as [st'|e] eqn:Hroute;
    [|done]. simpl.
  apply elem_of_cons in Hin as [<-|Hin]; [|by apply IH].
  exfalso. destruct st as [term acc]. unfold dispatch_route, due in Hroute.
  rewrite decide_True in Hroute by done. done.
Qed.

(** The buses a tick adds to the list it returns. *)
Lemma dispatch_loop_buses t0 routes term acc term' acc' (P : Bus → Prop) :
  dispatch_loop t0 routes (term, acc) = Ok (term', acc') →
  (∀ route b, route ∈ routes → _route_id b = route_id route →
     dispatch_time (bus_log b) = Some t0 →
     _is_need_to_hold b =
       Qlt_bool (_hold_start_time term) (inject_Z t0) &&
       Qlt_bool (inject_Z t0) (_hold_end_time term) → P b) →
  Forall P acc → Forall P acc'.
Proof.
  revert term acc. induction routes as [|route routes IH];
    intros term acc Hloop HP Hacc.
  - simpl in Hloop. by injection Hloop as <- <-.
  - cbn [dispatch_loop] in Hloop.
    apply bind_Ok in Hloop as ([term1 acc1] & Hroute & Hloop).
    apply dispatch_route_Ok in Hroute
      as ((_ & _ & _ & Hs & He) & is_due & _ & Hcase).
    apply (IH _ _ Hloop).
    + intros route' b Hin. rewrite Hs, He. apply HP. by right.
    + destruct is_due.
      * destruct Hcase as (c & b & _ & _ & -> & Hr & Hrec & Hflag).
        apply Forall_app. split; [done|]. apply Forall_singleton.
        apply (HP route); [by left|done| |done].
        unfold dispatch_record in Hrec. by injection Hrec.
      * by destruct Hcase as [_ ->].
Qed.

End terminal_edges.

(** X11. A route whose configured headway lies strictly between -1 and 1
    second stops the terminal: [int(schedule_headway)] is 0, and the
    dispatching condition takes [t % 0] before it looks at [t > 0], so
    [dispatch] raises at every tick, tick 0 included, whatever the other
    routes of the terminal are. *)
Theorem terminal_zero_headway_raises
    (t0 : Z) (term : Terminal.t) (route : Route_Details) :
  route ∈ Terminal._routes term →
  (-1 < schedule_headway route)%Q → (schedule_headway route < 1)%Q →
  raises (Terminal.dispatch t0 term).
Proof.
  intros Hin Hlo Hhi. unfold Terminal.dispatch.
  apply (dispatch_loop_zero_headway _ _ _ route); [done|by apply py_int_small].
Qed.

Lemma terminal_zero_headway_raises_witness :
  raises (Terminal.dispatch 0 Demo.terminal_fast).
Proof.
  apply (terminal_zero_headway_raises 0 Demo.terminal_fast Demo.route_fast).
  - right. left.
  - reflexivity.
  - reflexivity.
Defined.

(** X12. Every bus a tick dispatches belongs to a route of the terminal,
    has the tick as its dispatch time, and is flagged [is_need_to_hold]
    exactly when the tick lies strictly inside the hold period: a bus
    dispatched at [hold_start] or at [hold_end] itself is not flagged. *)
Theorem terminal_dispatch_hold_window
    (t0 : Z) (term term' : Terminal.t) (buses : list Bus) :
  Terminal.dispatch t0 term = Ok (term', buses) →
  Forall (fun b =>
            (∃ route, route ∈ Terminal._routes term ∧ _route_id b = route_id route) ∧
            dispatch_time (bus_log b) = Some t0 ∧
            (_is_need_to_hold b = true ↔
             (Terminal._hold_start_time term < inject_Z t0)%Q ∧
             (inject_Z t0 < Terminal._hold_end_time term)%Q)) buses.
Proof.
  intros Hdispatch. unfold Terminal.dispatch in Hdispatch.
  apply (dispatch_loop_buses _ _ _ _ _ _ _ Hdispatch); [|constructor].
  intros route b Hin Hroute Htime Hflag. split_and!; [by exists route|done|].
  by rewrite Hflag, andb_true_iff, !Qlt_bool_iff.
Qed.

Lemma terminal_dispatch_hold_window_witness :
  Forall (fun b =>
            (∃ route, route ∈ Terminal._routes Demo.terminal ∧
                      _route_id b = route_id route) ∧
            dispatch_time (bus_log b) = Some 300 ∧
            (_is_need_to_hold b = true ↔
             (Terminal._hold_start_time Demo.terminal < inject_Z 300)%Q ∧
             (inject_Z 300 < Terminal._hold_end_time Demo.terminal)%Q))
         (ok_or (Demo.terminal, []) (Terminal.dispatch 300 Demo.terminal)).2.
Proof.
  apply (terminal_dispatch_hold_window 300 Demo.terminal
           (ok_or (Demo.terminal, []) (Terminal.dispatch 300 Demo.terminal)).1).
  vm_compute. reflexivity.
Defined.

(** ** Links: moving the buses *)

Section link_forward.
Import Link.
Implicit Types (l : Link.t) (bus : Bus).




End link_forward.




Lemma update_location_loc t0 spot_type spot_id node_id offset st (b b' : Bus) :
  update_location t0 spot_type spot_id node_id offset st b = Ok b' →
  ∃ d, _node_distance b !! node_id = Some d ∧
       _node_distance b' = _node_distance b ∧
       loc_relative_to_terminal b' = (d + offset)%Q.
Proof.
  unfold update_location. intros Hupd.
  apply bind_Ok in Hupd as (d & Hd%getitem_Ok & Hupd). injection Hupd as <-.
  exists d. by destruct b.
Qed.

Section link_forward_all.
Import Link.
Implicit Types (l : Link.t) (bus : Bus).

(** One turn of the loop of [forward]. *)
Lemma forward_loop_S fuel t0 i l acc l' acc' bus :
  _buses l !! i = Some bus →
  forward_loop (S fuel) t0 i (l, acc) = Ok (l', acc') →
  ∃ loc b2,
    _bus_link_loc l !! ident bus = Some loc ∧
    ident b2 = ident bus ∧
    if Qle_bool (_length l) (loc + speed bus * 1) then
      arrived_from l bus b2 ∧
      forward_loop fuel t0 (S i)
        (set_buses (delete i (_buses l))
           (delete (ident bus) (<[ident bus := (loc + speed bus * 1)%Q]>
                                  (_bus_link_loc l))) l,
         acc ++ [b2]) = Ok (l', acc')
    else
      forward_loop fuel t0 (S i)
        (set_buses (<[i := b2]> (_buses l))
           (<[ident bus := (loc + speed bus * 1)%Q]> (_bus_link_loc l)) l,
         acc) = Ok (l', acc').
Proof.
  intros Hi Hloop. cbn [forward_loop] in Hloop. rewrite Hi in Hloop.
  apply bind_Ok in Hloop as (loc & Hloc%getitem_Ok & Hloop).
  apply bind_Ok in Hloop as (bus1 & Hupd & Hloop).
  pose proof (update_location_ident _ _ _ _ _ _ _ _ Hupd) as Hid.
  change (ident bus1 = ident bus) in Hid.
  apply update_location_loc in Hupd as (d & Hd & Hnd & Hrel).
  exists loc, (set_status running_on_link bus1).
  assert (ident (set_status running_on_link bus1) = ident bus) as Hid2.
  { rewrite <- Hid. by destruct bus1. }
  split_and!; [done..|].
  destruct (Qle_bool _ _) eqn:Hle; [|done]. split; [|done].
  split_and!; [done|by destruct bus1|]. exists d.
  split; [destruct bus1; simpl in *; congruence|].
  apply Qle_bool_iff in Hle.
  replace (loc_relative_to_terminal (set_status running_on_link bus1))
    with (d + (loc + speed bus * 1))%Q by (by destruct bus1).
  lra.
Qed.

Lemma forward_loop_conserves fuel t0 i l acc l' acc' :
  forward_loop fuel t0 i (l, acc) = Ok (l', acc') →
  ident <$> (_buses l ++ acc) ≡ₚ ident <$> (_buses l' ++ acc') ∧
  _length l' = _length l ∧ _head_node l' = _head_node l ∧
  ∃ out, acc' = acc ++ out ∧
         Forall (fun b' => ∃ b, b ∈ _buses l ∧ arrived_from l b b') out.
Proof.
  revert i l acc. induction fuel as [|fuel IH]; intros i l acc Hloop.
  - simpl in Hloop. injection Hloop as <- <-. split_and!; [done..|].
    exists []. by rewrite app_nil_r.
  - destruct (_buses l !! i) as [bus|] eqn:Hi.
    + destruct (forward_loop_S _ _ _ _ _ _ _ _ Hi Hloop)
        as (loc & b2 & Hloc & Hid & Hcase). clear Hloop.
      destruct (Qle_bool _ _).
      * destruct Hcase as [Harr Hloop].
        apply IH in Hloop as (Hperm & Hlen & Hhead & out & -> & Hout).
        simpl in *. split_and!; [|done..|].
        -- rewrite <- Hperm. rewrite !fmap_app, fmap_cons, Hid. simpl.
           rewrite (delete_Permutation _ _ _ Hi) at 1. rewrite fmap_cons.
           rewrite <- !Permutation_middle. by rewrite app_nil_r.
        -- exists (b2 :: out). rewrite <- app_assoc. split; [done|].
           constructor.
           ++ exists bus. split; [by eapply list_elem_of_lookup_2|done].
           ++ eapply Forall_impl; [exact Hout|]. simpl.
              intros b' (b & Hb & Hb'). exists b. split; [|done].
              apply list_elem_of_lookup in Hb as [j Hj].
              apply list_elem_of_lookup.
              destruct (decide (j < i)%nat).
              ** exists j. by rewrite list_lookup_delete_lt in Hj.
              ** exists (S j). rewrite list_lookup_delete_ge in Hj; [done|lia].
      * apply IH in Hcase as (Hperm & Hlen & Hhead & out & -> & Hout).
        simpl in *. split_and!; [|done..|].
        -- rewrite <- Hperm. rewrite !fmap_app, list_fmap_insert, Hid.
           rewrite list_insert_id; [done|]. by rewrite list_lookup_fmap, Hi.
        -- exists out. split; [done|].
           eapply Forall_impl; [exact Hout|]. simpl.
           intros b' (b & Hb & Hid' & Hst & Hd). 
           apply list_elem_of_lookup in Hb as [j Hj].
           destruct (decide (j = i)) as [->|Hne].
           ** rewrite list_lookup_insert_eq in Hj by (by eapply lookup_lt_Some).
              injection Hj as <-. exists bus.
              split; [by eapply list_elem_of_lookup_2|].
              split_and!; [congruence|done..].
           ** rewrite list_lookup_insert_ne in Hj by done.
              exists b. split; [by eapply list_elem_of_lookup_2|done].
    + cbn [forward_loop] in Hloop. rewrite Hi in Hloop. injection Hloop as <- <-.
      split_and!; [done..|]. exists []. by rewrite app_nil_r.
Qed.

(** The loop has come to its end when the fuel runs out: more fuel changes
    nothing. *)
Lemma forward_loop_fuel fuel extra t0 i l acc :
  (length (_buses l) ≤ i + fuel)%nat →
  forward_loop (fuel + extra) t0 i (l, acc) = forward_loop fuel t0 i (l, acc).
Proof.
  revert i l acc. induction fuel as [|fuel IH]; intros i l acc Hlen.
  - destruct extra; [done|]. simpl. by rewrite lookup_ge_None_2 by lia.
  - simpl. destruct (_buses l !! i) as [bus|] eqn:Hi; [|done].
    destruct (getitem _) as [loc|]; [|done]. simpl.
    destruct (update_location _ _ _ _ _ _ _) as [bus1|]; [|done]. simpl.
    apply lookup_lt_Some in Hi.
    destruct (Qle_bool _ _); apply IH; simpl.
    + rewrite length_delete by (by apply lookup_lt_is_Some_2). lia.
    + rewrite length_insert. lia.
Qed.

Lemma forward_loop_before fuel t0 i l acc l' acc' (j : nat) :
  (j < i)%nat → forward_loop fuel t0 i (l, acc) = Ok (l', acc') →
  _buses l' !! j = _buses l !! j.
Proof.
  revert i l acc. induction fuel as [|fuel IH]; intros i l acc Hj Hloop.
  - simpl in Hloop. by injection Hloop as <- <-.
  - destruct (_buses l !! i) as [bus|] eqn:Hi.
    + destruct (forward_loop_S _ _ _ _ _ _ _ _ Hi Hloop)
        as (loc & b2 & Hloc & Hid & Hcase). clear Hloop.
      destruct (Qle_bool _ _).
      * destruct Hcase as [_ Hloop]. apply IH in Hloop; [|lia]. simpl in Hloop.
        by rewrite list_lookup_delete_lt in Hloop.
      * apply IH in Hcase; [|lia]. simpl in Hcase.
        rewrite list_lookup_insert_ne in Hcase by lia. done.
    + cbn [forward_loop] in Hloop. rewrite Hi in Hloop. by injection Hloop as <- <-.
Qed.

End link_forward_all.

(** X14. A call of [forward] neither loses nor duplicates a bus: the buses
    on the link before the call are, up to order, those still on it
    together with those returned. Every bus returned is a bus of the link
    that has reached its end: its location is at least the distance of the
    head node plus the length of the link. The loop has then visited the
    whole list: the result does not depend on any further turns. *)
Theorem link_forward_conserves_buses
    (t0 : Z) (l l' : Link.t) (finished_buses : list Bus) :
  Link.forward t0 l = Ok (l', finished_buses) →
  Link.ident <$> Link._buses l ≡ₚ
    Link.ident <$> (Link._buses l' ++ finished_buses) ∧
  Forall (fun b' => ∃ b, b ∈ Link._buses l ∧ Link.arrived_from l b b')
         finished_buses ∧
  ∀ extra,
    Link.forward_loop (length (Link._buses l) + extra) t0 0 (l, []) =
    Ok (l', finished_buses).
Proof.
  intros Hforward. unfold Link.forward in Hforward.
  split_and!.
  - apply forward_loop_conserves in Hforward as (Hperm & _).
    by rewrite app_nil_r in Hperm.
  - by apply forward_loop_conserves in Hforward as (_ & _ & _ & out & -> & Hout).
  - intros extra. rewrite forward_loop_fuel; [done|lia].
Qed.

Lemma link_forward_conserves_buses_witness :
  Link.ident <$> Link._buses Demo.link_two ≡ₚ
    Link.ident <$> (Link._buses Demo.link_two_done.1 ++ Demo.link_two_done.2).
Proof.
  apply (link_forward_conserves_buses 11 Demo.link_two Demo.link_two_done.1
           Demo.link_two_done.2).
  vm_compute. reflexivity.
Defined.

(** X15. [forward] removes a bus that reaches the end of the link from the
    list it iterates over, so the bus listed right behind it is skipped in
    that call: when the first bus of the link reaches the end, it is
    returned, and the second bus becomes the first of the link exactly as
    it was, neither moved nor given a trajectory point for this tick. *)
Theorem link_forward_skips_follower
    (t0 : Z) (l l' : Link.t) (finished_buses : list Bus)
    (b1 b2 : Bus) (rest : list Bus) (loc : Q) :
  Link.forward t0 l = Ok (l', finished_buses) →
  Link._buses l = b1 :: b2 :: rest →
  Link._bus_link_loc l !! Link.ident b1 = Some loc →
  (Link._length l <= loc + speed b1 * 1)%Q →
  head (Link._buses l') = Some b2 ∧
  ∃ b1', head finished_buses = Some b1' ∧ Link.arrived_from l b1 b1'.
Proof.
  intros Hforward Hbuses Hloc Hend. unfold Link.forward in Hforward.
  rewrite Hbuses in Hforward. cbn [length] in Hforward.
  assert (Link._buses l !! 0%nat = Some b1) as H0 by by rewrite Hbuses.
  destruct (forward_loop_S _ _ _ _ _ _ _ _ H0 Hforward)
    as (loc' & b1' & Hloc' & Hid & Hcase).
  rewrite Hloc in Hloc'. injection Hloc' as <-.
  apply Qle_bool_iff in Hend. rewrite Hend in Hcase. destruct Hcase as [Harr Hloop].
  split.
  - apply (forward_loop_before _ _ _ _ _ _ _ 0%nat) in Hloop; [|lia].
    simpl in Hloop. rewrite Hbuses in Hloop. simpl in Hloop.
    by destruct (Link._buses l').
  - exists b1'. split; [|done].
    by apply forward_loop_conserves in Hloop as (_ & _ & _ & out & -> & _).
Qed.

Lemma link_forward_skips_follower_witness :
  head (Link._buses Demo.link_two_done.1) = Some Demo.bus_behind ∧
  ∃ b1', head Demo.link_two_done.2 = Some b1' ∧
         Link.arrived_from Demo.link_two Demo.bus_near_end b1'.
Proof.
  apply (link_forward_skips_follower 11 Demo.link_two Demo.link_two_done.1
           Demo.link_two_done.2 Demo.bus_near_end Demo.bus_behind [] 490%Q).
  - vm_compute. reflexivity.
  - reflexivity.
  - vm_compute. reflexivity.
  - vm_compute. discriminate.
Defined.

(** ** Stops: a visit with nothing to do *)

Section stop_idle_visit.
Import Stop.
Implicit Types (s : Stop.t).

Lemma record_when_arrival_dwell stop_id t0 kw (l l' : BusRunningLog) eps :
  record_when_arrival stop_id t0 kw l = Ok (l', eps) →
  stop_dwell_time l' = stop_dwell_time l.
Proof.
  unfold record_when_arrival. destruct kw as [count|]; intros Hrec.
  - apply bind_Ok in Hrec as (va & _ & Hrec). injection Hrec as <- <-. by destruct l.
  - injection Hrec as <- <-. by destruct l.
Qed.

Lemma enter_stop_shape bus t0 s s1 :
  enter_stop bus t0 s = Ok s1 →
  ∃ bl log',
    s1 = set_entry_queue
           (_entry_queue s ++ [set_status queueing_at_stop (set_bus_log bl bus)])
           (set_stop_log log' s) ∧
    stop_arrival_time bl !! _stop_id s = Some t0 ∧
    stop_dwell_time bl = stop_dwell_time (bus_log bus).
Proof.
  unfold enter_stop. intros Henter.
  apply bind_Ok in Henter as ([bus' log'] & Hrec & Henter). injection Henter as <-.
  destruct (_has_schedule s).
  - apply bind_Ok in Hrec as (ts & _ & Hrec).
    apply bind_Ok in Hrec as ([bl eps] & Harr & Hrec).
    apply bind_Ok in Hrec as (log1 & _ & Hrec). injection Hrec as <- <-.
    exists bl, log1. split; [done|].
    split; [by apply record_when_arrival_Ok in Harr as [? _]|].
    by apply record_when_arrival_dwell in Harr.
  - apply bind_Ok in Hrec as ([bl eps] & Harr & Hrec).
    apply bind_Ok in Hrec as (u & _ & Hrec).
    apply bind_Ok in Hrec as (log1 & _ & Hrec). injection Hrec as <- <-.
    exists bl, log1. split; [done|].
    split; [by apply record_when_arrival_Ok in Harr as [? _]|].
    by apply record_when_arrival_dwell in Harr.
Qed.

Lemma check_in_all_free s (n : nat) :
  _buses_in_berth s = replicate (S n) None →
  ∃ target, _queue_rule_check_in s = Some target ∧ (target ≤ n)%nat.
Proof.
  intros Hberths.
  assert (∀ i, (i ≤ n)%nat → free (_buses_in_berth s) i) as Hfree.
  { intros i Hi. unfold free. rewrite Hberths. apply lookup_replicate_2. lia. }
  assert (∀ target, _queue_rule_check_in s = Some target → (target ≤ n)%nat) as Hle.
  { intros target Hin%check_in_free. unfold free in Hin.
    apply lookup_lt_Some in Hin. rewrite Hberths, length_replicate in Hin. lia. }
  destruct (_queue_rule_check_in s) as [target|] eqn:Hin; [by eauto|]. exfalso.
  unfold _queue_rule_check_in in Hin. rewrite Hberths, length_replicate in Hin.
  rewrite <- Hberths in Hin. destruct (_queue_rule s).
  - destruct (check_in_loop_downward (_buses_in_berth s) (S n) None)
      as [[_ Hocc]|(b & Hb & _)]; [|congruence].
    apply (Hocc n); [done|]. by apply Hfree.
  - destruct (check_in_loop_upward (_buses_in_berth s) (S n) 0 None)
      as [[_ Hocc]|(b & Hb & _)]; [|apply Hocc, Hfree; lia|congruence].
    by rewrite Hberths, length_replicate.
Qed.

Lemma board_loop_app t0 (r1 r2 : list nat) s :
  board_loop t0 (r1 ++ r2) s = board_loop t0 r1 s ≫= board_loop t0 r2.
Proof.
  revert s. induction r1 as [|b r1 IH]; intros s; [done|]. simpl.
  destruct (_buses_in_berth s !! b) as [[bus|]|]; [|by apply IH..].
  destruct (PaxQueue.board _ _ _) as [[q bus1]|]; [|done]. simpl.
  destruct (update_location _ _ _ _ _ _ _) as [bus2|]; [|done]. simpl. apply IH.
Qed.

Lemma board_loop_skip t0 (range_ : list nat) s :
  (∀ i b, i ∈ range_ → _buses_in_berth s !! i ≠ Some (Some b)) →
  board_loop t0 range_ s = Ok s.
Proof.
  induction range_ as [|i range_ IH]; intros Hfree; [done|]. simpl.
  destruct (_buses_in_berth s !! i) as [[bus|]|] eqn:Hi.
  - exfalso. apply (Hfree i bus); [by left|done].
  - apply IH. intros j b Hj. apply Hfree. by right.
  - apply IH. intros j b Hj. apply Hfree. by right.
Qed.

Lemma check_leave_loop_app (r1 r2 : list nat) s :
  check_leave_loop (r1 ++ r2) s = check_leave_loop r1 s ≫= check_leave_loop r2.
Proof.
  revert s. induction r1 as [|b r1 IH]; intros s; [done|]. simpl.
  destruct (_buses_in_berth s !! b) as [[bus|]|]; [|by apply IH..].
  destruct (served bus s) as [[|]|]; [|by apply IH|done]. simpl.
  destruct (_queue_rule_check_out b s) as [[|]|]; [|by apply IH|done]. simpl.
  apply IH.
Qed.

Lemma check_leave_loop_skip (range_ : list nat) s :
  (∀ i b, i ∈ range_ → _buses_in_berth s !! i ≠ Some (Some b)) →
  check_leave_loop range_ s = Ok s.
Proof.
  induction range_ as [|i range_ IH]; intros Hfree; [done|]. simpl.
  destruct (_buses_in_berth s !! i) as [[bus|]|] eqn:Hi.
  - exfalso. apply (Hfree i bus); [by left|done].
  - apply IH. intros j b Hj. apply Hfree. by right.
  - apply IH. intros j b Hj. apply Hfree. by right.
Qed.

Lemma seq_split (n target : nat) :
  (target ≤ n)%nat →
  seq 0 (S n) = seq 0 target ++ [target] ++ seq (S target) (n - target).
Proof.
  intros Hle. replace (S n) with (target + S (n - target))%nat by lia.
  by rewrite seq_app.
Qed.

Lemma record_rtd_keeps t0 (bus bus' : Bus) s log' :
  record_rtd t0 bus s = Ok (bus', log') →
  stop_arrival_time (bus_log bus') = stop_arrival_time (bus_log bus) ∧
  stop_dwell_time (bus_log bus') = stop_dwell_time (bus_log bus).
Proof.
  assert (∀ kw l l' eps, record_when_rtd (_stop_id s) t0 kw l = Ok (l', eps) →
            stop_arrival_time l' = stop_arrival_time l ∧
            stop_dwell_time l' = stop_dwell_time l) as Hkeep.
  { intros kw l l' eps. unfold record_when_rtd. destruct kw as [count|]; intros Hrec.
    - apply bind_Ok in Hrec as (vr & _ & Hrec). injection Hrec as <- <-.
      by destruct l.
    - injection Hrec as <- <-. by destruct l. }
  unfold record_rtd. intros Hrec. destruct (_has_schedule s).
  - apply bind_Ok in Hrec as (ids & _ & Hrec).
    apply bind_Ok in Hrec as ([bl eps] & Hrtd & Hrec).
    apply bind_Ok in Hrec as (log1 & _ & Hrec). injection Hrec as <- <-.
    apply Hkeep in Hrtd. by destruct bus.
  - apply bind_Ok in Hrec as ([bl eps] & Hrtd & Hrec).
    apply bind_Ok in Hrec as (u & _ & Hrec).
    apply bind_Ok in Hrec as (log1 & _ & Hrec). injection Hrec as <- <-.
    apply Hkeep in Hrtd. by destruct bus.
Qed.

Lemma enter_berth_admit t0 s b target :
  _entry_queue s = [b] → _queue_rule_check_in s = Some target →
  _enter_berth t0 s =
    Ok (set_entry_queue []
          (set_buses_in_berth
             (<[target := Some (set_status dwelling_at_stop b)]> (_buses_in_berth s))
             s)).
Proof.
  intros Hq Hin. unfold _enter_berth. rewrite Hq, Hin. by destruct s.
Qed.

Lemma board_lone t0 s s' target b :
  lone (_buses_in_berth s) target →
  _buses_in_berth s !! target = Some (Some b) →
  PaxQueue._get_served_groups (_route_id b) (_pax_queue s) = [] →
  _board_status b = idle →
  _board t0 s = Ok s' →
  ∃ b2,
    update_location t0 "stop" (_stop_id s) (_stop_id s) 0%Q dwelling_at_stop
      (set_bus_log (record_when_dwell (_stop_id s) (bus_log b)) b) = Ok b2 ∧
    s' = set_pax_queue (_pax_queue s)
           (set_buses_in_berth (<[target := Some b2]> (_buses_in_berth s)) s).
Proof.
  intros Hlone Hb Hgroups Hidle Hboard. unfold _board in Hboard.
  pose proof (lookup_lt_Some _ _ _ Hb) as Hlt.
  destruct (length (_buses_in_berth s)) as [|n] eqn:Hlen; [lia|].
  rewrite (seq_split n target) in Hboard by lia.
  rewrite !board_loop_app in Hboard.
  rewrite board_loop_skip in Hboard.
  2:{ intros i x Hi%elem_of_seq Hx. apply Hlone in Hx. lia. }
  simpl in Hboard. rewrite Hb in Hboard.
  unfold PaxQueue.board in Hboard. rewrite Hidle, Hgroups in Hboard.
  simpl in Hboard.
  destruct (update_location _ _ _ _ _ _ _) as [b2|] eqn:Hupd; [|done].
  simpl in Hboard. exists b2. split; [done|].
  rewrite board_loop_skip in Hboard; [by injection Hboard as <-|].
  intros i x Hi%elem_of_seq Hx.
  assert (_buses_in_berth
            (set_pax_queue (_pax_queue s)
               (set_buses_in_berth (<[target:=Some b2]> (_buses_in_berth s)) s))
          = <[target:=Some b2]> (_buses_in_berth s)) as Heq by by destruct s.
  rewrite Heq, list_lookup_insert_ne in Hx by lia. apply Hlone in Hx. lia.
Qed.

Lemma check_leave_lone t0 s target b :
  lone (_buses_in_berth s) target →
  _buses_in_berth s !! target = Some (Some b) →
  served b s = Ok true → _queue_rule_check_out target s = Ok true →
  _check_leave t0 s =
    Ok (set_leave_queue (_leave_queue s ++ [b])
          (set_buses_in_berth (<[target := None]> (_buses_in_berth s)) s)).
Proof.
  intros Hlone Hb Hserved Hout. unfold _check_leave.
  pose proof (lookup_lt_Some _ _ _ Hb) as Hlt.
  destruct (length (_buses_in_berth s)) as [|n] eqn:Hlen; [lia|].
  rewrite (seq_split n target) by lia.
  rewrite !check_leave_loop_app.
  rewrite check_leave_loop_skip.
  2:{ intros i x Hi%elem_of_seq Hx. apply Hlone in Hx. lia. }
  simpl. rewrite Hb, Hserved. simpl. rewrite Hout. simpl.
  apply check_leave_loop_skip.
  intros i x Hi%elem_of_seq Hx.
  assert (_buses_in_berth
            (set_leave_queue (_leave_queue s ++ [b])
               (set_buses_in_berth (<[target:=None]> (_buses_in_berth s)) s))
          = <[target:=None]> (_buses_in_berth s)) as Heq by by destruct s.
  rewrite Heq, list_lookup_insert_ne in Hx by lia. apply Hlone in Hx. lia.
Qed.

Lemma served_no_group (b : Bus) s :
  class s = Stop_Board →
  PaxQueue._get_served_groups (_route_id b) (_pax_queue s) = [] →
  served b s = Ok true.
Proof.
  intros Hclass Hgroups. unfold served, PaxQueue.check_remaining_pax_num.
  rewrite Hgroups, Hclass. done.
Qed.

Lemma leave_single t0 s b s' leaving :
  _leave_queue s = [b] → _leave t0 s = Ok (s', leaving) →
  ∃ b' log', record_rtd t0 b s = Ok (b', log') ∧ leaving = [b'] ∧
             s' = set_leave_queue [] (set_stop_log log' s).
Proof.
  intros Hq Hleave. unfold _leave in Hleave. rewrite Hq in Hleave.
  simpl in Hleave. rewrite Hq in Hleave. simpl in Hleave.
  destruct (record_rtd t0 b s) as [[b' log']|] eqn:Hrec; [|done].
  simpl in Hleave. injection Hleave as <- <-. by exists b', log'.
Qed.

End stop_idle_visit.


(** X16. A visit with nothing to do takes no time. When a bus that is not
    boarding enters a boarding-only stop that is empty (no bus queueing, in
    a berth or leaving) and where no passenger group is served by its
    route, the tick of the stop at that same tick admits it to a berth and
    returns it as leaving: the stop is empty again, and the bus has that
    tick as its arrival and as its ready-to-depart time, with one tick of
    dwell time counted. *)
Theorem stop_idle_visit_same_tick
    (bus : Bus) (t0 : Z) (n : nat) (s s1 s2 : Stop.t)
    (leaving_buses : list Bus) (leaving_paxs : list Pax) :
  Stop.class s = Stop_Board →
  Stop._entry_queue s = [] → Stop._leave_queue s = [] →
  Stop._buses_in_berth s = replicate (S n) None →
  Stop._berth_num s = Z.of_nat (S n) →
  PaxQueue._get_served_groups (_route_id bus) (Stop._pax_queue s) = [] →
  _board_status bus = idle →
  Stop.enter_stop bus t0 s = Ok s1 →
  Stop.operation t0 s1 = Ok (s2, leaving_buses, leaving_paxs) →
  Stop._entry_queue s2 = [] ∧ Stop._leave_queue s2 = [] ∧
  Stop._buses_in_berth s2 = replicate (S n) None ∧ leaving_paxs = [] ∧
  ∃ b', leaving_buses = [b'] ∧ Stop.ident b' = Stop.ident bus ∧
        stop_arrival_time (bus_log b') !! Stop._stop_id s = Some t0 ∧
        stop_rtd_time (bus_log b') !! Stop._stop_id s = Some t0 ∧
        stop_dwell_time (bus_log b') !! Stop._stop_id s =
          Some (default 0 (stop_dwell_time (bus_log bus) !! Stop._stop_id s) + 1).
Proof.
  intros Hclass Hentry Hleave Hberths Hnum Hgroups Hidle Henter Hop.
  apply enter_stop_shape in Henter as (bl & log' & -> & Harr & Hdwell).
  destruct s as [cls sid num hs rule entry berths leave slog q].
  cbn [Stop.class Stop._stop_id Stop._berth_num Stop._entry_queue
       Stop._buses_in_berth Stop._leave_queue Stop._pax_queue
       Stop.set_entry_queue Stop.set_stop_log] in *.
  subst cls entry leave berths num. rewrite app_nil_l in Hop.
  set (b1 := set_status queueing_at_stop (set_bus_log bl bus)) in *.
  set (s1 := Stop.mk Stop_Board sid (Z.of_nat (S n)) hs rule [b1]
               (replicate (S n) None) [] log' q) in *.
  destruct (check_in_all_free s1 n eq_refl) as (target & Hin & Hle).
  unfold Stop.operation in Hop.
  rewrite (enter_berth_admit t0 s1 b1 target eq_refl Hin) in Hop.
  subst s1.
  cbn [Stop.set_entry_queue Stop.set_buses_in_berth Stop._buses_in_berth mbind
       result_bind] in Hop.
  clear Hin.
  set (bd := set_status dwelling_at_stop b1) in *.
  assert (∀ x : Bus, Stop.lone (<[target := Some x]> (replicate (S n) None)) target)
    as Hlone.
  { intros x i b Hi. destruct (decide (i = target)); [done|].
    rewrite list_lookup_insert_ne in Hi by done.
    by apply lookup_replicate in Hi as [? _]. }
  assert (∀ x : Bus, <[target := Some x]> (replicate (S n) None) !! target
                     = Some (Some x)) as Hat.
  { intros x. apply list_lookup_insert_eq. rewrite length_replicate. lia. }
  assert (_route_id bd = _route_id bus) as Hroute by by destruct bus.
  apply bind_Ok in Hop as (s3 & H2 & Hop).
  apply (board_lone _ _ _ target bd) in H2 as (b2 & Hupd & ->);
    [|apply Hlone|apply Hat|by rewrite Hroute|by destruct bus].
  cbn [Stop.set_pax_queue Stop.set_buses_in_berth Stop._buses_in_berth
       Stop._pax_queue Stop._stop_id] in Hop, Hupd.
  rewrite list_insert_insert_eq in Hop.
  unfold Stop._alight in Hop. cbn [Stop.class mbind result_bind] in Hop.
  apply bind_Ok in Hop as (s5 & H4 & Hop).
  pose proof (update_location_Ok _ _ _ _ _ _ _ _ Hupd)
    as (Hid2 & Hroute2 & Hlog2 & _ & _ & _ & _).
  rewrite (check_leave_lone t0 _ target b2) in H4.
  - injection H4 as <-.
    cbn [Stop.set_leave_queue Stop.set_buses_in_berth Stop._buses_in_berth
         Stop._leave_queue app] in Hop.
    rewrite list_insert_insert_eq in Hop.
    apply bind_Ok in Hop as ([s6 buses] & H5 & Hop). injection Hop as <- <- <-.
    apply (leave_single _ _ b2) in H5 as (b' & log'' & Hrec & -> & ->); [|done].
    pose proof (record_rtd_keeps _ _ _ _ _ Hrec) as [Hka Hkd].
    apply record_rtd_Ok in Hrec as [Hid' Hrtd].
    cbn [Stop._stop_id] in Hrtd.
    split_and!; try done.
    + cbn [Stop._buses_in_berth Stop._berth_num Stop._pax_queue Stop.set_pax_queue Stop.set_leave_queue Stop.set_stop_log].
      apply list_insert_id. apply lookup_replicate_2. lia.
    + exists b'. split_and!; try done.
      * rewrite Hid'. unfold Stop.ident. rewrite Hid2, Hroute2. by destruct bus.
      * rewrite Hka, Hlog2. subst bd b1. by destruct bus, bl.
      * rewrite Hkd, Hlog2. subst bd b1. destruct bus, bl; simpl in *.
        by rewrite lookup_insert_eq, Hdwell.
  - apply Hlone.
  - apply Hat.
  - apply served_no_group; [done|]. cbn [Stop._buses_in_berth Stop._berth_num Stop._pax_queue Stop.set_pax_queue Stop.set_leave_queue Stop.set_stop_log].
    rewrite Hroute2. by destruct bus.
  - destruct rule.
    + done.
    + destruct (check_out_FIFO
        (Stop.mk Stop_Board sid (Z.of_nat (S n)) hs FIFO []
           (<[target:=Some b2]> (replicate (S n) None)) [] log' q) target)
        as (can_go & Hout & Hiff); [done|..].
      * cbn [Stop._buses_in_berth Stop._berth_num Stop._pax_queue Stop.set_pax_queue Stop.set_leave_queue Stop.set_stop_log]. by rewrite length_insert, length_replicate.
      * cbn [Stop._buses_in_berth Stop._berth_num Stop._pax_queue Stop.set_pax_queue Stop.set_leave_queue Stop.set_stop_log]. rewrite length_insert, length_replicate. lia.
      * rewrite Hout. f_equal. apply Hiff. intros j Hj. unfold Stop.free.
        cbn [Stop._buses_in_berth Stop._berth_num Stop._pax_queue Stop.set_pax_queue Stop.set_leave_queue Stop.set_stop_log] in *.
        rewrite length_insert, length_replicate in Hj.
        rewrite list_lookup_insert_ne by lia. apply lookup_replicate_2. lia.
Qed.

Lemma stop_idle_visit_same_tick_witness :
  Stop._entry_queue Demo.stop_visit.1.1 = [] ∧
  Stop._leave_queue Demo.stop_visit.1.1 = [] ∧
  Stop._buses_in_berth Demo.stop_visit.1.1 = replicate 2 None ∧
  Demo.stop_visit.2 = [] ∧
  ∃ b', Demo.stop_visit.1.2 = [b'] ∧ Stop.ident b' = Stop.ident (Demo.new_bus "1") ∧
        stop_arrival_time (bus_log b') !! "s1"%string = Some 380 ∧
        stop_rtd_time (bus_log b') !! "s1"%string = Some 380 ∧
        stop_dwell_time (bus_log b') !! "s1"%string =
          Some (default 0 (stop_dwell_time (bus_log (Demo.new_bus "1"))
                             !! "s1"%string) + 1).
Proof.
  apply (stop_idle_visit_same_tick (Demo.new_bus "1") 380 1 Demo.stop_fifo
           Demo.stop_entered Demo.stop_visit.1.1 Demo.stop_visit.1.2
           Demo.stop_visit.2).
  - reflexivity.
  - reflexivity.
  - reflexivity.
  - reflexivity.
  - reflexivity.
  - vm_compute. reflexivity.
  - reflexivity.
  - vm_compute. reflexivity.
  - vm_compute. reflexivity.
Defined.

(** X17. A stop only takes buses of the routes its log was seeded for. If
    the log has no arrival sequence for the route of a bus, [enter_stop]
    raises [KeyError], with or without a schedule; and for a stop as built
    by [__init__] that is the case as soon as the reference trajectory of
    that route is missing or does not visit the stop. *)
Theorem stop_enter_unknown_route_raises (bus : Bus) (t0 : Z) :
  (∀ s : Stop.t,
     route_arrival_time_seq (Stop.stop_log s) !! _route_id bus = None →
     Stop.enter_stop bus t0 s = Raise KeyError) ∧
  (∀ cls stop_id berth_num queue_rule board_truncation virtual_bus has_schedule,
     (∀ by_stop : gmap string Q,
        route_stop_arrival_time virtual_bus !! _route_id bus = Some by_stop →
        by_stop !! stop_id = None) →
     Stop.enter_stop bus t0
       (Stop.init cls stop_id berth_num queue_rule board_truncation virtual_bus
          has_schedule) = Raise KeyError).
Proof.
  assert (∀ s : Stop.t,
     route_arrival_time_seq (Stop.stop_log s) !! _route_id bus = None →
     Stop.enter_stop bus t0 s = Raise KeyError) as Hgen.
  { intros s Hnone. unfold Stop.enter_stop. destruct (Stop._has_schedule s).
    - by rewrite Hnone.
    - simpl. unfold record_when_bus_arrival. by rewrite Hnone. }
  split; [done|].
  intros cls stop_id berth_num queue_rule board_truncation virtual_bus has_schedule
    Hvisit.
  apply Hgen. simpl. unfold seed. rewrite lookup_omap.
  destruct (route_stop_arrival_time virtual_bus !! _route_id bus) as [by_stop|]
    eqn:Hroute; [|done].
  simpl. by rewrite (Hvisit by_stop).
Qed.

Lemma stop_enter_unknown_route_raises_witness :
  Stop.enter_stop Demo.stray_bus 380 Demo.stop_fifo = Raise KeyError.
Proof.
  apply (proj1 (stop_enter_unknown_route_raises Demo.stray_bus 380)).
  vm_compute. reflexivity.
Defined.

(** ** The reference trajectory *)

Lemma py_pairs_cons {A} (u v : A) (l : list A) :
  py_pairs (u :: v :: l) = (u, v) :: py_pairs (v :: l).
Proof. unfold py_pairs. simpl. by rewrite Nat.sub_0_r. Qed.

Lemma py_pairs_elem {A} (a b : A) (l : list A) :
  (a, b) ∈ py_pairs l → a ∈ l ∧ b ∈ l.
Proof.
  induction l as [|u [|v l] IH]; intros Hin.
  - by apply elem_of_nil in Hin.
  - by apply elem_of_nil in Hin.
  - rewrite py_pairs_cons in Hin. apply elem_of_cons in Hin as [[= -> ->]|Hin].
    + split; [left|right; left].
    + apply IH in Hin as [? ?]. split; by right.
Qed.

Section trajectory.
Import Trajectory.
Implicit Types (vb : VirtualBus) (bp : Blueprint) (route : Route_Details).

Lemma record_lookup r x t (table : gmap string (gmap string Q)) r' y :
  default ∅ (record r x t table !! r') !! y =
    if decide (r' = r ∧ y = x) then Some t else default ∅ (table !! r') !! y.
Proof.
  unfold record. destruct (decide (r' = r)) as [->|Hr].
  - rewrite lookup_insert_eq. simpl. destruct (decide (y = x)) as [->|Hy].
    + rewrite lookup_insert_eq. by rewrite decide_True.
    + rewrite lookup_insert_ne by done. by rewrite decide_False by tauto.
  - rewrite lookup_insert_ne by done. by rewrite decide_False by tauto.
Qed.

(** The three writes of one iteration. *)
Lemma times_at_step vb r x t1 t2 t3 r' y :
  times_at (set_departure r x t3 (set_rtd r x t2 (set_arrival r x t1 vb))) r' y =
    if decide (r' = r ∧ y = x) then (Some t1, Some t2, Some t3)
    else times_at vb r' y.
Proof.
  unfold times_at, set_departure, set_rtd, set_arrival. simpl.
  rewrite !record_lookup. by case_decide.
Qed.

Lemma node_loop_cons bp r route rates hold u v rest t vb st' :
  node_loop bp r route (Some rates) hold ((u, v) :: rest) (t, vb) = Ok st' →
  ∃ link_id link_time rate board_rate hold_time,
    get_next_link_id bp r u = Ok link_id ∧
    link_tt_mean bp !! link_id = Some link_time ∧
    lookup2 rates r v = Ok rate ∧
    boarding_rate route !! v = Some board_rate ∧ ¬ (board_rate == 0)%Q ∧
    lookup2 hold r v = Ok hold_time ∧
    let arrival := (t + link_time)%Q in
    let rtd := (arrival + rate / board_rate * schedule_headway route)%Q in
    let departure := (rtd + hold_time)%Q in
    node_loop bp r route (Some rates) hold rest
      (departure,
       set_departure r v departure (set_rtd r v rtd (set_arrival r v arrival vb)))
    = Ok st'.
Proof.
  cbn [node_loop]. intros Hloop.
  apply bind_Ok in Hloop as (link_id & Hlink & Hloop).
  apply bind_Ok in Hloop as (link_time & Htime%getitem_Ok & Hloop).
  simpl in Hloop.
  apply bind_Ok in Hloop as (rate & Hrate & Hloop).
  apply bind_Ok in Hloop as (board_rate & Hboard%getitem_Ok & Hloop).
  apply bind_Ok in Hloop as (ratio & Hdiv & Hloop).
  apply bind_Ok in Hloop as (hold_time & Hhold & Hloop).
  unfold py_div in Hdiv. destruct (Qeq_bool board_rate 0) eqn:Hz; [done|].
  injection Hdiv as <-.
  exists link_id, link_time, rate, board_rate, hold_time.
  split_and!; try done.
  intros Heq%Qeq_bool_iff. congruence.
Qed.

Lemma node_loop_spec bp r route rates hold (nodes : list string) u t vb t' vb' :
  NoDup (u :: nodes) → (times_at vb r u).2 = Some t →
  node_loop bp r route (Some rates) hold (py_pairs (u :: nodes)) (t, vb)
    = Ok (t', vb') →
  (∀ r' x, r' ≠ r ∨ x ∉ nodes → times_at vb' r' x = times_at vb r' x) ∧
  (∀ a b, (a, b) ∈ py_pairs (u :: nodes) → follows bp r route rates hold vb' a b).
Proof.
  revert u t vb. induction nodes as [|v rest IH]; intros u t vb Hnd Hdep Hloop.
  - injection Hloop as <- <-. split; [done|]. intros a b Hin.
    by apply elem_of_nil in Hin.
  - rewrite py_pairs_cons in Hloop.
    apply node_loop_cons in Hloop
      as (link_id & link_time & rate & board_rate & hold_time &
          Hlink & Htime & Hrate & Hboard & Hnz & Hhold & Hloop).
    cbv zeta in Hloop.
    apply NoDup_cons in Hnd as [Hu Hnd].
    pose proof Hnd as [Hv _]%NoDup_cons.
    apply IH in Hloop as [Hframe Hpairs]; [|done|].
    2:{ rewrite times_at_step. by rewrite decide_True. }
    split.
    + intros r' x Hx. rewrite Hframe.
      * rewrite times_at_step. rewrite decide_False; [done|].
        intros [-> ->]. destruct Hx as [?|Hx]; [done|]. apply Hx. left.
      * destruct Hx as [?|Hx]; [by left|right]. intros ?. apply Hx. by right.
    + intros a b Hin. rewrite py_pairs_cons in Hin.
      apply elem_of_cons in Hin as [[= -> ->]|Hin]; [|by apply Hpairs].
      exists t, link_id, link_time, rate, board_rate, hold_time.
      split_and!; try done.
      * rewrite Hframe by (right; intros ?; apply Hu; by right).
        rewrite times_at_step. rewrite decide_False; [done|].
        intros [_ ->]. apply Hu. left.
      * cbv zeta. rewrite Hframe by by right.
        rewrite times_at_step. by rewrite decide_True.
Qed.

Lemma update_route_spec bp rates hold r route vb vb' :
  NoDup (terminal_id route :: visit_seq_stops route) →
  update_route bp (Some rates) hold (r, route) vb = Ok vb' →
  (∀ r' x, r' ≠ r → times_at vb' r' x = times_at vb r' x) ∧
  times_at vb' r (terminal_id route) = (Some 0%Q, Some 0%Q, Some 0%Q) ∧
  (∀ a b, (a, b) ∈ py_pairs (terminal_id route :: visit_seq_stops route) →
          follows bp r route rates hold vb' a b).
Proof.
  intros Hnd Hroute. unfold update_route in Hroute.
  apply bind_Ok in Hroute as ([t' vb1] & Hloop & Hroute). injection Hroute as <-.
  apply node_loop_spec in Hloop as [Hframe Hpairs]; [|done|].
  2:{ rewrite times_at_step. by rewrite decide_True. }
  split_and!; [|  |done].
  - intros r' x Hr. rewrite Hframe by by left.
    rewrite times_at_step. by rewrite decide_False by tauto.
  - rewrite Hframe by (right; by apply NoDup_cons in Hnd as [? _]).
    rewrite times_at_step. by rewrite decide_True.
Qed.

(** A route whose nodes repeat still leaves the tables of the other routes
    alone. *)
Lemma node_loop_frame bp r route rates hold pairs t vb t' vb' r' x :
  r' ≠ r →
  node_loop bp r route rates hold pairs (t, vb) = Ok (t', vb') →
  times_at vb' r' x = times_at vb r' x.
Proof.
  intros Hr. revert t vb. induction pairs as [|[u v] pairs IH]; intros t vb Hloop.
  - by injection Hloop as <- <-.
  - destruct rates as [rates|].
    + apply node_loop_cons in Hloop
        as (link_id & link_time & rate & board_rate & hold_time &
            _ & _ & _ & _ & _ & _ & Hloop).
      cbv zeta in Hloop. apply IH in Hloop as ->.
      rewrite times_at_step. by rewrite decide_False by tauto.
    + cbn [node_loop] in Hloop.
      apply bind_Ok in Hloop as (link_id & _ & Hloop).
      apply bind_Ok in Hloop as (link_time & _ & Hloop). done.
Qed.

Lemma update_route_frame bp rates hold r route vb vb' r' x :
  r' ≠ r →
  update_route bp rates hold (r, route) vb = Ok vb' →
  times_at vb' r' x = times_at vb r' x.
Proof.
  intros Hr Hroute. unfold update_route in Hroute.
  apply bind_Ok in Hroute as ([t' vb1] & Hloop & Hroute). injection Hroute as <-.
  apply (node_loop_frame _ _ _ _ _ _ _ _ _ _ r' x Hr) in Hloop as ->.
  rewrite times_at_step. by rewrite decide_False by tauto.
Qed.

Lemma route_loop_frame bp rates hold items vb vb' r' x :
  r' ∉ items.*1 →
  route_loop bp rates hold items vb = Ok vb' →
  times_at vb' r' x = times_at vb r' x.
Proof.
  revert vb. induction items as [|[r route] items IH]; intros vb Hnin Hloop.
  - by injection Hloop as <-.
  - cbn [route_loop] in Hloop. apply bind_Ok in Hloop as (vb1 & Hroute & Hloop).
    apply not_elem_of_cons in Hnin as [Hne Hnin].
    rewrite (IH _ Hnin Hloop). by eapply update_route_frame.
Qed.

Lemma follows_frame bp r route rates hold vb vb' a b :
  (∀ x, times_at vb' r x = times_at vb r x) →
  follows bp r route rates hold vb a b → follows bp r route rates hold vb' a b.
Proof. intros Hsame. unfold follows. by rewrite !Hsame. Qed.

End trajectory.

(** X18. The reference trajectory that [update_trajectory] writes for a
    route whose nodes are distinct: at the terminal the three times are 0,
    and for every two consecutive nodes of [terminal] + [visit_seq_stops]
    the arrival time at the second is the departure time from the first
    plus the mean travel time of the link between them, the ready-to-depart
    time is the arrival time plus [arrival_rate / board_rate * H], and the
    departure time is the ready-to-depart time plus the average hold time
    given for that stop. *)
Theorem reference_trajectory_recurrence
    (bp : Blueprint) (rates hold : gmap string (gmap string Q))
    (vb vb' : VirtualBus) (route_id : string) (route : Route_Details) :
  NoDup (route_details_by_id bp).*1 →
  (route_id, route) ∈ route_details_by_id bp →
  NoDup (terminal_id route :: visit_seq_stops route) →
  Trajectory.update_trajectory bp (Some rates) hold vb = Ok vb' →
  Trajectory.times_at vb' route_id (terminal_id route) =
    (Some 0%Q, Some 0%Q, Some 0%Q) ∧
  ∀ a b, (a, b) ∈ py_pairs (terminal_id route :: visit_seq_stops route) →
         Trajectory.follows bp route_id route rates hold vb' a b.
Proof.
  unfold Trajectory.update_trajectory. generalize (route_details_by_id bp).
  intros items Hkeys Hin Hnodes. revert vb.
  induction items as [|[r0 route0] items IH]; intros vb Hloop.
  - by apply elem_of_nil in Hin.
  - cbn [Trajectory.route_loop] in Hloop.
    apply bind_Ok in Hloop as (vb1 & Hroute & Hloop).
    simpl in Hkeys. apply NoDup_cons in Hkeys as [Hnin Hkeys].
    apply elem_of_cons in Hin as [[= <- <-]|Hin]; [|by apply (IH Hkeys Hin vb1)].
    apply update_route_spec in Hroute as (_ & Hzero & Hpairs); [|done].
    pose proof (route_loop_frame _ _ _ _ _ _ route_id
                  (terminal_id route) Hnin Hloop) as Hsame.
    split; [by rewrite Hsame|].
    intros a b Hab. eapply follows_frame; [|by apply Hpairs].
    intros x. by eapply route_loop_frame.
Qed.

Lemma reference_trajectory_recurrence_witness :
  Trajectory.times_at Demo.reference "r" "T" = (Some 0%Q, Some 0%Q, Some 0%Q) ∧
  ∀ a b, (a, b) ∈ py_pairs ["T"%string; "s1"%string; "s2"%string] →
         Trajectory.follows Demo.blueprint "r" Demo.route_sched Demo.arrival_rates
           (Trajectory._initialize_average_hold_time Demo.blueprint 5)
           Demo.reference a b.
Proof.
  apply (reference_trajectory_recurrence Demo.blueprint Demo.arrival_rates
           (Trajectory._initialize_average_hold_time Demo.blueprint 5)
           (mkVirtualBus ∅ ∅ ∅) Demo.reference "r" Demo.route_sched).
  - apply (bool_decide_unpack _). vm_compute. exact I.
  - left.
  - apply (bool_decide_unpack _). vm_compute. exact I.
  - vm_compute. reflexivity.
Defined.

Section trajectory_errors.
Import Trajectory.

Lemma node_loop_zero_rate bp r route rates hold pairs st (a b : string) board_rate :
  (a, b) ∈ pairs → boarding_rate route !! b = Some board_rate →
  (board_rate == 0)%Q →
  raises (node_loop bp r route rates hold pairs st).
Proof.
  intros Hin Hboard Hzero. revert st.
  induction pairs as [|[u v] pairs IH]; intros [t vb];
    [by apply elem_of_nil in Hin|].
  cbn [node_loop].
  destruct (get_next_link_id bp r u) as [link_id|]; [|done]. simpl.
  destruct (getitem (link_tt_mean bp !! link_id)) as [link_time|]; [|done]. simpl.
  destruct rates as [rates|]; [|done]. simpl.
  destruct (lookup2 rates r v) as [rate|]; [|done]. simpl.
  destruct (getitem (boarding_rate route !! v)) as [board|] eqn:Hb; [|done]. simpl.
  destruct (py_div rate board) as [ratio|] eqn:Hdiv; [|done]. simpl.
  destruct (lookup2 hold r v) as [hold_time|]; [|done]. simpl.
  apply elem_of_cons in Hin as [[= -> ->]|Hin]; [|by apply IH].
  exfalso. rewrite Hboard in Hb. injection Hb as <-.
  unfold py_div in Hdiv. apply Qeq_bool_iff in Hzero. by rewrite Hzero in Hdiv.
Qed.

End trajectory_errors.

(** X19. A stop nobody can board at stops the reference trajectory: if a
    route of the blueprint visits a stop whose boarding rate is 0,
    [update_trajectory] raises, at the latest with [ZeroDivisionError] when
    it divides the arrival rate of that stop by its boarding rate, and
    whatever the arrival rate is. *)
Theorem reference_trajectory_zero_boarding_rate
    (bp : Blueprint) (rates : option (gmap string (gmap string Q)))
    (hold : gmap string (gmap string Q)) (vb : VirtualBus)
    (route_id : string) (route : Route_Details) (stop_id : string) (board_rate : Q) :
  (route_id, route) ∈ route_details_by_id bp →
  stop_id ∈ visit_seq_stops route →
  boarding_rate route !! stop_id = Some board_rate → (board_rate == 0)%Q →
  raises (Trajectory.update_trajectory bp rates hold vb).
Proof.
  intros Hin Hstop Hboard Hzero.
  assert (∃ a, (a, stop_id) ∈ py_pairs (terminal_id route :: visit_seq_stops route))
    as [a Hpair].
  { generalize (terminal_id route). revert Hstop.
    generalize (visit_seq_stops route). clear. intros stops.
    induction stops as [|v stops IH]; intros Hstop u;
      [by apply elem_of_nil in Hstop|].
    rewrite py_pairs_cons. apply elem_of_cons in Hstop as [->|Hstop].
    - exists u. left.
    - destruct (IH Hstop v) as [a Ha]. exists a. by right. }
  unfold Trajectory.update_trajectory. revert vb.
  induction (route_details_by_id bp) as [|[r0 route0] items IH]; intros vb;
    [by apply elem_of_nil in Hin|].
  cbn [Trajectory.route_loop].
  destruct (Trajectory.update_route bp rates hold (r0, route0) vb) as [vb1|]
    eqn:Hroute; [|done].
  simpl. apply elem_of_cons in Hin as [[= <- <-]|Hin]; [|by apply IH].
  exfalso. unfold Trajectory.update_route in Hroute.
  apply bind_Ok in Hroute as ([t' vb2] & Hloop & _).
  pose proof (node_loop_zero_rate bp route_id route rates hold _
    (0%Q, Trajectory.set_departure route_id (terminal_id route) 0%Q
            (Trajectory.set_rtd route_id (terminal_id route) 0%Q
               (Trajectory.set_arrival route_id (terminal_id route) 0%Q vb)))
    a stop_id board_rate Hpair Hboard Hzero) as Hraise.
  by rewrite Hloop in Hraise.
Qed.

Lemma reference_trajectory_zero_boarding_rate_witness :
  raises (Trajectory.update_trajectory Demo.blueprint_stuck (Some Demo.arrival_rates)
            (Trajectory._initialize_average_hold_time Demo.blueprint_stuck 5)
            (mkVirtualBus ∅ ∅ ∅)).
Proof.
  apply (reference_trajectory_zero_boarding_rate Demo.blueprint_stuck
           (Some Demo.arrival_rates) _ _ "r" Demo.route_stuck "s2" 0%Q).
  - left.
  - right. left.
  - vm_compute. reflexivity.
  - reflexivity.
Defined.

(** ** Passenger generation *)

Section pax_generation.
Import PaxGenerator.




End pax_generation.



(** X21. With the normal board-time model the sampled boarding time is
    clamped to [0.1, 10] seconds before it is inverted: whatever the draw,
    [_get_board_rate] returns a rate and that rate lies between 0.1 and 10
    passengers per second. With the deterministic model and a mean boarding
    time of 0 it raises [ZeroDivisionError]. *)
Theorem pax_board_rate_bounds (pax_board_time_mean sample : Q) :
  (∃ rate,
     PaxGenerator._get_board_rate "normal" pax_board_time_mean sample = Ok rate ∧
     (1 # 10 <= rate)%Q ∧ (rate <= 10)%Q) ∧
  ((pax_board_time_mean == 0)%Q →
   PaxGenerator._get_board_rate "deterministic" pax_board_time_mean sample =
     Raise ZeroDivisionError).
Proof.
  split.
  - unfold PaxGenerator._get_board_rate. simpl.
    set (c := py_min 10 (py_max (1 # 10) sample)).
    assert ((1 # 10 <= c)%Q ∧ (c <= 10)%Q) as [Hlo Hhi].
    { unfold c, py_min, py_max.
      destruct (Qlt_bool (1 # 10) sample) eqn:H1.
      - apply Qlt_bool_iff in H1. destruct (Qlt_bool sample 10) eqn:H2.
        + apply Qlt_bool_iff in H2. split; lra.
        + split; [done|lra].
      - assert (sample <= 1 # 10)%Q as Hs.
        { apply Qnot_lt_le. intros Hlt%Qlt_bool_iff. congruence. }
        destruct (Qlt_bool (1 # 10) 10) eqn:H2; [split; lra|by vm_compute in H2]. }
    destruct (py_div_positive 1 c) as [-> _]; [lra|].
    exists (1 / c)%Q. split; [done|]. split.
    + apply Qle_shift_div_l; [lra|]. lra.
    + apply Qle_shift_div_r; [lra|]. lra.
  - intros Hzero. unfold PaxGenerator._get_board_rate, py_div. simpl.
    apply Qeq_bool_iff in Hzero. by rewrite Hzero.
Qed.

Lemma pax_board_rate_bounds_witness :
  PaxGenerator._get_board_rate "deterministic" 0 1 = Raise ZeroDivisionError.
Proof.
  apply (proj2 (pax_board_rate_bounds 0 1)). reflexivity.
Defined.

(** ** Passenger queue: the time boarding takes *)

Section pax_queue_boarding.
Import PaxQueue.
Implicit Types (q : PaxQueue.t) (bus : Bus).



End pax_queue_boarding.




(** ** Stops: the queueing delay *)

Section stop_queueing_delay.
Import Stop.
Implicit Types (s : Stop.t).

Lemma queueing_loop_delay stop_id t0 (queue queue' : list Bus) :
  queueing_loop stop_id t0 queue = Ok queue' →
  Forall2 (queued_one_tick stop_id) queue queue'.
Proof.
  revert queue'. induction queue as [|bus queue IH]; intros queue' Hloop.
  - injection Hloop as <-. constructor.
  - cbn [queueing_loop] in Hloop.
    apply bind_Ok in Hloop as (bus' & Hupd & Hloop).
    apply bind_Ok in Hloop as (rest' & Hrest & Hloop). injection Hloop as <-.
    constructor; [|by apply IH].
    apply update_location_Ok in Hupd as (Hid & Hroute & Hlog & Hst & _).
    split_and!.
    + unfold ident. rewrite Hid, Hroute. by destruct bus.
    + rewrite Hst. by destruct bus.
    + rewrite Hlog. destruct bus as [? ? ? ? ? ? ? ? ? ? ? ? ? ? ? bl ? ?].
      simpl. destruct bl. simpl. by rewrite lookup_insert_eq.
Qed.

Lemma enter_berth_kept_waiting t0 s s1 :
  _enter_berth t0 s = Ok s1 →
  Forall2 (queued_one_tick (_stop_id s)) (kept_waiting s) (_entry_queue s1).
Proof.
  unfold _enter_berth, kept_waiting. intros Henter.
  destruct (_entry_queue s) as [|head_bus waiting] eqn:Hq.
  { injection Henter as <-. rewrite Hq. constructor. }
  apply bind_Ok in Henter as (queue' & Hloop & Henter). injection Henter as <-.
  apply queueing_loop_delay in Hloop.
  destruct (_queue_rule_check_in s) as [target|].
  - destruct s; simpl in *. done.
  - rewrite Hq in Hloop. destruct s; simpl in *. done.
Qed.

(** The bus a tick admits goes to its berth with its running log as it
    was. *)
Lemma enter_berth_charge t0 s s1 :
  _enter_berth t0 s = Ok s1 →
  charge <$> past_queue s1 ≡ₚ charge <$> (admitted s ++ past_queue s).
Proof.
  unfold _enter_berth, admitted, past_queue. intros Henter.
  destruct (_entry_queue s) as [|head_bus waiting] eqn:Hq.
  { by injection Henter as <-. }
  apply bind_Ok in Henter as (queue' & Hloop & Henter). injection Henter as <-.
  destruct (_queue_rule_check_in s) as [target|] eqn:Hin.
  - apply check_in_free in Hin. unfold free in Hin.
    destruct s; simpl in *. rewrite !fmap_app.
    rewrite (omap_insert_free _ _ _ Hin). simpl.
    by destruct head_bus.
  - by destruct s.
Qed.

Lemma board_charge (bus bus' : Bus) t0 q q' :
  PaxQueue.board bus t0 q = Ok (q', bus') → charge bus' = charge bus.
Proof.
  intros Hboard. pose proof (board_ident _ _ _ _ _ Hboard) as Hid.
  unfold charge. rewrite Hid. f_equal.
  unfold PaxQueue.board in Hboard.
  destruct (_board_status bus) eqn:Hst.
  - apply bind_Ok in Hboard as (b1 & Hacc & Hboard). injection Hboard as <- <-.
    by apply accumate_board_fraction_Ok in Hacc as (_ & _ & _ & ->).
  - destruct (PaxQueue._get_served_groups (_route_id bus) q) as [|g gs].
    { by injection Hboard as <- <-. }
    apply bind_Ok in Hboard as (u & _ & Hboard).
    apply bind_Ok in Hboard as (candidates & _ & Hboard).
    destruct candidates as [|[i head_pax] rest].
    { by injection Hboard as <- <-. }
    apply bind_Ok in Hboard as (b2 & Hacc & Hboard). injection Hboard as <- <-.
    apply accumate_board_fraction_Ok in Hacc as (_ & _ & _ & ->).
    by destruct bus.
Qed.

Lemma alight_charge stop_id (bus bus' : Bus) leaving :
  Bus_alight stop_id bus = Ok (bus', leaving) → charge bus' = charge bus.
Proof.
  unfold Bus_alight. intros Halight. destruct (_alight_status bus).
  - destruct (_pax_alight_rate bus) as [r|]; [|done].
    destruct (Qle_bool _ _); injection Halight as <- <-; by destruct bus.
  - destruct (list_find _ _) as [[i pax]|]; injection Halight as <- <-;
      [by destruct bus|done].
Qed.

Lemma update_location_charge t0 spot_type spot_id node_id offset st (b b' : Bus) :
  update_location t0 spot_type spot_id node_id offset st b = Ok b' →
  charge b' = charge b.
Proof.
  intros Hupd. pose proof (update_location_ident _ _ _ _ _ _ _ _ Hupd) as Hid.
  apply update_location_Ok in Hupd as (_ & _ & Hlog & _).
  unfold charge. by rewrite Hid, Hlog.
Qed.

Lemma board_loop_charge t0 range_ s s' :
  board_loop t0 range_ s = Ok s' →
  charge <$> past_queue s' = charge <$> past_queue s.
Proof.
  revert s. induction range_ as [|b rest IH]; intros s Hloop; simpl in Hloop.
  - by injection Hloop as <-.
  - destruct (_buses_in_berth s !! b) as [[bus|]|] eqn:Hb; [|by apply IH..].
    apply bind_Ok in Hloop as ([q bus1] & Hboard & Hloop).
    apply bind_Ok in Hloop as (bus2 & Hloc & Hloop).
    apply IH in Hloop as ->.
    apply board_charge in Hboard. apply update_location_charge in Hloc.
    assert (charge bus2 = charge bus) as Hid.
    { rewrite Hloc, <- Hboard. unfold charge, ident.
      destruct bus1 as [? ? ? ? ? ? ? ? ? ? ? ? ? ? ? bl ? ?]. by destruct bl. }
    unfold past_queue. destruct s; simpl in *.
    by rewrite !fmap_app, (omap_insert_same charge _ _ _ _ Hb Hid).
Qed.

Lemma alight_loop_charge t0 range_ s acc s' acc' :
  alight_loop t0 range_ (s, acc) = Ok (s', acc') →
  charge <$> past_queue s' = charge <$> past_queue s.
Proof.
  revert s acc. induction range_ as [|b rest IH]; intros s acc Hloop; simpl in Hloop.
  - by injection Hloop as <- <-.
  - destruct (_buses_in_berth s !! b) as [[bus|]|] eqn:Hb; [|by eapply IH..].
    apply bind_Ok in Hloop as ([bus1 leaving] & Halight & Hloop).
    apply bind_Ok in Hloop as (bus2 & Hloc & Hloop).
    apply IH in Hloop as ->.
    apply alight_charge in Halight. apply update_location_charge in Hloc.
    assert (charge bus2 = charge bus) as Hid by congruence.
    unfold past_queue. destruct s; simpl in *.
    by rewrite !fmap_app, (omap_insert_same charge _ _ _ _ Hb Hid).
Qed.

Lemma check_leave_loop_charge range_ s s' :
  check_leave_loop range_ s = Ok s' →
  charge <$> past_queue s' ≡ₚ charge <$> past_queue s.
Proof.
  revert s. induction range_ as [|b rest IH]; intros s Hloop; simpl in Hloop.
  - by injection Hloop as <-.
  - destruct (_buses_in_berth s !! b) as [[bus|]|] eqn:Hb; [|by apply IH..].
    apply bind_Ok in Hloop as (finished & _ & Hloop).
    destruct finished; [|by apply IH].
    apply bind_Ok in Hloop as (can_go & _ & Hloop).
    destruct can_go; [|by apply IH].
    apply IH in Hloop as ->.
    unfold past_queue. destruct s; simpl in *.
    rewrite !fmap_app. rewrite (omap_insert_vacate _ _ _ Hb).
    simpl. rewrite <- !Permutation_middle. rewrite app_nil_r. done.
Qed.

Lemma record_rtd_charge t0 (bus bus' : Bus) s log' :
  record_rtd t0 bus s = Ok (bus', log') → charge bus' = charge bus.
Proof.
  unfold record_rtd, record_when_rtd. intros Hrec. destruct (_has_schedule s).
  - apply bind_Ok in Hrec as (ids & _ & Hrec).
    apply bind_Ok in Hrec as ([bl eps] & Hrtd & Hrec).
    apply bind_Ok in Hrec as (log1 & _ & Hrec). injection Hrec as <- <-.
    apply bind_Ok in Hrtd as (vr & _ & Hrtd). injection Hrtd as <- <-.
    destruct bus as [? ? ? ? ? ? ? ? ? ? ? ? ? ? ? bl ? ?]. by destruct bl.
  - apply bind_Ok in Hrec as ([bl eps] & Hrtd & Hrec).
    apply bind_Ok in Hrec as (u & _ & Hrec).
    apply bind_Ok in Hrec as (log1 & _ & Hrec). injection Hrec as <- <-.
    injection Hrtd as <- <-.
    destruct bus as [? ? ? ? ? ? ? ? ? ? ? ? ? ? ? bl ? ?]. by destruct bl.
Qed.

Lemma leave_loop_charge fuel t0 s acc s' acc' (pre suf : list Bus) :
  _leave_queue s = pre ++ suf → (length suf ≤ fuel)%nat →
  leave_loop fuel t0 (length pre) (s, acc) = Ok (s', acc') →
  ∃ out, acc' = acc ++ out ∧ charge <$> out = charge <$> every_other suf.
Proof.
  revert s acc pre suf.
  induction fuel as [|fuel IH]; intros s acc pre suf Hq Hlen Hloop.
  - destruct suf; [|simpl in Hlen; lia]. simpl in Hloop. injection Hloop as <- <-.
    exists []. by rewrite app_nil_r.
  - simpl in Hloop. rewrite Hq in Hloop. destruct suf as [|x suf1].
    + rewrite lookup_ge_None_2 in Hloop by (rewrite app_nil_r; lia).
      injection Hloop as <- <-. exists []. by rewrite app_nil_r.
    + rewrite list_lookup_middle in Hloop by done.
      apply bind_Ok in Hloop as ([bus' log'] & Hrec & Hloop).
      apply record_rtd_charge in Hrec.
      assert (delete (length pre) (pre ++ x :: suf1) = pre ++ suf1) as Hdel.
      { clear. induction pre as [|p pre IHp]; simpl; [done|by f_equal]. }
      rewrite Hdel in Hloop.
      destruct suf1 as [|y suf2].
      * assert (acc' = acc ++ [bus']) as ->.
        { destruct fuel; simpl in Hloop.
          - by injection Hloop as <- <-.
          - rewrite lookup_ge_None_2 in Hloop.
            + by injection Hloop as <- <-.
            + destruct s; simpl. rewrite app_nil_r. lia. }
        exists [bus']. split; [done|]. simpl. by rewrite Hrec.
      * replace (S (length pre)) with (length (pre ++ [y])) in Hloop
          by (rewrite length_app; simpl; lia).
        apply (IH _ _ (pre ++ [y]) suf2) in Hloop as (out & -> & Hout).
        -- exists (bus' :: out). rewrite <- app_assoc. split; [done|].
           change (every_other (x :: y :: suf2)) with (x :: every_other suf2).
           by rewrite !fmap_cons, Hrec, Hout.
        -- destruct s; simpl. by rewrite <- app_assoc.
        -- simpl in Hlen. lia.
Qed.

Lemma operation_charge t0 s s' leaving_buses leaving_paxs :
  operation t0 s = Ok (s', leaving_buses, leaving_paxs) →
  charge <$> (past_queue s' ++ leaving_buses) ≡ₚ
  charge <$> (admitted s ++ past_queue s).
Proof.
  unfold operation. intros Hop.
  apply bind_Ok in Hop as (s1 & H1 & Hop).
  apply bind_Ok in Hop as (s2 & H2 & Hop).
  apply bind_Ok in Hop as ([s3 paxs] & H3 & Hop).
  apply bind_Ok in Hop as (s4 & H4 & Hop).
  apply bind_Ok in Hop as ([s5 buses] & H5 & Hop). injection Hop as <- <- <-.
  apply enter_berth_charge in H1. apply board_loop_charge in H2.
  assert (charge <$> past_queue s3 = charge <$> past_queue s2) as H3'.
  { unfold _alight in H3. destruct (class s2).
    - by injection H3 as <- <-.
    - by apply alight_loop_charge in H3. }
  apply check_leave_loop_charge in H4.
  unfold _leave in H5.
  pose proof (leave_loop_charge _ _ _ _ _ _ [] (_leave_queue s4) eq_refl
                (le_n _) H5) as (out & Hout & Hcharge).
  apply (leave_loop_every_other _ _ _ _ _ _ [] (_leave_queue s4)) in H5
    as (Hq & _ & _ & Hb & _); [|done|done].
  simpl in Hout, Hq. subst buses.
  rewrite <- H1, <- H2, <- H3', <- H4.
  unfold past_queue. destruct s5; simpl in *. rewrite Hb, Hq.
  rewrite !fmap_app, Hcharge, <- app_assoc. f_equiv.
  rewrite (every_other_Permutation (_leave_queue s4)) at 3.
  rewrite fmap_app. apply Permutation_app_comm.
Qed.

End stop_queueing_delay.

(** X23. Queueing delay is counted per tick and only for buses that keep
    queueing: after a tick of a stop, the entry queue holds exactly the
    buses the tick did not admit (all of them, or all but the head), in
    order, each with its queueing delay at this stop increased by exactly
    one. The bus admitted to a berth is not charged for that tick: together
    with the buses that were in a berth or in the leave queue it makes up,
    with the queueing delays each had before the tick, the buses that are
    in a berth or in the leave queue after the tick or returned by it. *)
Theorem stop_queueing_delay_per_tick
    (t0 : Z) (s s' : Stop.t) (leaving_buses : list Bus) (leaving_paxs : list Pax) :
  Stop.operation t0 s = Ok (s', leaving_buses, leaving_paxs) →
  Forall2 (Stop.queued_one_tick (Stop._stop_id s)) (Stop.kept_waiting s)
          (Stop._entry_queue s') ∧
  Stop.charge <$> (Stop.past_queue s' ++ leaving_buses) ≡ₚ
  Stop.charge <$> (Stop.admitted s ++ Stop.past_queue s).
Proof.
  intros Hop. split.
  - destruct (operation_entry_queue _ _ _ _ _ Hop) as (s1 & Henter & ->).
    by apply (enter_berth_kept_waiting t0).
  - by apply operation_charge in Hop.
Qed.

Lemma stop_queueing_delay_per_tick_witness :
  Forall2 (Stop.queued_one_tick (Stop._stop_id Demo.stop_queued))
          (Stop.kept_waiting Demo.stop_queued)
          (Stop._entry_queue Demo.stop_tick.1.1) ∧
  Stop.charge <$> (Stop.past_queue Demo.stop_tick.1.1 ++ Demo.stop_tick.1.2) ≡ₚ
  Stop.charge <$> (Stop.admitted Demo.stop_queued ++ Stop.past_queue Demo.stop_queued).
Proof.
  apply (stop_queueing_delay_per_tick 381 Demo.stop_queued Demo.stop_tick.1.1
           Demo.stop_tick.1.2 Demo.stop_tick.2).
  vm_compute. reflexivity.
Defined.

